(** * Tara runtime: the fiber scheduler and its syscall wrappers

    A shallow embedding of [Source/Runtime.cxx] and [Source/Scheduler.cxx].
    Fibers are addressed by the pointer value of their [Fiber] record, the
    intrusive queues are lists of such pointers, and every [setjmp]/[longjmp]
    pair is split into the half that saves a context and the half that runs
    when that context is resumed. *)

From stdpp Require Import gmap list.
From Stdlib Require Import ZArith Lia.

Open Scope Z_scope.

#[local] Set Warnings "-clear-no-such-hyp".

(** ** Constants of the platform headers *)

(** [errno.h] on Linux, the platform of [sys/eventfd.h]. *)
Definition EINTR : Z := 4.
Definition EBADF : Z := 9.
Definition EWOULDBLOCK : Z := 11.
Definition ETIME : Z := 62.
Definition ECONNREFUSED : Z := 111.
Definition EINPROGRESS : Z := 115.

(** An [int] is 32 bits wide, in two's complement: [wrap_int z] is the value
    an [int] holds for the mathematical value [z], and [int_neg] is the unary
    minus of [int]. *)
Definition INT_MIN : Z := - 2 ^ 31.
Definition INT_MAX : Z := 2 ^ 31 - 1.
Definition wrap_int (z : Z) : Z := (z + 2 ^ 31) `mod` 2 ^ 32 - 2 ^ 31.
Definition int_neg (i : Z) : Z := wrap_int (- i).

(** Pointers are 64-bit values; [mmap] reports failure with [(void * ) -1]. *)
Definition ptr_modulus : Z := 2 ^ 64.
Definition nullptr : Z := 0.
Definition MAP_FAILED : Z := ptr_modulus - 1.

Definition TARA_FIBER_SIZE : Z := 65536.

(** ** Data model *)

(** A [Coroutine] is a [std::function<void ()>]; the empty function compares
    equal to [nullptr] and is [None] here, a callable is named by a number. *)
Abbreviation Coroutine := (option nat) (only parsing).

Inductive IOEvent := Readability | Writability.

#[global] Instance IOEvent_eq_dec : EqDecision IOEvent.
Proof. solve_decision. Defined.

(** A [jmp_buf] lives in the frame of the function that called [setjmp]; a
    saved context is named by that function. *)
Inductive JmpSite := InRun | InYield | InSleep | InAwait.

#[global] Instance JmpSite_eq_dec : EqDecision JmpSite.
Proof. solve_decision. Defined.

(** Modelled from the spec: the [Fiber] record of [Fiber.hxx] (section 3:
    coroutine, saved context that is null before the fiber has ever run,
    resumption status, awaited fd or -1). The stack is the region the record
    sits in, the two linkage nodes are the queues below. *)
Record Fiber := mkFiber {
  coroutine : Coroutine;
  context : option JmpSite;
  status : Z;
  fd : Z
}.

#[global] Instance Fiber_eq_dec : EqDecision Fiber.
Proof. solve_decision. Defined.

(** Modelled from the spec: the constructor [Fiber(coroutine, stack)] of
    [Fiber.hxx]; a fresh fiber has no saved context, status 0 and awaits no
    fd. *)
Definition Fiber_new (c : Coroutine) : Fiber :=
  {| coroutine := c; context := None; status := 0; fd := -1 |}.

Definition set_coroutine (c : Coroutine) (fb : Fiber) : Fiber :=
  {| coroutine := c; context := context fb; status := status fb; fd := fd fb |}.
Definition set_context (k : option JmpSite) (fb : Fiber) : Fiber :=
  {| coroutine := coroutine fb; context := k; status := status fb; fd := fd fb |}.
Definition set_status (st : Z) (fb : Fiber) : Fiber :=
  {| coroutine := coroutine fb; context := context fb; status := st; fd := fd fb |}.
Definition set_fd (d : Z) (fb : Fiber) : Fiber :=
  {| coroutine := coroutine fb; context := context fb; status := status fb; fd := d |}.

(** Modelled from the spec: the intrusive queue macros ([QUEUE_INIT],
    [QUEUE_EMPTY], [QUEUE_HEAD], [QUEUE_REMOVE], [QUEUE_INSERT_TAIL],
    [QUEUE_ADD], [QUEUE_FOREACH]). A queue is the list of the fibers whose
    [queueItem] is linked in it, head first. *)
Abbreviation QUEUE := (list Z) (only parsing).

(** *** TimerQueue *)

(** Modelled from the spec: [TimerItem], "a tuple (deadline, owning Fiber)";
    a deadline of [None] never expires. *)
Record TimerItem := mkTimerItem { owner : Z; deadline : option Z }.

Definition deadline_le (a b : option Z) : bool :=
  match a, b with
  | Some x, Some y => x <=? y
  | _, None => true
  | None, Some _ => false
  end.

(** Modelled from the spec: the store is ordered "by ascending deadline; ties
    broken by insertion order". *)
Fixpoint Timer_insert (it : TimerItem) (q : list TimerItem) : list TimerItem :=
  match q with
  | [] => [it]
  | x :: q' =>
      if deadline_le (deadline x) (deadline it) then x :: Timer_insert it q'
      else it :: q
  end.

(** Modelled from the spec: [Timer::addItem], "records item with deadline =
    now + duration. Duration < 0 means no timeout (the item is stored but never
    expires)". *)
Definition Timer_addItem (now : Z) (f : Z) (duration : Z)
    (q : list TimerItem) : list TimerItem :=
  Timer_insert
    {| owner := f; deadline := if duration <? 0 then None else Some (now + duration) |}
    q.

(** Modelled from the spec: [Timer::removeItem], "unlinks item if present;
    idempotent". *)
Definition Timer_removeItem (f : Z) (q : list TimerItem) : list TimerItem :=
  filter (λ it, owner it ≠ f) q.

Definition is_due (now : Z) (it : TimerItem) : bool :=
  match deadline it with
  | Some d => d <=? now
  | None => false
  end.

(** Modelled from the spec: [Timer::removeDueItems], "appends up to cap items
    whose deadlines are <= now into buf, removing them; returns count". The
    result is the buffer and the items left in the store. *)
Fixpoint Timer_removeDueItems (now : Z) (cap : nat) (q : list TimerItem)
    : list Z * list TimerItem :=
  match q with
  | [] => ([], [])
  | it :: q' =>
      match cap with
      | O => ([], q)
      | S cap' =>
          if is_due now it then
            let '(buf, rest) := Timer_removeDueItems now cap' q' in
            (owner it :: buf, rest)
          else
            let '(buf, rest) := Timer_removeDueItems now cap q' in
            (buf, it :: rest)
      end
  end.

(** Modelled from the spec: [Timer::calculateTimeout], "milliseconds until the
    earliest non-infinite deadline, 0 if one is already due, or wait
    indefinitely if empty/all-infinite". *)
Definition Timer_calculateTimeout (now : Z) (q : list TimerItem) : Z :=
  match q with
  | {| deadline := Some d |} :: _ => Z.max 0 (d - now)
  | _ => -1
  end.

(** *** IOPoll *)

(** Modelled from the spec: an IOPoll wait record; fiber [aw_fiber] is linked
    in the [aw_event] wait set of [aw_fd]. *)
Record Awaiter := mkAwaiter { aw_fd : Z; aw_event : IOEvent; aw_fiber : Z }.

(** Modelled from the spec: the state of [IOPoll]: the watched fds and the
    wait records, oldest first. *)
Record IOPoll := mkIOPoll { watched : gset Z; awaiters : list Awaiter }.

Definition IOPoll_empty : IOPoll := {| watched := ∅; awaiters := [] |}.

(** Modelled from the spec: [IOPoll::watch], "registers fd ... Idempotent per
    fd". *)
Definition IOPoll_watch (d : Z) (p : IOPoll) : IOPoll :=
  {| watched := {[d]} ∪ watched p; awaiters := awaiters p |}.

(** Modelled from the spec: [IOPoll::isWatched]. *)
Definition IOPoll_isWatched (d : Z) (p : IOPoll) : bool :=
  bool_decide (d ∈ watched p).

(** Modelled from the spec: [IOPoll::addEventAwaiter], "links the fiber into
    the fd's readability or writability wait set". *)
Definition IOPoll_addEventAwaiter (f : Z) (d : Z) (ev : IOEvent) (p : IOPoll)
    : IOPoll :=
  {| watched := watched p;
     awaiters := awaiters p ++ [{| aw_fd := d; aw_event := ev; aw_fiber := f |}] |}.

(** Modelled from the spec: [IOPoll::removeEventAwaiter], "unlinks from
    whichever set it was in". *)
Definition IOPoll_removeEventAwaiter (f : Z) (d : Z) (p : IOPoll) : IOPoll :=
  {| watched := watched p;
     awaiters := filter (λ a, ¬ (aw_fiber a = f ∧ aw_fd a = d)) (awaiters p) |}.

(** Modelled from the spec: [IOPoll::removeEventAwaiters], the spec's
    [unwatch]: "deregisters fd and drains all fibers waiting on that fd,
    returning them in a list". *)
Definition IOPoll_removeEventAwaiters (d : Z) (p : IOPoll) : list Z * IOPoll :=
  (aw_fiber <$> filter (λ a, aw_fd a = d) (awaiters p),
   {| watched := watched p ∖ {[d]};
      awaiters := filter (λ a, aw_fd a ≠ d) (awaiters p) |}).

(** Modelled from the spec: what splicing writes to a woken fiber, "status
    is set to +1 (normal wakeup) and its fd field is cleared to -1". *)
Definition wake (fb : Fiber) : Fiber := set_fd (-1) (set_status 1 fb).

(** Modelled from the spec: the wait record is one of a ready (fd, event). *)
Definition is_ready (ready : list (Z * IOEvent)) (a : Awaiter) : Prop :=
  (aw_fd a, aw_event a) ∈ ready.

#[global] Instance is_ready_dec ready a : Decision (is_ready ready a).
Proof. unfold is_ready. apply _. Defined.

(** Modelled from the spec: the call of [IOPoll::waitForEvents] that returns
    true, the kernel having reported the pairs [ready] (none when the timeout
    elapsed): "for each ready (fd, event), splices every waiter of that event
    into out_list and clears that event's wait set"; "each woken fiber's status
    is set to +1 ... and its fd field is cleared to -1". The calls that return
    false before it are "interrupted with no effect". The result is the out
    list, the poll state and the fiber memory. *)
Definition IOPoll_waitForEvents (ready : list (Z * IOEvent)) (p : IOPoll)
    (mem : gmap Z Fiber) : list Z * IOPoll * gmap Z Fiber :=
  let woken := aw_fiber <$> filter (is_ready ready) (awaiters p) in
  (woken,
   {| watched := watched p;
      awaiters := filter (λ a, ¬ is_ready ready a) (awaiters p) |},
   foldl (λ m f, alter wake f m) mem woken).

(** ** The scheduler *)

(** The fields of [Scheduler] ([Scheduler.hxx] is not part of the sources; the
    fields are those [Scheduler.cxx] uses), then what its code reads and
    writes outside the object: the memory holding the [Fiber] records, the
    thread's [errno], the clock the timer reads, and whether the thread is
    inside [run]. *)
Record Scheduler := mkScheduler {
  fiberCount_ : Z;
  context_ : option JmpSite;
  status_ : Z;
  runningFiber_ : option Z;
  readyFiberQueue_ : QUEUE;
  deadFiberQueue_ : QUEUE;
  timer_ : list TimerItem;
  ioPoll_ : IOPoll;
  fibers : gmap Z Fiber;
  errno : Z;
  clock : Z;
  inRun : bool
}.

(** [Scheduler::Scheduler()]. *)
Definition Scheduler_new (errno0 clock0 : Z) : Scheduler :=
  {| fiberCount_ := 0; context_ := None; status_ := 0; runningFiber_ := None;
     readyFiberQueue_ := []; deadFiberQueue_ := [];
     timer_ := []; ioPoll_ := IOPoll_empty;
     fibers := ∅; errno := errno0; clock := clock0; inRun := false |}.

Definition set_fiberCount (n : Z) (s : Scheduler) : Scheduler :=
  mkScheduler n (context_ s) (status_ s) (runningFiber_ s)
    (readyFiberQueue_ s) (deadFiberQueue_ s) (timer_ s) (ioPoll_ s)
    (fibers s) (errno s) (clock s) (inRun s).
Definition set_runContext (k : option JmpSite) (st : Z) (s : Scheduler) : Scheduler :=
  mkScheduler (fiberCount_ s) k st (runningFiber_ s)
    (readyFiberQueue_ s) (deadFiberQueue_ s) (timer_ s) (ioPoll_ s)
    (fibers s) (errno s) (clock s) (inRun s).
Definition set_running (r : option Z) (s : Scheduler) : Scheduler :=
  mkScheduler (fiberCount_ s) (context_ s) (status_ s) r
    (readyFiberQueue_ s) (deadFiberQueue_ s) (timer_ s) (ioPoll_ s)
    (fibers s) (errno s) (clock s) (inRun s).
Definition set_ready (q : QUEUE) (s : Scheduler) : Scheduler :=
  mkScheduler (fiberCount_ s) (context_ s) (status_ s) (runningFiber_ s)
    q (deadFiberQueue_ s) (timer_ s) (ioPoll_ s)
    (fibers s) (errno s) (clock s) (inRun s).
Definition set_dead (q : QUEUE) (s : Scheduler) : Scheduler :=
  mkScheduler (fiberCount_ s) (context_ s) (status_ s) (runningFiber_ s)
    (readyFiberQueue_ s) q (timer_ s) (ioPoll_ s)
    (fibers s) (errno s) (clock s) (inRun s).
Definition set_timer (t : list TimerItem) (s : Scheduler) : Scheduler :=
  mkScheduler (fiberCount_ s) (context_ s) (status_ s) (runningFiber_ s)
    (readyFiberQueue_ s) (deadFiberQueue_ s) t (ioPoll_ s)
    (fibers s) (errno s) (clock s) (inRun s).
Definition set_ioPoll (p : IOPoll) (s : Scheduler) : Scheduler :=
  mkScheduler (fiberCount_ s) (context_ s) (status_ s) (runningFiber_ s)
    (readyFiberQueue_ s) (deadFiberQueue_ s) (timer_ s) p
    (fibers s) (errno s) (clock s) (inRun s).
Definition set_fibers (m : gmap Z Fiber) (s : Scheduler) : Scheduler :=
  mkScheduler (fiberCount_ s) (context_ s) (status_ s) (runningFiber_ s)
    (readyFiberQueue_ s) (deadFiberQueue_ s) (timer_ s) (ioPoll_ s)
    m (errno s) (clock s) (inRun s).
Definition set_errno (e : Z) (s : Scheduler) : Scheduler :=
  mkScheduler (fiberCount_ s) (context_ s) (status_ s) (runningFiber_ s)
    (readyFiberQueue_ s) (deadFiberQueue_ s) (timer_ s) (ioPoll_ s)
    (fibers s) e (clock s) (inRun s).
Definition set_clock (c : Z) (s : Scheduler) : Scheduler :=
  mkScheduler (fiberCount_ s) (context_ s) (status_ s) (runningFiber_ s)
    (readyFiberQueue_ s) (deadFiberQueue_ s) (timer_ s) (ioPoll_ s)
    (fibers s) (errno s) c (inRun s).
Definition set_inRun (b : bool) (s : Scheduler) : Scheduler :=
  mkScheduler (fiberCount_ s) (context_ s) (status_ s) (runningFiber_ s)
    (readyFiberQueue_ s) (deadFiberQueue_ s) (timer_ s) (ioPoll_ s)
    (fibers s) (errno s) (clock s) b.

(** A store through a fiber pointer: [fiber->field = ...]. *)
Definition update_fiber (f : Z) (g : Fiber → Fiber) (s : Scheduler) : Scheduler :=
  set_fibers (alter g f (fibers s)) s.

(** How a call into the scheduler hands the processor on. *)
Inductive Transfer :=
| Returned                                     (* back to the caller, no switch *)
| Bootstrap (fiber : Z)                        (* RunFiber(FiberStart, this, stack) *)
| Longjmp (fiber : Z) (site : JmpSite) (st : Z) (* longjmp( *fiber->context, st) *)
| LongjmpRun (st : Z)                          (* longjmp( *context_, st): no_ready_fiber *)
| NoReadyFiber                                 (* run() falls through to no_ready_fiber *)
| RunReturned                                  (* run() returned *)
| AssertFailed                                 (* an assert of the source fails *)
| Undefined.                                   (* a load through a dangling pointer *)

#[global] Instance Transfer_eq_dec : EqDecision Transfer.
Proof. solve_decision. Defined.

(** The fiber a transfer enters, if any. *)
Definition dispatched (t : Transfer) : option Z :=
  match t with
  | Bootstrap f | Longjmp f _ _ => Some f
  | _ => None
  end.

(** [TARA_FATALITY_LOG] logs and ends the process. *)
Inductive Outcome (A : Type) :=
| Ok (a : A)
| Fatal.
Arguments Ok {A} a.
Arguments Fatal {A}.

Section Runtime.

(** [sizeof(Fiber)]; [Fiber.hxx] is not part of the sources. *)
Variable sizeof_Fiber : Z.

(** [CreateFiber], both overloads; [region] is what [mmap] returned. The
    record is constructed at the high end of the region. *)
Definition CreateFiber (c : Coroutine) (region : Z) : Outcome (Z * Fiber) :=
  if bool_decide (region = nullptr) then Fatal
  else Ok ((region + TARA_FIBER_SIZE - sizeof_Fiber) `mod` ptr_modulus, Fiber_new c).

(** [DestroyFiber]: the record and its region are gone. *)
Definition DestroyFiber (f : Z) (s : Scheduler) : Scheduler :=
  set_fibers (delete f (fibers s)) s.

(** [Scheduler::callCoroutine], both overloads; [region] is what [mmap]
    returns if it is called. *)
Definition callCoroutine (c : Coroutine) (region : Z) (s : Scheduler)
    : Outcome Scheduler :=
  match deadFiberQueue_ s with
  | fiber :: dead =>
      let s1 := set_dead dead s in
      let s2 := update_fiber fiber (set_coroutine c) s1 in
      Ok (set_ready (readyFiberQueue_ s2 ++ [fiber]) s2)
  | [] =>
      match CreateFiber c region with
      | Fatal => Fatal
      | Ok (fiber, fb) =>
          let s1 := set_fibers (<[fiber := fb]> (fibers s)) s in
          let s2 := set_fiberCount (fiberCount_ s1 + 1) s1 in
          Ok (set_ready (readyFiberQueue_ s2 ++ [fiber]) s2)
      end
  end.

(** [Scheduler::execute]. *)
Definition execute (s : Scheduler) : Scheduler * Transfer :=
  let s1 := set_running None s in
  match context_ s1 with
  | None => (s1, AssertFailed)
  | Some _ =>
      if status_ s1 =? 0 then (s1, AssertFailed) else (s1, LongjmpRun (status_ s1))
  end.

(** [Scheduler::executeFiber]. *)
Definition executeFiber (fiber : Z) (s : Scheduler) : Scheduler * Transfer :=
  let s1 := set_running (Some fiber) s in
  match fibers s1 !! fiber with
  | None => (s1, Undefined)
  | Some fb =>
      match context fb with
      | None => (s1, Bootstrap fiber)
      | Some site =>
          if status fb =? 0 then (s1, AssertFailed)
          else (s1, Longjmp fiber site (status fb))
      end
  end.

(** The tail shared by [sleepCurrentFiber], [killCurrentFiber] and
    [awaitIOEvent]: [execute()] if the ready queue is empty, else the head of
    the ready queue is removed and executed. *)
Definition switchFiber (s : Scheduler) : Scheduler * Transfer :=
  match readyFiberQueue_ s with
  | [] => execute s
  | fiber :: ready => executeFiber fiber (set_ready ready s)
  end.

(** [Scheduler::yieldCurrentFiber], up to the switch. *)
Definition yieldCurrentFiber (s : Scheduler) : Scheduler * Transfer :=
  match runningFiber_ s with
  | None => (s, AssertFailed)
  | Some r =>
      match readyFiberQueue_ s with
      | [] => (s, Returned)
      | _ :: _ =>
          let s1 := update_fiber r (set_context (Some InYield)) s in
          let s2 := update_fiber r (set_status 1) s1 in
          let s3 := set_ready (readyFiberQueue_ s2 ++ [r]) s2 in
          match readyFiberQueue_ s3 with
          | fiber :: ready => executeFiber fiber (set_ready ready s3)
          | [] => (s3, Undefined)
          end
      end
  end.

(** [Scheduler::sleepCurrentFiber], up to the switch. *)
Definition sleepCurrentFiber (duration : Z) (s : Scheduler) : Scheduler * Transfer :=
  match runningFiber_ s with
  | None => (s, AssertFailed)
  | Some r =>
      let s1 := update_fiber r (set_context (Some InSleep)) s in
      let s2 := update_fiber r (set_status 1) s1 in
      let s3 := set_timer (Timer_addItem (clock s2) r duration (timer_ s2)) s2 in
      switchFiber s3
  end.

(** [Scheduler::killCurrentFiber]. *)
Definition killCurrentFiber (s : Scheduler) : Scheduler * Transfer :=
  match runningFiber_ s with
  | None => (s, AssertFailed)
  | Some r =>
      let s1 := update_fiber r (set_context None) s in
      let s2 := update_fiber r (set_status 0) s1 in
      let s3 := set_dead (deadFiberQueue_ s2 ++ [r]) s2 in
      switchFiber s3
  end.

(** The body of the loop of [Scheduler::unwatchIO]. *)
Definition unwatchIO_item (s : Scheduler) (fiber : Z) : Scheduler :=
  let s1 := set_timer (Timer_removeItem fiber (timer_ s)) s in
  update_fiber fiber (set_status (- EBADF)) s1.

(** [Scheduler::unwatchIO]. *)
Definition unwatchIO (d : Z) (s : Scheduler) : Scheduler :=
  let '(fiberQueue, p) := IOPoll_removeEventAwaiters d (ioPoll_ s) in
  let s1 := set_ioPoll p s in
  let s2 := foldl unwatchIO_item s1 fiberQueue in
  set_ready (readyFiberQueue_ s2 ++ fiberQueue) s2.

(** Modelled from the spec: [Scheduler::watchIO] and [Scheduler::ioIsWatched]
    of [Scheduler.hxx], which "forward to IOPoll". *)
Definition watchIO (d : Z) (s : Scheduler) : Scheduler :=
  set_ioPoll (IOPoll_watch d (ioPoll_ s)) s.

Definition ioIsWatched (d : Z) (s : Scheduler) : bool :=
  IOPoll_isWatched d (ioPoll_ s).

(** [Scheduler::awaitIOEvent] when [setjmp] returns 0: up to the switch. *)
Definition awaitIOEvent (d : Z) (ev : IOEvent) (timeout : Z) (s : Scheduler)
    : Scheduler * Transfer :=
  match runningFiber_ s with
  | None => (s, AssertFailed)
  | Some r =>
      let s1 := update_fiber r (set_context (Some InAwait)) s in
      let s2 := update_fiber r (set_status 1) s1 in
      let s3 := update_fiber r (set_fd d) s2 in
      let s4 := set_ioPoll (IOPoll_addEventAwaiter r d ev (ioPoll_ s3)) s3 in
      let s5 := set_timer (Timer_addItem (clock s4) r timeout (timer_ s4)) s4 in
      switchFiber s5
  end.

(** [Scheduler::awaitIOEvent] when [setjmp] returns [st <> 0]: the value
    returned to the caller and the state. [status] is an [int], and
    [errno = -status] negates it as one. *)
Definition awaitIOEvent_resume (st : Z) (s : Scheduler) : Z * Scheduler :=
  if st <? 0 then (-1, set_errno (int_neg st) s) else (0, s).

(** Where a transfer lands: a [longjmp] into [awaitIOEvent] runs its resumed
    half; [yieldCurrentFiber] and [sleepCurrentFiber] just return. *)
Definition land (r : Scheduler * Transfer) : Scheduler * Transfer :=
  match r with
  | (s, Longjmp f InAwait st) => (snd (awaitIOEvent_resume st s), Longjmp f InAwait st)
  | _ => r
  end.

(** *** [Scheduler::run] *)

(** The reap block: every dead fiber is destroyed and counted out. *)
Definition run_reap (s : Scheduler) : Scheduler :=
  let s1 :=
    foldl (λ s fiber, set_fiberCount (fiberCount_ s - 1) (DestroyFiber fiber s))
      s (deadFiberQueue_ s) in
  set_dead [] s1.

(** The poll block; [ready] is what the kernel reports to the call of
    [waitForEvents] that returns true. *)
Definition run_poll (ready : list (Z * IOEvent)) (s : Scheduler) : Scheduler :=
  let '(fiberQueue, p, mem) := IOPoll_waitForEvents ready (ioPoll_ s) (fibers s) in
  let s1 := set_fibers mem (set_ioPoll p s) in
  let s2 :=
    foldl (λ s fiber, set_timer (Timer_removeItem fiber (timer_ s)) s) s1 fiberQueue in
  set_ready (readyFiberQueue_ s2 ++ fiberQueue) s2.

(** The body of the loop of the timer block. *)
Definition run_timer_item (s : Scheduler) (fiber : Z) : Scheduler :=
  let s1 :=
    match fibers s !! fiber with
    | Some fb =>
        if 0 <=? fd fb then
          let s1 := set_ioPoll (IOPoll_removeEventAwaiter fiber (fd fb) (ioPoll_ s)) s in
          let s2 := update_fiber fiber (set_fd (-1)) s1 in
          update_fiber fiber (set_status (- ETIME)) s2
        else s
    | None => s
    end in
  set_ready (readyFiberQueue_ s1 ++ [fiber]) s1.

(** The timer block. *)
Definition run_timer (s : Scheduler) : Scheduler :=
  let '(buffer, rest) := Timer_removeDueItems (clock s) 1024 (timer_ s) in
  foldl run_timer_item (set_timer rest s) buffer.

(** The top of the loop: the head of the ready queue is executed, or control
    falls through to no_ready_fiber. *)
Definition run_dispatch (s : Scheduler) : Scheduler * Transfer :=
  match readyFiberQueue_ s with
  | fiber :: ready =>
      let s1 := set_runContext (Some InRun) 1 s in
      executeFiber fiber (set_ready ready s1)
  | [] => (s, NoReadyFiber)
  end.

(** [Scheduler::run] from its entry to the first transfer. *)
Definition run_enter (s : Scheduler) : Scheduler * Transfer :=
  match runningFiber_ s with
  | Some _ => (s, AssertFailed)
  | None =>
      if fiberCount_ s =? 0 then (s, RunReturned)
      else run_dispatch (set_inRun true s)
  end.

(** [Scheduler::run] from no_ready_fiber to the next transfer. *)
Definition run_iteration (ready : list (Z * IOEvent)) (s : Scheduler)
    : Scheduler * Transfer :=
  match deadFiberQueue_ s with
  | [] => run_dispatch (run_timer (run_poll ready s))
  | _ :: _ =>
      let s1 := run_reap s in
      if fiberCount_ s1 =? 0 then (set_inRun false s1, RunReturned)
      else run_dispatch (run_timer (run_poll ready s1))
  end.

End Runtime.

(** ** The runtime as a transition system *)

(** What the thread does next: user code (a fiber, or the code around [run])
    calls into the scheduler, time passes, or [run] goes through one round of
    its loop. [region] is what [mmap] would return, [ready] what the kernel
    reports to the poll. *)
Inductive Event :=
| ETick (dt : Z)
| ECall (c : Coroutine) (region : Z)
| EYield
| ESleep (duration : Z)
| EAwait (d : Z) (ev : IOEvent) (timeout : Z)
| EKill
| EWatch (d : Z)
| EUnwatch (d : Z)
| ERun
| EIdle (ready : list (Z * IOEvent)).

(** User code has control: a fiber is running, or the thread is outside
    [run]. *)
Definition user_code (s : Scheduler) : bool :=
  bool_decide (is_Some (runningFiber_ s)) || negb (inRun s).

Section Steps.

Variable sizeof_Fiber : Z.

(** The address [CreateFiber] puts the record at. *)
Definition fiber_at (region : Z) : Z :=
  (region + TARA_FIBER_SIZE - sizeof_Fiber) `mod` ptr_modulus.

(** [mmap] succeeded: the region is a fresh mapping, disjoint from the regions
    of the live fibers, so that no live record sits at the new record's
    address. *)
Definition mmap_ok (region : Z) (s : Scheduler) : bool :=
  bool_decide (region ≠ nullptr) && bool_decide (region ≠ MAP_FAILED)
  && bool_decide (fibers s !! fiber_at region = None).

(** One step. [None]: the event cannot happen in [s]. The callers of
    [awaitIOEvent] and [watchIO] in [Runtime.cxx] pass a watched fd and a
    non-negative fd respectively; a coroutine that returns, or unwinds after
    [Exit], ends in [killCurrentFiber] (see [FiberStart]). *)
Definition step (e : Event) (s : Scheduler) : option (Scheduler * Transfer) :=
  match e with
  | ETick dt =>
      if bool_decide (0 ≤ dt) then Some (set_clock (clock s + dt) s, Returned)
      else None
  | ECall c region =>
      if user_code s
         && (bool_decide (deadFiberQueue_ s ≠ []) || mmap_ok region s) then
        match callCoroutine sizeof_Fiber c region s with
        | Ok s' => Some (s', Returned)
        | Fatal => None
        end
      else None
  | EYield =>
      if bool_decide (is_Some (runningFiber_ s)) then Some (land (yieldCurrentFiber s))
      else None
  | ESleep duration =>
      if bool_decide (is_Some (runningFiber_ s))
      then Some (land (sleepCurrentFiber duration s))
      else None
  | EAwait d ev timeout =>
      if bool_decide (is_Some (runningFiber_ s)) && ioIsWatched d s
      then Some (land (awaitIOEvent d ev timeout s))
      else None
  | EKill =>
      if bool_decide (is_Some (runningFiber_ s)) then Some (land (killCurrentFiber s))
      else None
  | EWatch d =>
      if user_code s && bool_decide (0 ≤ d) then Some (watchIO d s, Returned)
      else None
  | EUnwatch d =>
      if user_code s then Some (unwatchIO d s, Returned) else None
  | ERun =>
      if bool_decide (runningFiber_ s = None) && negb (inRun s)
      then Some (land (run_enter s))
      else None
  | EIdle ready =>
      if bool_decide (runningFiber_ s = None) && inRun s
      then Some (land (run_iteration ready s))
      else None
  end.

(** A run of events from [s]: the final state and the transfers in order. *)
Fixpoint run_events (es : list Event) (s : Scheduler)
    : option (Scheduler * list Transfer) :=
  match es with
  | [] => Some (s, [])
  | e :: es' =>
      match step e s with
      | None => None
      | Some (s1, t) =>
          match run_events es' s1 with
          | None => None
          | Some (s2, ts) => Some (s2, t :: ts)
          end
      end
  end.

(** The states the runtime can be in. *)
Inductive reachable : Scheduler → Prop :=
| reachable_new errno0 clock0 : reachable (Scheduler_new errno0 clock0)
| reachable_step s e s' t :
    reachable s → step e s = Some (s', t) → reachable s'.

End Steps.

(** ** The wrappers of [Runtime.cxx] *)

(** What a wrapper does to the world outside it, in order. *)
Inductive Action :=
| sys_close (d : Z)
| sys_connect (d addr addrlen : Z)
| sys_getsockopt_SO_ERROR (d : Z)
| call_unwatchIO (d : Z)
| call_awaitIOEvent (d : Z) (ev : IOEvent) (timeout : Z).

(** What the world answers: a system call returns [ret], leaving [err] in
    [errno] if [ret < 0] and [out] in its out parameter; or the fiber,
    suspended in [awaitIOEvent], is resumed with status [st] when the scheduler
    has reached state [s]. *)
Inductive Answer :=
| Sys (ret err out : Z)
| Resumed (st : Z) (s : Scheduler).

(** The thread: the thread-local [TheScheduler] (null or the scheduler it
    points to), the actions performed so far and the answers to come. *)
Record World := mkWorld {
  TheScheduler : option Scheduler;
  trace : list Action;
  kernel : list Answer
}.

Inductive Result (A : Type) :=
| Done (a : A) (w : World)    (* returned [a] *)
| Fatality                    (* TARA_FATALITY_LOG ended the process *)
| Crashed                     (* a call through a null [TheScheduler] *)
| Starved.                    (* the answers ran out *)
Arguments Done {A} a w.
Arguments Fatality {A}.
Arguments Crashed {A}.
Arguments Starved {A}.

Definition M (A : Type) : Type := World → Result A.

#[global] Instance M_ret : MRet M := λ A a w, Done a w.
#[global] Instance M_bind : MBind M := λ A B k m w,
  match m w with
  | Done a w' => k a w'
  | Fatality => Fatality
  | Crashed => Crashed
  | Starved => Starved
  end.

(** [if (TheScheduler == nullptr) TARA_FATALITY_LOG("No scheduler")]. *)
Definition require_scheduler : M unit := λ w,
  match TheScheduler w with
  | None => Fatality
  | Some _ => Done () w
  end.

(** [TheScheduler->...], and the accesses to [errno]. *)
Definition on_scheduler {A} (f : Scheduler → A * Scheduler) : M A := λ w,
  match TheScheduler w with
  | None => Crashed
  | Some s =>
      let '(a, s') := f s in
      Done a {| TheScheduler := Some s'; trace := trace w; kernel := kernel w |}
  end.

Definition get_errno : M Z := on_scheduler (λ s, (errno s, s)).
Definition put_errno (e : Z) : M unit := on_scheduler (λ s, ((), set_errno e s)).

Definition act (a : Action) : M unit := λ w,
  Done () {| TheScheduler := TheScheduler w; trace := trace w ++ [a];
             kernel := kernel w |}.

(** A system call: its return value and its out parameter. *)
Definition syscall (a : Action) : M (Z * Z) := λ w,
  match kernel w with
  | Sys ret err out :: k =>
      Done (ret, out)
        {| TheScheduler :=
             if ret <? 0 then set_errno err <$> TheScheduler w else TheScheduler w;
           trace := trace w ++ [a]; kernel := k |}
  | _ => Starved
  end.

Definition call_ioIsWatched (d : Z) : M bool :=
  on_scheduler (λ s, (ioIsWatched d s, s)).

Definition unwatch (d : Z) : M unit :=
  act (call_unwatchIO d) ;; on_scheduler (λ s, ((), unwatchIO d s)).

(** [TheScheduler->awaitIOEvent(...)] as the calling fiber sees it: the fiber
    is switched out, and the call returns when the fiber is resumed. *)
Definition await (d : Z) (ev : IOEvent) (timeout : Z) : M Z := λ w,
  match TheScheduler w, kernel w with
  | None, _ => Crashed
  | Some _, Resumed st s :: k =>
      if st =? 0 then Starved
      else
        let '(r, s') := awaitIOEvent_resume st s in
        Done r {| TheScheduler := Some s';
                  trace := trace w ++ [call_awaitIOEvent d ev timeout];
                  kernel := k |}
  | Some _, _ => Starved
  end.

(** [TheScheduler->callCoroutine(coroutine)]. *)
Definition call_callCoroutine (sizeof_Fiber : Z) (c : Coroutine) (region : Z)
    : M unit := λ w,
  match TheScheduler w with
  | None => Crashed
  | Some s =>
      match callCoroutine sizeof_Fiber c region s with
      | Fatal => Fatality
      | Ok s' =>
          Done () {| TheScheduler := Some s'; trace := trace w; kernel := kernel w |}
      end
  end.

(** [Call], both overloads. *)
Definition Call (sizeof_Fiber : Z) (c : Coroutine) (region : Z) : M unit :=
  require_scheduler ;;
  match c with
  | None => mret ()
  | Some _ => call_callCoroutine sizeof_Fiber c region
  end.

(** The [do ... while (errno == EINTR)] loop of [Close]; each round takes one
    answer, [fuel] bounds the rounds. *)
Fixpoint Close_retry (fuel : nat) (d : Z) : M Z :=
  match fuel with
  | O => λ _, Starved
  | S fuel' =>
      '(result, _) ← syscall (sys_close d);
      if 0 <=? result then mret result
      else
        e ← get_errno;
        if e =? EINTR then Close_retry fuel' d else mret result
  end.

(** The loop run on as many rounds as there are answers. *)
Definition Close_loop (d : Z) : M Z := λ w,
  Close_retry (length (kernel w)) d w.

(** [Close]. *)
Definition Close (d : Z) : M Z :=
  require_scheduler ;;
  b ← call_ioIsWatched d;
  if negb b then put_errno EBADF ;; mret (-1)
  else
    result ← Close_loop d;
    if result <? 0 then unwatch d ;; mret (-1)
    else unwatch d ;; mret 0.

(** [Connect]. *)
Definition Connect (d addr addrlen timeout : Z) : M Z :=
  require_scheduler ;;
  b ← call_ioIsWatched d;
  if negb b then put_errno EBADF ;; mret (-1)
  else
    '(r, _) ← syscall (sys_connect d addr addrlen);
    if r <? 0 then
      e ← get_errno;
      if negb (e =? EINTR) && negb (e =? EINPROGRESS) then mret (-1)
      else
        a ← await d Writability timeout;
        if a <? 0 then mret (-1)
        else
          '(g, optval) ← syscall (sys_getsockopt_SO_ERROR d);
          if g <? 0 then mret (-1)
          else if negb (optval =? 0) then put_errno optval ;; mret (-1)
          else mret 0
    else mret 0.

(** ** Well-formed scheduler states *)

Definition running_list (s : Scheduler) : list Z := option_list (runningFiber_ s).

(** The fibers linked in a wait set of the poll, and in the timer. *)
Definition waiting (s : Scheduler) : list Z := aw_fiber <$> awaiters (ioPoll_ s).
Definition timed (s : Scheduler) : list Z := owner <$> timer_ s.

(** The fibers whose [queueItem] is in the running slot, the ready queue or
    the dead queue. *)
Definition queued (s : Scheduler) : list Z :=
  running_list s ++ readyFiberQueue_ s ++ deadFiberQueue_ s.

(** The invariant of the scheduler, over the fibers [T] that own a timer
    item: inside the timer block of [run] these are the fibers of the buffer
    still to be handled and those left in the timer. *)
Record wf_gen (T : list Z) (s : Scheduler) : Prop := mk_wf {
  (* a fiber is linked at most once: running, ready, dead or in a wait set *)
  wf_linked : NoDup (queued s ++ waiting s);
  (* a fiber is in at most one timer item *)
  wf_timed : NoDup T;
  (* a fiber awaiting I/O has a timer item; a running, ready or dead fiber has none *)
  wf_waiting_timed : ∀ f, f ∈ waiting s → f ∈ T;
  wf_timed_parked : ∀ f, f ∈ T → f ∉ queued s;
  (* the pointers the scheduler holds point to live records *)
  wf_live : ∀ f, f ∈ queued s ++ T → is_Some (fibers s !! f);
  (* a fiber awaiting I/O was suspended in awaitIOEvent on that fd *)
  wf_awaiter : ∀ a fb,
    a ∈ awaiters (ioPoll_ s) → fibers s !! aw_fiber a = Some fb →
    fd fb = aw_fd a ∧ 0 ≤ aw_fd a ∧ context fb = Some InAwait;
  (* a fiber with a timer item only was suspended in sleepCurrentFiber *)
  wf_sleeper : ∀ f fb,
    f ∈ T → f ∉ waiting s → fibers s !! f = Some fb →
    context fb = Some InSleep;
  (* status 0 if and only if no saved context *)
  wf_status : ∀ f fb,
    fibers s !! f = Some fb → (status fb = 0 ↔ context fb = None);
  (* while a fiber runs, run() has saved its context *)
  wf_run : is_Some (runningFiber_ s) →
    inRun s = true ∧ context_ s = Some InRun ∧ status_ s = 1;
  (* only non-negative fds are watched *)
  wf_watched : ∀ d, d ∈ watched (ioPoll_ s) → 0 ≤ d
}.

Definition wf (s : Scheduler) : Prop := wf_gen (timed s) s.

(** The invariant of the claim alone. *)
Definition status_matches_context (s : Scheduler) : Prop :=
  ∀ f fb, fibers s !! f = Some fb → (status fb = 0 ↔ context fb = None).

(** The transfer [executeFiber] makes into a fiber with record [fb]: a
    bootstrap if no context is saved, else a [longjmp] with the saved
    status. *)
Definition transfer_of (f : Z) (fb : Fiber) : Transfer :=
  match context fb with
  | None => Bootstrap f
  | Some site => Longjmp f site (status fb)
  end.

(** The first transfer of a run that enters fiber [f]. *)
Definition first_entry (f : Z) (ts : list Transfer) : option Transfer :=
  head (filter (λ t, dispatched t = Some f) ts).

(** What a step may do to the ready queue [ready] and to the records [mem]
    of the fibers in it: the records are untouched; the queue grows by
    [extra] at its tail, and if the step enters a fiber, that fiber is the
    head of the grown queue and is entered the way its record says. *)
Definition summary (ready : list Z) (mem : gmap Z Fiber) (r : Scheduler * Transfer)
    (extra : list Z) : Prop :=
  (∀ f, f ∈ ready → fibers r.1 !! f = mem !! f)
  ∧ match dispatched r.2 with
    | Some h =>
        ready ++ extra = h :: readyFiberQueue_ r.1
        ∧ ∃ fb, fibers r.1 !! h = Some fb ∧ r.2 = transfer_of h fb
                ∧ (context fb ≠ None → status fb ≠ 0)
    | None =>
        readyFiberQueue_ r.1 = ready ++ extra
        ∧ r.2 ≠ AssertFailed ∧ r.2 ≠ Undefined
    end.

(** ** Runs of the end-to-end scenarios *)

(** The state a run from a new scheduler ends in. *)
Definition state_after (sz : Z) (es : list Event) : Scheduler :=
  match run_events sz es (Scheduler_new 0 0) with
  | Some (s, _) => s
  | None => Scheduler_new 0 0
  end.

(** Read timeout: one fiber awaits readability of fd 5 with a timeout of 20,
    nothing is written, and 30 ms pass. [run] is at no_ready_fiber. *)
Definition read_timeout_run : list Event :=
  [ECall (Some 1%nat) 65536; ERun; EWatch 5; EAwait 5 Readability 20; ETick 30].

(** Close while waiting: fiber 1 awaits readability of fd 5 without timeout;
    fiber 2 runs and is about to close fd 5. *)
Definition close_while_waiting_run : list Event :=
  [ECall (Some 1%nat) 65536; ECall (Some 2%nat) 131072; ERun; EWatch 5;
   EAwait 5 Readability (-1)].

(** Ping-pong: two fibers are spawned and [run] has entered the first. *)
Definition ping_pong_run : list Event :=
  [ECall (Some 1%nat) 65536; ECall (Some 2%nat) 131072; ERun].

(** ** Accounting for the fibers *)

(** [fiberCount_] counts the [Fiber] records, and every record is linked. *)
Definition accounted (s : Scheduler) : Prop :=
  fiberCount_ s = Z.of_nat (size (fibers s))
  ∧ ∀ f, is_Some (fibers s !! f) → f ∈ queued s ++ timed s.

(** The statuses the scheduler stores in a [Fiber]. *)
Definition known_status (fb : Fiber) : Prop :=
  status fb = 0 ∨ status fb = 1 ∨ status fb = - ETIME ∨ status fb = - EBADF.

Definition status_known (s : Scheduler) : Prop :=
  map_Forall (λ _, known_status) (fibers s).

(** A dead fiber has no saved context. *)
Definition dead_clean (s : Scheduler) : Prop :=
  ∀ f fb, f ∈ deadFiberQueue_ s → fibers s !! f = Some fb → context fb = None.

(** ** The wrappers that create descriptors, read and write *)

(** [fcntl.h], [sys/socket.h] and [sys/eventfd.h] on Linux. *)
Definition O_NONBLOCK : Z := 2048.
Definition SOCK_NONBLOCK : Z := 2048.
Definition EFD_NONBLOCK : Z := 2048.

(** What these wrappers call, in order: the system calls with the arguments
    they are passed, and the calls into the scheduler. Pointers are passed on
    as they are. *)
Inductive IOCall :=
| sys_open (path flags mode : Z)
| sys_pipe2 (flags : Z)
| sys_socket (domain ty protocol : Z)
| sys_eventfd (initval flags : Z)
| sys_read (d buf buflen : Z)
| sys_write (d buf buflen : Z)
| sys_accept4 (d addr addrlen flags : Z)
| io_watchIO (d : Z)
| io_awaitIOEvent (d : Z) (ev : IOEvent) (timeout : Z).

(** What the world answers: a system call returns [ret], leaving [err] in
    [errno] if [ret < 0]; [pipe2] returns [ret] with [fd0] and [fd1] in
    [fds]; or the fiber, suspended in [awaitIOEvent], is resumed with status
    [st] when the scheduler has reached state [s]. *)
Inductive Reply :=
| Returns (ret err : Z)
| ReturnsPipe (ret err fd0 fd1 : Z)
| Wakes (st : Z) (s : Scheduler).

(** The thread as these wrappers see it: the thread-local [TheScheduler],
    the calls made so far and the answers to come. *)
Record IOWorld := mkIOWorld {
  io_scheduler : option Scheduler;
  io_calls : list IOCall;
  io_replies : list Reply
}.

Inductive IOResult (A : Type) :=
| IODone (a : A) (w : IOWorld)  (* returned [a] *)
| IOFatality                    (* TARA_FATALITY_LOG ended the process *)
| IOCrashed                     (* a call through a null [TheScheduler] *)
| IOStarved.                    (* the answers ran out *)
Arguments IODone {A} a w.
Arguments IOFatality {A}.
Arguments IOCrashed {A}.
Arguments IOStarved {A}.

Definition IO (A : Type) : Type := IOWorld → IOResult A.

#[global] Instance IO_ret : MRet IO := λ A a w, IODone a w.
#[global] Instance IO_bind : MBind IO := λ A B k m w,
  match m w with
  | IODone a w' => k a w'
  | IOFatality => IOFatality
  | IOCrashed => IOCrashed
  | IOStarved => IOStarved
  end.

(** [if (TheScheduler == nullptr) TARA_FATALITY_LOG("No scheduler")]. *)
Definition io_require_scheduler : IO unit := λ w,
  match io_scheduler w with
  | None => IOFatality
  | Some _ => IODone () w
  end.

Definition io_on_scheduler {A} (f : Scheduler → A * Scheduler) : IO A := λ w,
  match io_scheduler w with
  | None => IOCrashed
  | Some s =>
      let '(a, s') := f s in
      IODone a {| io_scheduler := Some s'; io_calls := io_calls w;
                  io_replies := io_replies w |}
  end.

Definition io_get_errno : IO Z := io_on_scheduler (λ s, (errno s, s)).
Definition io_put_errno (e : Z) : IO unit := io_on_scheduler (λ s, ((), set_errno e s)).

Definition io_ioIsWatched (d : Z) : IO bool :=
  io_on_scheduler (λ s, (ioIsWatched d s, s)).

(** A system call and its return value. *)
Definition io_sys (c : IOCall) : IO Z := λ w,
  match io_replies w with
  | Returns ret err :: k =>
      IODone ret
        {| io_scheduler :=
             if ret <? 0 then set_errno err <$> io_scheduler w else io_scheduler w;
           io_calls := io_calls w ++ [c]; io_replies := k |}
  | _ => IOStarved
  end.

(** [pipe2(fds, flags)]: its return value and what [fds] holds after it. *)
Definition io_sys_pipe2 (flags : Z) : IO (Z * (Z * Z)) := λ w,
  match io_replies w with
  | ReturnsPipe ret err fd0 fd1 :: k =>
      IODone (ret, (fd0, fd1))
        {| io_scheduler :=
             if ret <? 0 then set_errno err <$> io_scheduler w else io_scheduler w;
           io_calls := io_calls w ++ [sys_pipe2 flags]; io_replies := k |}
  | _ => IOStarved
  end.

(** [TheScheduler->watchIO(fd)]. *)
Definition io_watch (d : Z) : IO unit := λ w,
  match io_scheduler w with
  | None => IOCrashed
  | Some s =>
      IODone () {| io_scheduler := Some (watchIO d s);
                   io_calls := io_calls w ++ [io_watchIO d];
                   io_replies := io_replies w |}
  end.

(** [TheScheduler->awaitIOEvent(...)] as the calling fiber sees it: the fiber
    is switched out, and the call returns when the fiber is resumed. *)
Definition io_await (d : Z) (ev : IOEvent) (timeout : Z) : IO Z := λ w,
  match io_scheduler w, io_replies w with
  | None, _ => IOCrashed
  | Some _, Wakes st s :: k =>
      if st =? 0 then IOStarved
      else
        let '(r, s') := awaitIOEvent_resume st s in
        IODone r {| io_scheduler := Some s';
                    io_calls := io_calls w ++ [io_awaitIOEvent d ev timeout];
                    io_replies := k |}
  | Some _, _ => IOStarved
  end.

(** The [do ... while (errno == EINTR)] loop of [Open]; each round takes one
    answer, [fuel] bounds the rounds. *)
Fixpoint Open_retry (fuel : nat) (path flags mode : Z) : IO Z :=
  match fuel with
  | O => λ _, IOStarved
  | S fuel' =>
      fd ← io_sys (sys_open path (Z.lor flags O_NONBLOCK) mode);
      if 0 <=? fd then mret fd
      else
        e ← io_get_errno;
        if e =? EINTR then Open_retry fuel' path flags mode else mret fd
  end.

(** The loop run on as many rounds as there are answers. *)
Definition Open_loop (path flags mode : Z) : IO Z := λ w,
  Open_retry (length (io_replies w)) path flags mode w.

(** [Open]. *)
Definition Open (path flags mode : Z) : IO Z :=
  io_require_scheduler ;;
  fd ← Open_loop path flags mode;
  if fd <? 0 then mret (-1)
  else io_watch fd ;; mret fd.

(** [Pipe2]: the value returned and what [fds] holds. *)
Definition Pipe2 (flags : Z) : IO (Z * (Z * Z)) :=
  io_require_scheduler ;;
  '(r, fds) ← io_sys_pipe2 (Z.lor flags O_NONBLOCK);
  if r <? 0 then mret (-1, fds)
  else io_watch fds.1 ;; io_watch fds.2 ;; mret (0, fds).

(** [Socket]. *)
Definition Socket (domain ty protocol : Z) : IO Z :=
  io_require_scheduler ;;
  fd ← io_sys (sys_socket domain (Z.lor ty SOCK_NONBLOCK) protocol);
  if fd <? 0 then mret (-1)
  else io_watch fd ;; mret fd.

(** [EventFD]. *)
Definition EventFD (initval flags : Z) : IO Z :=
  io_require_scheduler ;;
  fd ← io_sys (sys_eventfd initval (Z.lor flags EFD_NONBLOCK));
  if fd <? 0 then mret (-1)
  else io_watch fd ;; mret fd.

(** The [for (;;)] loop of [Read], [Write] and [Accept4] around the system
    call [c]: the value the call returned last. Each round takes at least one
    answer, [fuel] bounds the rounds. *)
Fixpoint io_retry (fuel : nat) (c : IOCall) (d : Z) (ev : IOEvent) (timeout : Z)
    : IO Z :=
  match fuel with
  | O => λ _, IOStarved
  | S fuel' =>
      n ← io_sys c;
      if 0 <=? n then mret n
      else
        e ← io_get_errno;
        if e =? EWOULDBLOCK then
          a ← io_await d ev timeout;
          if a <? 0 then mret n else io_retry fuel' c d ev timeout
        else if e =? EINTR then io_retry fuel' c d ev timeout
        else mret n
  end.

Definition io_loop (c : IOCall) (d : Z) (ev : IOEvent) (timeout : Z) : IO Z := λ w,
  io_retry (length (io_replies w)) c d ev timeout w.

(** What [Read], [Write] and [Accept4] do around their system call. *)
Definition io_guarded (c : IOCall) (d : Z) (ev : IOEvent) (timeout : Z) : IO Z :=
  io_require_scheduler ;;
  b ← io_ioIsWatched d;
  if negb b then io_put_errno EBADF ;; mret (-1)
  else
    n ← io_loop c d ev timeout;
    if n <? 0 then mret (-1) else mret n.

(** [Read]. *)
Definition Read (d buf buflen timeout : Z) : IO Z :=
  io_guarded (sys_read d buf buflen) d Readability timeout.

(** [Write]. *)
Definition Write (d buf buflen timeout : Z) : IO Z :=
  io_guarded (sys_write d buf buflen) d Writability timeout.

(** [Accept4]. *)
Definition Accept4 (d addr addrlen flags timeout : Z) : IO Z :=
  io_guarded (sys_accept4 d addr addrlen flags) d Readability timeout.

(** A round of the loop that is followed by another: the call was
    interrupted, or it would have blocked and the fiber, resumed with [st] in
    scheduler state [s], calls again. *)
Inductive Round :=
| Interrupted
| Blocked (st : Z) (s : Scheduler).

Definition round_replies (r : Round) : list Reply :=
  match r with
  | Interrupted => [Returns (-1) EINTR]
  | Blocked st s => [Returns (-1) EWOULDBLOCK; Wakes st s]
  end.

Definition round_calls (c : IOCall) (d : Z) (ev : IOEvent) (timeout : Z) (r : Round)
    : list IOCall :=
  match r with
  | Interrupted => [c]
  | Blocked _ _ => [c; io_awaitIOEvent d ev timeout]
  end.

(** The scheduler state a round leaves. *)
Definition after_round (s : Scheduler) (r : Round) : Scheduler :=
  match r with
  | Interrupted => set_errno EINTR s
  | Blocked _ s' => s'
  end.

Definition woken_normally (r : Round) : Prop :=
  match r with
  | Interrupted => True
  | Blocked st _ => 0 < st
  end.

(** ** More scenarios *)

(** A fiber returns: the only fiber has been killed and [run] is at
    no_ready_fiber. *)
Definition exit_run : list Event :=
  [ECall (Some 1%nat) 65536; ERun; EKill].

(** Sleep: the only fiber sleeps for 10 ms and 20 ms pass. [run] is at
    no_ready_fiber. *)
Definition sleep_run : list Event :=
  [ECall (Some 1%nat) 65536; ERun; ESleep 10; ETick 20].

(** Recycling: of two fibers the first has returned and the second runs. *)
Definition recycle_run : list Event :=
  [ECall (Some 1%nat) 65536; ECall (Some 2%nat) 131072; ERun; EKill].

(** Three fibers are spawned and [run] has entered the first. *)
Definition three_fibers_run : list Event :=
  [ECall (Some 1%nat) 65536; ECall (Some 2%nat) 131072; ECall (Some 3%nat) 196608;
   ERun].

(** ** The region of a fiber *)

(** [DestroyFiber]: the region passed to [munmap],
    [reinterpret_cast<char *>(fiber + 1) - TARA_FIBER_SIZE]. *)
Definition munmap_region (sizeof_Fiber fiber : Z) : Z :=
  (fiber + sizeof_Fiber - TARA_FIBER_SIZE) `mod` ptr_modulus.

(** * Properties *)

(** ** [callCoroutine] and [CreateFiber] *)

Lemma CreateFiber_nullptr sz c : CreateFiber sz c nullptr = Fatal.
Proof. reflexivity. Qed.

Lemma CreateFiber_not_null sz c region :
  region ≠ nullptr →
  CreateFiber sz c region = Ok (fiber_at sz region, Fiber_new c).
Proof.
  intros Hr. unfold CreateFiber. rewrite bool_decide_eq_false_2 by done. done.
Qed.

(** C8, evaluated at the failing input: when [mmap] fails it returns
    [MAP_FAILED], which is not [nullptr]; [CreateFiber] does not take the
    fatal branch and constructs a [Fiber] record from the failed mapping, at
    [MAP_FAILED + TARA_FIBER_SIZE - sizeof(Fiber)]. *)
Theorem CreateFiber_MAP_FAILED_constructs sz c :
  CreateFiber sz c MAP_FAILED
  = Ok ((MAP_FAILED + TARA_FIBER_SIZE - sz) `mod` ptr_modulus, Fiber_new c)
  ∧ CreateFiber sz c MAP_FAILED ≠ Fatal.
Proof. split; [reflexivity | discriminate]. Qed.




(** C10: [Call] with a null coroutine first performs the fatal check of the
    thread-local scheduler, and with a scheduler installed returns with the
    world, the scheduler state in it, unchanged. *)
Theorem Call_null_coroutine sz region w :
  Call sz None region w
  = match TheScheduler w with
    | None => Fatality
    | Some _ => Done () w
    end.
Proof.
  unfold Call, require_scheduler, mbind, M_bind, mret, M_ret.
  destruct (TheScheduler w); reflexivity.
Qed.

(** ** The wrappers, one action at a time *)

Lemma M_bind_run {A B} (m : M A) (k : A → M B) w :
  (m ≫= k) w
  = match m w with
    | Done a w' => k a w'
    | Fatality => Fatality
    | Crashed => Crashed
    | Starved => Starved
    end.
Proof. reflexivity. Qed.

Lemma M_ret_run {A} (a : A) w : (mret a : M A) w = Done a w.
Proof. reflexivity. Qed.

Lemma require_scheduler_run w s :
  TheScheduler w = Some s → require_scheduler w = Done () w.
Proof. intros Hs. unfold require_scheduler. by rewrite Hs. Qed.

Lemma on_scheduler_run {A} (f : Scheduler → A * Scheduler) w s :
  TheScheduler w = Some s →
  on_scheduler f w
  = Done (fst (f s))
      {| TheScheduler := Some (snd (f s)); trace := trace w; kernel := kernel w |}.
Proof. intros Hs. unfold on_scheduler. rewrite Hs. by destruct (f s). Qed.

Lemma call_ioIsWatched_run d w s :
  TheScheduler w = Some s → call_ioIsWatched d w = Done (ioIsWatched d s) w.
Proof.
  intros Hs. unfold call_ioIsWatched. rewrite (on_scheduler_run _ _ _ Hs).
  destruct w; cbn in *. by subst.
Qed.

Lemma get_errno_run w s :
  TheScheduler w = Some s → get_errno w = Done (errno s) w.
Proof.
  intros Hs. unfold get_errno. rewrite (on_scheduler_run _ _ _ Hs).
  destruct w; cbn in *. by subst.
Qed.

Lemma put_errno_run e w s :
  TheScheduler w = Some s →
  put_errno e w
  = Done () {| TheScheduler := Some (set_errno e s); trace := trace w;
               kernel := kernel w |}.
Proof. intros Hs. unfold put_errno. by rewrite (on_scheduler_run _ _ _ Hs). Qed.

Lemma unwatch_run d w s :
  TheScheduler w = Some s →
  unwatch d w
  = Done () {| TheScheduler := Some (unwatchIO d s);
               trace := trace w ++ [call_unwatchIO d]; kernel := kernel w |}.
Proof.
  intros Hs. unfold unwatch. rewrite M_bind_run. unfold act.
  by rewrite (on_scheduler_run _ _ s).
Qed.

Lemma syscall_run a w s r e o rest :
  TheScheduler w = Some s → kernel w = Sys r e o :: rest →
  syscall a w
  = Done (r, o)
      {| TheScheduler := Some (if r <? 0 then set_errno e s else s);
         trace := trace w ++ [a]; kernel := rest |}.
Proof.
  intros Hs Hk. unfold syscall. rewrite Hk, Hs. by destruct (r <? 0).
Qed.

Lemma await_run d ev timeout w s0 st s rest :
  TheScheduler w = Some s0 → kernel w = Resumed st s :: rest → st ≠ 0 →
  await d ev timeout w
  = Done (fst (awaitIOEvent_resume st s))
      {| TheScheduler := Some (snd (awaitIOEvent_resume st s));
         trace := trace w ++ [call_awaitIOEvent d ev timeout]; kernel := rest |}.
Proof.
  intros Hs Hk Hst. unfold await. rewrite Hs, Hk.
  destruct (Z.eqb_spec st 0); [done|]. by destruct (awaitIOEvent_resume st s).
Qed.

(** ** [Close] *)

Lemma set_errno_twice e1 e2 s : set_errno e2 (set_errno e1 s) = set_errno e2 s.
Proof. reflexivity. Qed.

(** The retry loop: [k] interrupted calls, then a call whose answer ends the
    loop. [e0] is the [errno] the loop leaves: that of the last failing call,
    if any. *)
Lemma Close_retry_rounds d k : ∀ fuel w s r e o rest,
  (k < fuel)%nat →
  TheScheduler w = Some s →
  kernel w = replicate k (Sys (-1) EINTR 0) ++ Sys r e o :: rest →
  (r < 0 → e ≠ EINTR) →
  ∃ e0, (r < 0 → e0 = e) ∧
    Close_retry fuel d w
    = Done r {| TheScheduler := Some (set_errno e0 s);
                trace := trace w ++ replicate (S k) (sys_close d);
                kernel := rest |}.
Proof.
  induction k as [|k IH]; intros fuel w s r e o rest Hfuel Hs Hk He.
  - destruct fuel as [|fuel]; [lia|]. simpl in Hk.
    cbn [Close_retry]. rewrite M_bind_run, (syscall_run _ _ _ _ _ _ _ Hs Hk).
    destruct (Z.ltb_spec r 0) as [Hr|Hr].
    + exists e. split; [done|].
      destruct (Z.leb_spec 0 r) as [|_]; [lia|].
      rewrite M_bind_run, (get_errno_run _ (set_errno e s)) by done.
      cbn [errno set_errno].
      destruct (Z.eqb_spec e EINTR) as [->|_]; [by specialize (He Hr)|].
      reflexivity.
    + exists (errno s). split; [lia|].
      destruct (Z.leb_spec 0 r) as [_|]; [|lia].
      rewrite M_ret_run. by destruct s.
  - destruct fuel as [|fuel]; [lia|]. simpl in Hk.
    cbn [Close_retry]. rewrite M_bind_run, (syscall_run _ _ _ _ _ _ _ Hs Hk).
    change (-1 <? 0) with true. change (0 <=? -1) with false. cbn iota beta.
    rewrite M_bind_run, (get_errno_run _ (set_errno EINTR s)) by done.
    cbn [errno set_errno]. change (EINTR =? EINTR) with true. cbn iota.
    edestruct (IH fuel
                 {| TheScheduler := Some (set_errno EINTR s);
                    trace := trace w ++ [sys_close d];
                    kernel := replicate k (Sys (-1) EINTR 0) ++ Sys r e o :: rest |}
                 (set_errno EINTR s) r e o rest) as (e0 & He0 & Hrun);
      [lia | reflexivity | reflexivity | exact He |].
    exists e0. split; [exact He0|].
    cbn [trace kernel] in Hrun |- *. rewrite Hrun, set_errno_twice.
    rewrite <- app_assoc. reflexivity.
Qed.

(** C6: [Close] ends the process when no scheduler is installed; on an fd
    that is not watched it returns -1 with [errno] [EBADF], having called
    neither [close] nor [unwatchIO]; on a watched fd it calls [close] again
    after each [EINTR], and after the call that succeeds or fails otherwise it
    calls [unwatchIO] and returns 0 or -1. *)
Theorem Close_behaviour d w :
  (TheScheduler w = None → Close d w = Fatality)
  ∧ (∀ s, TheScheduler w = Some s → ioIsWatched d s = false →
       Close d w
       = Done (-1) {| TheScheduler := Some (set_errno EBADF s);
                      trace := trace w; kernel := kernel w |})
  ∧ (∀ s k r e o rest,
       TheScheduler w = Some s → ioIsWatched d s = true →
       kernel w = replicate k (Sys (-1) EINTR 0) ++ Sys r e o :: rest →
       (r < 0 → e ≠ EINTR) →
       ∃ e0, (r < 0 → e0 = e) ∧
         Close d w
         = Done (if r <? 0 then -1 else 0)
             {| TheScheduler := Some (unwatchIO d (set_errno e0 s));
                trace := trace w ++ replicate (S k) (sys_close d) ++ [call_unwatchIO d];
                kernel := rest |}).
Proof.
  split; [|split].
  - intros Hs. unfold Close, require_scheduler. rewrite M_bind_run. by rewrite Hs.
  - intros s Hs Hw. unfold Close.
    rewrite M_bind_run, (require_scheduler_run _ _ Hs).
    rewrite M_bind_run, (call_ioIsWatched_run _ _ _ Hs), Hw. cbn [negb].
    rewrite M_bind_run, (put_errno_run _ _ _ Hs). reflexivity.
  - intros s k r e o rest Hs Hw Hk He.
    destruct (Close_retry_rounds d k (length (kernel w)) w s r e o rest)
      as (e0 & He0 & Hrun); [| done | done | done |].
    { rewrite Hk, length_app, length_replicate. simpl. lia. }
    exists e0. split; [exact He0|]. unfold Close.
    rewrite M_bind_run, (require_scheduler_run _ _ Hs).
    rewrite M_bind_run, (call_ioIsWatched_run _ _ _ Hs), Hw. cbn [negb].
    rewrite M_bind_run. unfold Close_loop. rewrite Hrun.
    destruct (r <? 0); rewrite M_bind_run, (unwatch_run _ _ (set_errno e0 s)) by done;
      rewrite M_ret_run; cbn [trace kernel]; rewrite <- app_assoc; reflexivity.
Qed.

Lemma Close_behaviour_witness :
  ∃ e0,
    Close 5
      {| TheScheduler := Some (watchIO 5 (Scheduler_new 0 0)); trace := [];
         kernel := [Sys (-1) EINTR 0; Sys (-1) EINTR 0; Sys 0 0 0] |}
    = Done 0
        {| TheScheduler := Some (unwatchIO 5 (set_errno e0 (watchIO 5 (Scheduler_new 0 0))));
           trace := [sys_close 5; sys_close 5; sys_close 5; call_unwatchIO 5];
           kernel := [] |}.
Proof.
  destruct (Close_behaviour 5
              {| TheScheduler := Some (watchIO 5 (Scheduler_new 0 0)); trace := [];
                 kernel := [Sys (-1) EINTR 0; Sys (-1) EINTR 0; Sys 0 0 0] |})
    as (_ & _ & Hwatched).
  destruct (Hwatched (watchIO 5 (Scheduler_new 0 0)) 2%nat 0 0 0 [])
    as (e0 & _ & Hclose); [reflexivity | reflexivity | reflexivity | lia |].
  exists e0. exact Hclose.
Defined.

(** ** [Connect] *)

(** C7: on a watched fd [Connect] calls [connect] once. If the call succeeds
    it returns 0. If it fails with [EINPROGRESS], [Connect] awaits writability
    of the fd with the given timeout and, resumed normally, reads [SO_ERROR]:
    it returns 0 if the option is zero, and otherwise stores the option in
    [errno] and returns -1. *)
Theorem Connect_behaviour d addr addrlen timeout w s :
  TheScheduler w = Some s → ioIsWatched d s = true →
  (∀ r e o rest,
     kernel w = Sys r e o :: rest → 0 ≤ r →
     Connect d addr addrlen timeout w
     = Done 0 {| TheScheduler := Some s;
                 trace := trace w ++ [sys_connect d addr addrlen];
                 kernel := rest |})
  ∧ (∀ r o st s1 g e2 optval rest,
       kernel w
       = Sys r EINPROGRESS o :: Resumed st s1 :: Sys g e2 optval :: rest →
       r < 0 → 0 < st → 0 ≤ g →
       Connect d addr addrlen timeout w
       = Done (if optval =? 0 then 0 else -1)
           {| TheScheduler :=
                Some (if optval =? 0 then s1 else set_errno optval s1);
              trace := trace w ++ [sys_connect d addr addrlen;
                                   call_awaitIOEvent d Writability timeout;
                                   sys_getsockopt_SO_ERROR d];
              kernel := rest |}).
Proof.
  intros Hs Hw. split.
  - intros r e o rest Hk Hr. unfold Connect.
    rewrite M_bind_run, (require_scheduler_run _ _ Hs).
    rewrite M_bind_run, (call_ioIsWatched_run _ _ _ Hs), Hw. cbn [negb].
    rewrite M_bind_run, (syscall_run _ _ _ _ _ _ _ Hs Hk).
    destruct (Z.ltb_spec r 0); [lia|]. reflexivity.
  - intros r o st s1 g e2 optval rest Hk Hr Hst Hg. unfold Connect.
    rewrite M_bind_run, (require_scheduler_run _ _ Hs).
    rewrite M_bind_run, (call_ioIsWatched_run _ _ _ Hs), Hw. cbn [negb].
    rewrite M_bind_run, (syscall_run _ _ _ _ _ _ _ Hs Hk).
    destruct (Z.ltb_spec r 0) as [_|]; [|lia].
    rewrite M_bind_run, (get_errno_run _ (set_errno EINPROGRESS s)) by done.
    cbn [errno set_errno].
    change (negb (EINPROGRESS =? EINTR) && negb (EINPROGRESS =? EINPROGRESS))
      with false. cbn iota.
    rewrite M_bind_run.
    rewrite (await_run _ _ _ _ (set_errno EINPROGRESS s) st s1
               (Sys g e2 optval :: rest)) by (done || lia).
    unfold awaitIOEvent_resume.
    destruct (Z.ltb_spec st 0) as [|_]; [lia|]. cbn [fst snd].
    change (0 <? 0) with false. cbn iota.
    rewrite M_bind_run.
    rewrite (syscall_run _ _ s1 g e2 optval rest) by done.
    destruct (Z.ltb_spec g 0) as [|_]; [lia|]. cbn [trace kernel].
    destruct (Z.eqb_spec optval 0) as [->|Hopt]; cbn [negb].
    + rewrite M_ret_run. do 2 rewrite <- app_assoc. reflexivity.
    + rewrite M_bind_run, (put_errno_run _ _ s1) by done.
      rewrite M_ret_run. cbn [trace kernel].
      do 2 rewrite <- app_assoc. reflexivity.
Qed.

Lemma Connect_behaviour_witness :
  Connect 5 0 16 1000
    {| TheScheduler := Some (watchIO 5 (Scheduler_new 0 0)); trace := [];
       kernel := [Sys (-1) EINPROGRESS 0;
                  Resumed 1 (watchIO 5 (Scheduler_new 0 0));
                  Sys 0 0 ECONNREFUSED] |}
  = Done (-1)
      {| TheScheduler := Some (set_errno ECONNREFUSED (watchIO 5 (Scheduler_new 0 0)));
         trace := [sys_connect 5 0 16; call_awaitIOEvent 5 Writability 1000;
                   sys_getsockopt_SO_ERROR 5];
         kernel := [] |}.
Proof.
  destruct (Connect_behaviour 5 0 16 1000
              {| TheScheduler := Some (watchIO 5 (Scheduler_new 0 0)); trace := [];
                 kernel := [Sys (-1) EINPROGRESS 0;
                            Resumed 1 (watchIO 5 (Scheduler_new 0 0));
                            Sys 0 0 ECONNREFUSED] |}
              (watchIO 5 (Scheduler_new 0 0)) eq_refl eq_refl) as [_ Hprogress].
  apply (Hprogress (-1) 0 1 (watchIO 5 (Scheduler_new 0 0)) 0 0 ECONNREFUSED []);
    [reflexivity | lia | lia | lia].
Defined.

(** * The scheduler invariant *)

(** ** Lists *)

Lemma NoDup_fmap_inj_on {A B} (g : A → B) (l : list A) a b :
  NoDup (g <$> l) → a ∈ l → b ∈ l → g a = g b → a = b.
Proof.
  induction l as [|x l IH]; intros Hnd Ha Hb Hg; [by apply elem_of_nil in Ha|].
  rewrite fmap_cons in Hnd. apply NoDup_cons in Hnd as [Hx Hnd].
  apply elem_of_cons in Ha as [->|Ha]; apply elem_of_cons in Hb as [->|Hb]; auto.
  - exfalso. apply Hx. rewrite Hg. by apply list_elem_of_fmap_2.
  - exfalso. apply Hx. rewrite <- Hg. by apply list_elem_of_fmap_2.
Qed.

Lemma filter_ext_elem_of {A} (P Q : A → Prop)
    `{!∀ x, Decision (P x)} `{!∀ x, Decision (Q x)} (l : list A) :
  (∀ x, x ∈ l → (P x ↔ Q x)) → filter P l = filter Q l.
Proof.
  induction l as [|x l IH]; intros Hext; [done|].
  rewrite !filter_cons.
  rewrite IH by (intros y Hy; apply Hext; by right).
  destruct (decide (P x)) as [HP|HP], (decide (Q x)) as [HQ|HQ]; try done.
  - exfalso. apply HQ, Hext; [by left | done].
  - exfalso. apply HP, Hext; [by left | done].
Qed.

Lemma filter_split_perm {A} (P : A → Prop) `{!∀ x, Decision (P x)} (l : list A) :
  l ≡ₚ filter P l ++ filter (λ x, ¬ P x) l.
Proof.
  induction l as [|x l IH]; [done|].
  rewrite !filter_cons. destruct (decide (P x)), (decide (¬ P x)); try done.
  - simpl. by f_equiv.
  - rewrite <- Permutation_middle. by f_equiv.
Qed.

Lemma queued_elem_of s f :
  f ∈ queued s ↔
  runningFiber_ s = Some f ∨ f ∈ readyFiberQueue_ s ∨ f ∈ deadFiberQueue_ s.
Proof.
  unfold queued, running_list. rewrite !elem_of_app.
  destruct (runningFiber_ s) as [r|]; simpl.
  - rewrite list_elem_of_singleton. naive_solver.
  - rewrite elem_of_nil. naive_solver.
Qed.

Lemma wf_release T T' X s s' :
  wf_gen T s →
  T ≡ₚ X ++ T' →
  runningFiber_ s' = runningFiber_ s →
  deadFiberQueue_ s' = deadFiberQueue_ s →
  inRun s' = inRun s → context_ s' = context_ s → status_ s' = status_ s →
  readyFiberQueue_ s' = readyFiberQueue_ s ++ X →
  watched (ioPoll_ s') ⊆ watched (ioPoll_ s) →
  awaiters (ioPoll_ s') = filter (λ a, aw_fiber a ∉ X) (awaiters (ioPoll_ s)) →
  (∀ f, f ∉ X → fibers s' !! f = fibers s !! f) →
  (∀ f fb, f ∈ X → fibers s !! f = Some fb →
     ∃ fb', fibers s' !! f = Some fb' ∧ context fb' = context fb ∧ status fb' ≠ 0) →
  wf_gen T' s'.
Proof.
  intros [Hlink HT Hwt Hpark Hlive Haw Hsl Hst Hrun Hwd]
    HTX Hr Hd HinRun Hctx Hsts Hq Hw Hawt Hsame Hmod.
  assert (HndX : NoDup X ∧ NoDup T' ∧ ∀ x, x ∈ X → x ∉ T').
  { rewrite HTX in HT. apply NoDup_app in HT. naive_solver. }
  destruct HndX as (HndX & HndT' & HXT').
  assert (HTin : ∀ f, f ∈ T ↔ f ∈ X ∨ f ∈ T').
  { intros f. rewrite HTX. apply elem_of_app. }
  assert (Hqd : ∀ f, f ∈ queued s' ↔ f ∈ queued s ∨ f ∈ X).
  { intros f. rewrite !queued_elem_of, Hr, Hd, Hq, elem_of_app. naive_solver. }
  assert (Hwait : ∀ f, f ∈ waiting s' ↔ f ∈ waiting s ∧ f ∉ X).
  { intros f. unfold waiting. rewrite Hawt, !list_elem_of_fmap. split.
    - intros (a & -> & Ha). apply list_elem_of_filter in Ha. naive_solver.
    - intros [(a & -> & Ha) HfX]. exists a. by rewrite list_elem_of_filter. }
  assert (Hctxt : ∀ f fb', fibers s' !! f = Some fb' →
            ∃ fb, fibers s !! f = Some fb ∧ context fb' = context fb
                  ∧ (f ∉ X → fb' = fb) ∧ (f ∈ X → status fb' ≠ 0)).
  { intros f fb' Hf. destruct (decide (f ∈ X)) as [HfX|HfX].
    - destruct (Hlive f) as [fb Hfb].
      { apply elem_of_app. right. apply HTin. by left. }
      destruct (Hmod f fb HfX Hfb) as (fb2 & Hfb2 & Hc & Hs).
      exists fb. rewrite Hf in Hfb2. injection Hfb2 as <-. naive_solver.
    - rewrite Hsame in Hf by done. exists fb'. naive_solver. }
  constructor.
  - unfold queued, waiting, running_list in *. rewrite Hr, Hd, Hq, Hawt.
    apply NoDup_app in Hlink as (Hq1 & Hq2 & Hw1).
    apply NoDup_app. split; [|split].
    + assert (Hperm : option_list (runningFiber_ s) ++ (readyFiberQueue_ s ++ X)
                        ++ deadFiberQueue_ s
                      ≡ₚ (option_list (runningFiber_ s) ++ readyFiberQueue_ s
                          ++ deadFiberQueue_ s) ++ X)
        by solve_Permutation.
      rewrite Hperm.
      apply NoDup_app. split; [done|]. split; [|done].
      intros x Hx HxX. apply (Hpark x); [apply HTin; by left|]. done.
    + intros x Hx Hx'. apply list_elem_of_fmap in Hx' as (a & -> & Ha).
      apply list_elem_of_filter in Ha as [HaX Ha].
      assert (aw_fiber a ∈ option_list (runningFiber_ s) ++ readyFiberQueue_ s
                ++ deadFiberQueue_ s)
        as Hin by (rewrite !elem_of_app in *; naive_solver).
      apply (Hq2 _ Hin). by apply list_elem_of_fmap_2.
    + eapply sublist_NoDup; [exact Hw1 | apply fmap_sublist, sublist_filter].
  - done.
  - intros f Hf. apply Hwait in Hf as [Hf HfX]. apply Hwt, HTin in Hf. naive_solver.
  - intros f Hf Hfq. apply Hqd in Hfq as [Hfq|Hfq].
    + apply (Hpark f); [apply HTin; by right | done].
    + by apply (HXT' f).
  - intros f Hf. apply elem_of_app in Hf.
    assert (is_Some (fibers s !! f)) as [fb Hfb].
    { apply Hlive, elem_of_app. rewrite HTin. rewrite Hqd in Hf. naive_solver. }
    destruct (decide (f ∈ X)) as [HfX|HfX].
    + destruct (Hmod f fb HfX Hfb) as (fb2 & -> & _). by eexists.
    + rewrite Hsame by done. by eexists.
  - intros a fb' Ha Hfb'. rewrite Hawt in Ha. apply list_elem_of_filter in Ha as [HaX Ha].
    destruct (Hctxt _ _ Hfb') as (fb & Hfb & _ & Heq & _). rewrite (Heq HaX).
    by apply Haw.
  - intros f fb' Hf Hfw Hfb'.
    destruct (Hctxt _ _ Hfb') as (fb & Hfb & -> & _).
    apply (Hsl f); [apply HTin; by right | | done].
    intros Hfw'. apply Hfw, Hwait. split; [done|]. intros HfX. by apply (HXT' f).
  - intros f fb' Hfb'. destruct (Hctxt _ _ Hfb') as (fb & Hfb & Hc & Heq & Hne).
    destruct (decide (f ∈ X)) as [HfX|HfX].
    + specialize (Hne HfX). rewrite Hc.
      assert (context fb ≠ None).
      { destruct (decide (f ∈ waiting s)) as [Hfw|Hfw].
        - apply list_elem_of_fmap in Hfw as (a & -> & Ha).
          destruct (Haw a fb Ha Hfb) as (_ & _ & ->). done.
        - rewrite (Hsl f fb); [done | apply HTin; by left | done | done]. }
      naive_solver.
    + rewrite (Heq HfX). by apply (Hst f).
  - rewrite Hr, HinRun, Hctx, Hsts. done.
  - intros d Hd'. apply Hwd. set_solver.
Qed.

Lemma filter_all {A} (P : A → Prop) `{!∀ x, Decision (P x)} (l : list A) :
  (∀ x, x ∈ l → P x) → filter P l = l.
Proof.
  induction l as [|x l IH]; intros Hall; [done|].
  rewrite filter_cons, decide_True by (apply Hall; by left).
  f_equal. apply IH. intros y Hy. apply Hall. by right.
Qed.

(** Splitting a duplicate-free list along a duplicate-free sublist of members. *)
Lemma NoDup_split_perm (X T : list Z) :
  NoDup X → NoDup T → (∀ x, x ∈ X → x ∈ T) →
  T ≡ₚ X ++ filter (λ g, g ∉ X) T.
Proof.
  intros HX HT Hsub.
  rewrite (filter_split_perm (λ g, g ∈ X) T) at 1. f_equiv.
  apply NoDup_Permutation; [by apply NoDup_filter | done |].
  intros x. rewrite list_elem_of_filter. naive_solver.
Qed.

(** *** The timer store *)

Lemma Timer_insert_perm it q : Timer_insert it q ≡ₚ it :: q.
Proof.
  induction q as [|x q IH]; [done|]. simpl.
  destruct (deadline_le (deadline x) (deadline it)); [|done].
  rewrite IH. apply Permutation_swap.
Qed.

Lemma timed_addItem now f duration q :
  owner <$> Timer_addItem now f duration q ≡ₚ f :: (owner <$> q).
Proof. unfold Timer_addItem. by rewrite Timer_insert_perm. Qed.

Lemma Timer_removeItem_owners f q :
  owner <$> Timer_removeItem f q = filter (λ g, g ≠ f) (owner <$> q).
Proof.
  unfold Timer_removeItem. induction q as [|x q IH]; [done|].
  rewrite fmap_cons, !filter_cons.
  destruct (decide (owner x ≠ f)); rewrite ?fmap_cons, IH; done.
Qed.

Lemma Timer_removeItems_owners X : ∀ q,
  owner <$> foldl (λ t f, Timer_removeItem f t) q X
  = filter (λ g, g ∉ X) (owner <$> q).
Proof.
  induction X as [|x X IH]; intros q; simpl.
  - symmetry. apply filter_all. intros ? _. apply not_elem_of_nil.
  - rewrite IH, Timer_removeItem_owners, list_filter_filter.
    apply filter_ext_elem_of. intros g _. rewrite not_elem_of_cons. naive_solver.
Qed.

Lemma Timer_removeDueItems_perm now : ∀ q cap buf rest,
  Timer_removeDueItems now cap q = (buf, rest) →
  owner <$> q ≡ₚ buf ++ (owner <$> rest).
Proof.
  induction q as [|it q IH]; intros cap buf rest Hrm; simpl in Hrm.
  - by injection Hrm as <- <-.
  - destruct cap as [|cap]; [by injection Hrm as <- <-|].
    destruct (is_due now it).
    + destruct (Timer_removeDueItems now cap q) as [b r] eqn:Hq.
      injection Hrm as <- <-. rewrite fmap_cons. simpl. f_equiv. by eapply IH.
    + destruct (Timer_removeDueItems now (S cap) q) as [b r] eqn:Hq.
      injection Hrm as <- <-. rewrite !fmap_cons, <- Permutation_middle.
      f_equiv. by eapply IH.
Qed.

(** *** Stores through fiber pointers *)

Lemma alter_all_lookup (g : Fiber → Fiber) X : ∀ (m : gmap Z Fiber) f,
  (∀ fb, g (g fb) = g fb) →
  foldl (λ m f, alter g f m) m X !! f
  = if decide (f ∈ X) then g <$> m !! f else m !! f.
Proof.
  induction X as [|x X IH]; intros m f Hg; cbn [foldl].
  - case_decide as Hf; [by apply elem_of_nil in Hf | done].
  - rewrite IH by done. rewrite lookup_alter.
    destruct (decide (x = f)) as [->|Hne].
    + rewrite (decide_True (P := f ∈ f :: X)) by by left.
      case_decide; [|done].
      destruct (m !! f); simpl; [by rewrite Hg | done].
    + destruct (decide (f ∈ X)) as [Hf|Hf].
      * by rewrite decide_True by by right.
      * rewrite decide_False; [done|]. rewrite not_elem_of_cons. naive_solver.
Qed.

(** *** The invariant does not read the clock, errno or the timer *)

Lemma wf_gen_perm T T' s : T ≡ₚ T' → wf_gen T s → wf_gen T' s.
Proof.
  intros HT [Hlink HTn Hwt Hpark Hlive Haw Hsl Hst Hrun Hwd].
  constructor; try done.
  - by rewrite <- HT.
  - intros f Hf. rewrite <- HT. auto.
  - intros f Hf. rewrite <- HT in Hf. auto.
  - intros f Hf. apply Hlive. by rewrite HT.
  - intros f fb Hf. rewrite <- HT in Hf. by apply Hsl.
Qed.

Lemma wf_gen_set_timer T t s : wf_gen T s → wf_gen T (set_timer t s).
Proof. intros []. by constructor. Qed.

Lemma wf_gen_set_errno T e s : wf_gen T s → wf_gen T (set_errno e s).
Proof. intros []. by constructor. Qed.

Lemma wf_gen_set_clock T c s : wf_gen T s → wf_gen T (set_clock c s).
Proof. intros []. by constructor. Qed.

(** *** Draining wait records *)

Lemma drain_awaiters (P : Awaiter → Prop) `{!∀ a, Decision (P a)} (l : list Awaiter) :
  NoDup (aw_fiber <$> l) →
  filter (λ a, ¬ P a) l
  = filter (λ a, aw_fiber a ∉ aw_fiber <$> filter P l) l.
Proof.
  intros Hnd. apply filter_ext_elem_of. intros a Ha. split.
  - intros HP Hin. apply list_elem_of_fmap in Hin as (b & Hab & Hb).
    apply list_elem_of_filter in Hb as [HPb Hb].
    by rewrite (NoDup_fmap_inj_on aw_fiber l a b Hnd Ha Hb Hab) in HP.
  - intros Hin HP. apply Hin, list_elem_of_fmap_2. by apply list_elem_of_filter.
Qed.

Lemma wf_waiting_NoDup T s : wf_gen T s → NoDup (waiting s).
Proof. intros [Hlink _ _ _ _ _ _ _ _ _]. by apply NoDup_app in Hlink as (_ & _ & ?). Qed.

(** Waking the fibers [X] taken out of the wait sets by a predicate on the
    wait records: their timer items go, their records are updated by [g]. *)
Lemma wf_drain (P : Awaiter → Prop) `{!∀ a, Decision (P a)} (g : Fiber → Fiber)
    (wd : gset Z) s :
  let X := aw_fiber <$> filter P (awaiters (ioPoll_ s)) in
  wf s →
  (∀ fb, g (g fb) = g fb) →
  (∀ fb, context (g fb) = context fb) →
  (∀ fb, status (g fb) ≠ 0) →
  wd ⊆ watched (ioPoll_ s) →
  wf (set_ready (readyFiberQueue_ s ++ X)
        (set_fibers (foldl (λ m f, alter g f m) (fibers s) X)
           (set_timer (foldl (λ t f, Timer_removeItem f t) (timer_ s) X)
              (set_ioPoll {| watched := wd;
                             awaiters := filter (λ a, ¬ P a) (awaiters (ioPoll_ s)) |}
                 s)))).
Proof.
  intros X Hwf Hidem Hctx Hst Hwd. unfold wf.
  assert (HndX : NoDup X).
  { eapply sublist_NoDup; [exact (wf_waiting_NoDup _ _ Hwf)|].
    apply fmap_sublist, sublist_filter. }
  assert (HXT : ∀ x, x ∈ X → x ∈ timed s).
  { intros x Hx. apply (wf_waiting_timed _ _ Hwf).
    apply list_elem_of_fmap in Hx as (a & -> & Ha).
    apply list_elem_of_filter in Ha as [_ Ha]. by apply list_elem_of_fmap_2. }
  eapply (wf_release (timed s) _ X s); try done.
  - unfold timed at 2. cbn [timer_ set_ready set_fibers set_timer].
    rewrite Timer_removeItems_owners.
    apply NoDup_split_perm; [done | apply (wf_timed _ _ Hwf) | done].
  - cbn. apply drain_awaiters. exact (wf_waiting_NoDup _ _ Hwf).
  - intros f Hf. cbn. by rewrite alter_all_lookup, decide_False.
  - intros f fb Hf Hfb. cbn. rewrite alter_all_lookup, decide_True, Hfb by done.
    eexists. split; [reflexivity|]. split; [apply Hctx | apply Hst].
Qed.

Lemma unwatchIO_fold X : ∀ s,
  foldl unwatchIO_item s X
  = set_fibers (foldl (λ m f, alter (set_status (- EBADF)) f m) (fibers s) X)
      (set_timer (foldl (λ t f, Timer_removeItem f t) (timer_ s) X) s).
Proof.
  induction X as [|x X IH]; intros s; cbn [foldl].
  - by destruct s.
  - rewrite IH. reflexivity.
Qed.

Lemma unwatchIO_wf d s : wf s → wf (unwatchIO d s).
Proof.
  intros Hwf. unfold unwatchIO, IOPoll_removeEventAwaiters. rewrite unwatchIO_fold.
  apply (wf_drain (λ a, aw_fd a = d) (set_status (- EBADF))
           (watched (ioPoll_ s) ∖ {[d]}) s); try done.
  set_solver.
Qed.

Lemma run_poll_fold X : ∀ s,
  foldl (λ s fiber, set_timer (Timer_removeItem fiber (timer_ s)) s) s X
  = set_timer (foldl (λ t f, Timer_removeItem f t) (timer_ s) X) s.
Proof.
  induction X as [|x X IH]; intros s; cbn [foldl].
  - by destruct s.
  - rewrite IH. reflexivity.
Qed.

Lemma run_poll_wf ready s : wf s → wf (run_poll ready s).
Proof.
  intros Hwf. unfold run_poll, IOPoll_waitForEvents. rewrite run_poll_fold.
  apply (wf_drain (is_ready ready) wake (watched (ioPoll_ s)) s); done.
Qed.

(** *** The timer block *)

(** A fiber that owns a timer item has a saved context. *)
Lemma wf_timed_context T s f fb :
  wf_gen T s → f ∈ T → fibers s !! f = Some fb →
  context fb ≠ None ∧ status fb ≠ 0.
Proof.
  intros Hwf Hf Hfb.
  assert (context fb ≠ None) as Hc.
  { destruct (decide (f ∈ waiting s)) as [Hfw|Hfw].
    - apply list_elem_of_fmap in Hfw as (a & -> & Ha).
      destruct (wf_awaiter _ _ Hwf a fb Ha Hfb) as (_ & _ & ->). done.
    - by rewrite (wf_sleeper _ _ Hwf f fb Hf Hfw Hfb). }
  split; [done|]. intros Hs. by apply Hc, (wf_status _ _ Hwf f fb Hfb).
Qed.

Lemma run_timer_item_wf T s f :
  wf_gen (f :: T) s → wf_gen T (run_timer_item s f).
Proof.
  intros Hwf.
  destruct (wf_live _ _ Hwf f) as [fb Hfb].
  { apply elem_of_app. right. by left. }
  destruct (wf_timed_context _ _ _ _ Hwf (list_elem_of_here f T) Hfb) as [Hctx Hst].
  assert (Hrec : ∀ a, a ∈ awaiters (ioPoll_ s) → aw_fiber a = f →
                      aw_fd a = fd fb ∧ 0 ≤ fd fb).
  { intros a Ha <-. destruct (wf_awaiter _ _ Hwf a fb Ha Hfb) as (-> & ? & _). done. }
  unfold run_timer_item. rewrite Hfb.
  destruct (Z.leb_spec 0 (fd fb)) as [Hfd|Hfd].
  - eapply (wf_release (f :: T) T [f] s); try done.
    + cbn. apply filter_ext_elem_of. intros a Ha.
      rewrite list_elem_of_singleton. specialize (Hrec a Ha). naive_solver.
    + intros g Hg. cbn. rewrite !lookup_alter_ne; [done| |];
        intros ->; apply Hg; by left.
    + intros g fb0 Hg Hfb0. apply list_elem_of_singleton in Hg as ->.
      cbn. rewrite !lookup_alter_eq, Hfb0. rewrite Hfb in Hfb0. injection Hfb0 as <-.
      eexists. split; [reflexivity|]. split; [done|]. cbn. unfold ETIME. lia.
  - eapply (wf_release (f :: T) T [f] s); try done.
    + cbn. symmetry. apply filter_all. intros a Ha.
      rewrite list_elem_of_singleton. intros Haf.
      specialize (Hrec a Ha Haf). lia.
    + intros g fb0 Hg Hfb0. apply list_elem_of_singleton in Hg as ->.
      cbn. rewrite Hfb in Hfb0. injection Hfb0 as <-. eauto.
Qed.

Lemma run_timer_fold_wf buf : ∀ T s,
  wf_gen (buf ++ T) s → wf_gen T (foldl run_timer_item s buf).
Proof.
  induction buf as [|f buf IH]; intros T s Hwf; cbn [foldl]; [done|].
  apply IH, run_timer_item_wf. exact Hwf.
Qed.

Lemma run_timer_fold_timer buf : ∀ s,
  timer_ (foldl run_timer_item s buf) = timer_ s.
Proof.
  induction buf as [|f buf IH]; intros s; cbn [foldl]; [done|].
  rewrite IH. unfold run_timer_item.
  destruct (fibers s !! f) as [fb|]; [|done]. by destruct (0 <=? fd fb).
Qed.

Lemma run_timer_wf s : wf s → wf (run_timer s).
Proof.
  intros Hwf. unfold run_timer.
  destruct (Timer_removeDueItems (clock s) 1024 (timer_ s)) as [buffer rest] eqn:Hrm.
  unfold wf, timed. rewrite run_timer_fold_timer. cbn [timer_ set_timer].
  apply run_timer_fold_wf, wf_gen_set_timer.
  eapply wf_gen_perm; [|exact Hwf].
  by apply Timer_removeDueItems_perm in Hrm.
Qed.

(** *** Switching fibers *)

Lemma wf_running_live T s r :
  wf_gen T s → runningFiber_ s = Some r → is_Some (fibers s !! r).
Proof.
  intros Hwf Hr. apply (wf_live _ _ Hwf), elem_of_app. left.
  apply queued_elem_of. by left.
Qed.

(** Parking the running fiber [r]: its record is updated by [g] and it is
    linked somewhere else; nothing changes for the other fibers. *)
Lemma wf_park T T' s s' r g :
  wf_gen T s → runningFiber_ s = Some r →
  runningFiber_ s' = None →
  fibers s' = alter g r (fibers s) →
  watched (ioPoll_ s') = watched (ioPoll_ s) →
  NoDup (queued s' ++ waiting s') →
  NoDup T' →
  (∀ f, f ≠ r → (f ∈ queued s' ↔ f ∈ queued s)) →
  (∀ f, f ≠ r → (f ∈ T' ↔ f ∈ T)) →
  (∀ a, aw_fiber a ≠ r →
        (a ∈ awaiters (ioPoll_ s') ↔ a ∈ awaiters (ioPoll_ s))) →
  (r ∈ waiting s' → r ∈ T') →
  (r ∈ T' → r ∉ queued s') →
  (∀ fb, status (g fb) = 0 ↔ context (g fb) = None) →
  (∀ a fb, a ∈ awaiters (ioPoll_ s') → aw_fiber a = r →
           fd (g fb) = aw_fd a ∧ 0 ≤ aw_fd a ∧ context (g fb) = Some InAwait) →
  (∀ fb, r ∈ T' → r ∉ waiting s' → context (g fb) = Some InSleep) →
  wf_gen T' s'.
Proof.
  intros Hwf Hr Hr' Hfib Hwd Hlink HT' Hq HT Haw Hrw Hrt Hgst Hgaw Hgsl.
  destruct (wf_running_live _ _ _ Hwf Hr) as [fbr Hfbr].
  assert (Hlook : ∀ f fb', fibers s' !! f = Some fb' →
            (f = r ∧ fb' = g fbr) ∨ (f ≠ r ∧ fibers s !! f = Some fb')).
  { intros f fb'. rewrite Hfib, lookup_alter_Some. intros [[-> (x & Hx & ->)]|[? ?]].
    - left. rewrite Hfbr in Hx. by injection Hx as <-.
    - right. done. }
  assert (Hwait : ∀ f, f ≠ r → (f ∈ waiting s' ↔ f ∈ waiting s)).
  { intros f Hf. unfold waiting. rewrite !list_elem_of_fmap.
    split; intros (a & -> & Ha); exists a; (split; [done|]); by apply (Haw a Hf). }
  constructor; try done.
  - intros f Hf. destruct (decide (f = r)) as [->|Hne]; [by apply Hrw|].
    apply (HT f Hne), (wf_waiting_timed _ _ Hwf), (Hwait f Hne), Hf.
  - intros f Hf. destruct (decide (f = r)) as [->|Hne]; [by apply Hrt|].
    rewrite (Hq f Hne). apply (wf_timed_parked _ _ Hwf), (HT f Hne), Hf.
  - intros f Hf. rewrite Hfib. apply lookup_alter_is_Some.
    destruct (decide (f = r)) as [->|Hne]; [by eexists|].
    apply (wf_live _ _ Hwf). rewrite elem_of_app in *.
    rewrite <- (Hq f Hne), <- (HT f Hne). done.
  - intros a fb' Ha Hfb'. destruct (Hlook _ _ Hfb') as [[Har ->]|[Har Hfb]].
    + by apply Hgaw.
    + apply (wf_awaiter _ _ Hwf); [|done]. by apply (Haw a Har).
  - intros f fb' Hf Hfw Hfb'. destruct (Hlook _ _ Hfb') as [[-> ->]|[Hne Hfb]].
    + by apply Hgsl.
    + apply (wf_sleeper _ _ Hwf f); [by apply (HT f Hne) | | done].
      by rewrite <- (Hwait f Hne).
  - intros f fb' Hfb'. destruct (Hlook _ _ Hfb') as [[-> ->]|[Hne Hfb]].
    + apply Hgst.
    + by apply (wf_status _ _ Hwf f).
  - rewrite Hr'. by intros [? ?].
  - intros d. rewrite Hwd. apply (wf_watched _ _ Hwf).
Qed.

Lemma executeFiber_fst f s : (executeFiber f s).1 = set_running (Some f) s.
Proof.
  unfold executeFiber. cbn [fibers set_running].
  destruct (fibers s !! f) as [fb|]; [|done].
  destruct (context fb); [|done]. by destruct (status fb =? 0).
Qed.

Lemma executeFiber_snd f s fb :
  fibers s !! f = Some fb → (status fb = 0 ↔ context fb = None) →
  (executeFiber f s).2
  = match context fb with
    | None => Bootstrap f
    | Some site => Longjmp f site (status fb)
    end
  ∧ (∀ site, context fb = Some site → status fb ≠ 0).
Proof.
  intros Hfb Hst. unfold executeFiber. cbn [fibers set_running]. rewrite Hfb.
  destruct (context fb) as [site|] eqn:Hc.
  - assert (status fb ≠ 0) as Hne by (intros H0; by apply Hst in H0).
    destruct (Z.eqb_spec (status fb) 0); [done|]. eauto.
  - split; [done|]. by intros.
Qed.

Lemma execute_fst s : (execute s).1 = set_running None s.
Proof.
  unfold execute. cbn [context_ status_ set_running].
  destruct (context_ s); [|done]. by destruct (status_ s =? 0).
Qed.

Lemma switchFiber_fst s :
  (switchFiber s).1
  = match readyFiberQueue_ s with
    | [] => set_running None s
    | f :: q => set_running (Some f) (set_ready q s)
    end.
Proof.
  unfold switchFiber. destruct (readyFiberQueue_ s); [apply execute_fst|].
  apply executeFiber_fst.
Qed.

(** Entering the head of the ready queue from a state with no running fiber. *)
Lemma wf_enter_head T s f q :
  wf_gen T s → runningFiber_ s = None → readyFiberQueue_ s = f :: q →
  inRun s = true → context_ s = Some InRun → status_ s = 1 →
  wf_gen T (set_running (Some f) (set_ready q s)).
Proof.
  intros [Hlink HTn Hwt Hpark Hlive Haw Hsl Hst Hrun Hwd] Hr Hq HinRun Hctx Hsts.
  unfold queued, running_list in *. rewrite Hr, Hq in *.
  constructor; try done.
Qed.

Lemma switchFiber_wf T s :
  wf_gen T (set_running None s) →
  inRun s = true → context_ s = Some InRun → status_ s = 1 →
  wf_gen T (switchFiber s).1.
Proof.
  intros Hwf HinRun Hctx Hsts. rewrite switchFiber_fst.
  destruct (readyFiberQueue_ s) as [|f q] eqn:Hq; [done|].
  by apply (wf_enter_head T (set_running None s) f q).
Qed.

Lemma land_fst_wf T r : wf_gen T r.1 → wf_gen T (land r).1.
Proof.
  destruct r as [s t]. unfold land. intros Hwf.
  destruct t as [| |f site st| | | | |]; try done.
  destruct site; try done. unfold awaitIOEvent_resume.
  destruct (st <? 0); [|done]. by apply wf_gen_set_errno.
Qed.

Lemma land_fst_timer r : timer_ (land r).1 = timer_ r.1.
Proof.
  destruct r as [s t]. unfold land.
  destruct t as [| |f site st| | | | |]; try done.
  destruct site; try done. unfold awaitIOEvent_resume. by destruct (st <? 0).
Qed.

Lemma land_wf r : wf r.1 → wf (land r).1.
Proof. unfold wf, timed. rewrite land_fst_timer. apply land_fst_wf. Qed.

Lemma wf_running_facts T s r :
  wf_gen T s → runningFiber_ s = Some r →
  NoDup (readyFiberQueue_ s ++ deadFiberQueue_ s ++ waiting s)
  ∧ (r ∉ readyFiberQueue_ s) ∧ (r ∉ deadFiberQueue_ s) ∧ (r ∉ waiting s) ∧ (r ∉ T).
Proof.
  intros Hwf Hr. pose proof (wf_linked _ _ Hwf) as Hlink.
  unfold queued, running_list in Hlink. rewrite Hr in Hlink. cbn in Hlink.
  rewrite <- !app_assoc in Hlink. apply NoDup_cons in Hlink as [Hnot Hnd].
  rewrite !elem_of_app in Hnot.
  split; [done|]. repeat split; try naive_solver.
  intros HrT. apply (wf_timed_parked _ _ Hwf r HrT), queued_elem_of. by left.
Qed.

Lemma wf_run_facts T s :
  wf_gen T s → is_Some (runningFiber_ s) →
  inRun s = true ∧ context_ s = Some InRun ∧ status_ s = 1.
Proof. intros Hwf Hr. by apply (wf_run _ _ Hwf). Qed.

Lemma yieldCurrentFiber_fst s r f0 q :
  runningFiber_ s = Some r → readyFiberQueue_ s = f0 :: q →
  (yieldCurrentFiber s).1
  = set_running (Some f0)
      (set_ready (q ++ [r])
         (update_fiber r (set_status 1) (update_fiber r (set_context (Some InYield)) s))).
Proof.
  intros Hr Hq. unfold yieldCurrentFiber. rewrite Hr, Hq.
  cbn [readyFiberQueue_ set_ready update_fiber set_fibers]. rewrite Hq.
  cbn [app]. by rewrite executeFiber_fst.
Qed.

Lemma yieldCurrentFiber_wf s :
  wf s → is_Some (runningFiber_ s) → wf (yieldCurrentFiber s).1.
Proof.
  intros Hwf [r Hr].
  destruct (wf_running_facts _ _ _ Hwf Hr) as (Hnd & HrQ & HrD & HrW & HrT).
  destruct (wf_run_facts _ _ Hwf) as (HinRun & Hctx & Hsts); [by eexists|].
  destruct (readyFiberQueue_ s) as [|f0 q] eqn:Hq.
  { unfold yieldCurrentFiber. by rewrite Hr, Hq. }
  rewrite (yieldCurrentFiber_fst s r f0 q Hr Hq).
  apply (wf_enter_head (timed s)
           (set_running None
              (set_ready (f0 :: q ++ [r])
                 (update_fiber r (set_status 1)
                    (update_fiber r (set_context (Some InYield)) s)))) f0 (q ++ [r]));
    try done.
  eapply (wf_park (timed s) (timed s) s _ r
            (set_status 1 ∘ set_context (Some InYield)) Hwf Hr); try done.
  - cbn. by rewrite alter_alter_eq.
  - unfold queued, running_list. cbn.
    assert (Hperm : f0 :: ((q ++ [r]) ++ deadFiberQueue_ s) ++ waiting s
                    ≡ₚ r :: (f0 :: q) ++ deadFiberQueue_ s ++ waiting s)
      by solve_Permutation.
    unfold waiting in Hperm at 1. rewrite Hperm. apply NoDup_cons. split; [|done].
    rewrite !elem_of_app. naive_solver.
  - apply (wf_timed _ _ Hwf).
  - intros f Hf. rewrite !queued_elem_of. cbn. rewrite Hr, ?Hq.
    rewrite !elem_of_cons, elem_of_app, list_elem_of_singleton. naive_solver.
  - intros a fb Ha Har. exfalso. apply HrW. rewrite <- Har.
    by apply list_elem_of_fmap_2.
Qed.

Lemma switchFiber_fst_timer s : timer_ (switchFiber s).1 = timer_ s.
Proof. rewrite switchFiber_fst. by destruct (readyFiberQueue_ s). Qed.

Lemma switchFiber_wf' s :
  wf_gen (timed s) (set_running None s) →
  inRun s = true → context_ s = Some InRun → status_ s = 1 →
  wf (switchFiber s).1.
Proof.
  intros Hwf ???. unfold wf, timed. rewrite switchFiber_fst_timer.
  by apply switchFiber_wf.
Qed.

Lemma timed_addItem_elem_of now f duration q g :
  g ∈ owner <$> Timer_addItem now f duration q ↔ g = f ∨ g ∈ owner <$> q.
Proof. by rewrite timed_addItem, elem_of_cons. Qed.

Lemma sleepCurrentFiber_wf duration s :
  wf s → is_Some (runningFiber_ s) → wf (sleepCurrentFiber duration s).1.
Proof.
  intros Hwf [r Hr].
  destruct (wf_running_facts _ _ _ Hwf Hr) as (Hnd & HrQ & HrD & HrW & HrT).
  destruct (wf_run_facts _ _ Hwf) as (HinRun & Hctx & Hsts); [by eexists|].
  unfold sleepCurrentFiber. rewrite Hr.
  apply switchFiber_wf'; try done.
  eapply (wf_park (timed s) (owner <$> Timer_addItem (clock s) r duration (timer_ s))
            s _ r (set_status 1 ∘ set_context (Some InSleep)) Hwf Hr); try done.
  - cbn. by rewrite alter_alter_eq.
  - unfold queued, running_list. cbn. by rewrite <- app_assoc.
  - rewrite timed_addItem. apply NoDup_cons.
    split; [done | apply (wf_timed _ _ Hwf)].
  - intros f Hf. rewrite !queued_elem_of. cbn. rewrite Hr. naive_solver.
  - intros f Hf. rewrite timed_addItem_elem_of. naive_solver.
  - intros HrT' Hrq. apply queued_elem_of in Hrq. cbn in Hrq. naive_solver.
  - intros a fb Ha Har. exfalso. apply HrW. rewrite <- Har.
    by apply list_elem_of_fmap_2.
Qed.

Lemma killCurrentFiber_wf s :
  wf s → is_Some (runningFiber_ s) → wf (killCurrentFiber s).1.
Proof.
  intros Hwf [r Hr].
  destruct (wf_running_facts _ _ _ Hwf Hr) as (Hnd & HrQ & HrD & HrW & HrT).
  destruct (wf_run_facts _ _ Hwf) as (HinRun & Hctx & Hsts); [by eexists|].
  unfold killCurrentFiber. rewrite Hr.
  apply switchFiber_wf'; try done.
  eapply (wf_park (timed s) (timed s) s _ r
            (set_status 0 ∘ set_context None) Hwf Hr); try done.
  - cbn. by rewrite alter_alter_eq.
  - unfold queued, running_list. cbn.
    assert (Hperm : (readyFiberQueue_ s ++ deadFiberQueue_ s ++ [r]) ++ waiting s
                    ≡ₚ r :: readyFiberQueue_ s ++ deadFiberQueue_ s ++ waiting s)
      by solve_Permutation.
    rewrite Hperm. apply NoDup_cons. split; [|done].
    rewrite !elem_of_app. naive_solver.
  - apply (wf_timed _ _ Hwf).
  - intros f Hf. rewrite !queued_elem_of. cbn. rewrite Hr.
    rewrite elem_of_app, list_elem_of_singleton. naive_solver.
  - intros a fb Ha Har. exfalso. apply HrW. rewrite <- Har.
    by apply list_elem_of_fmap_2.
Qed.

Lemma awaitIOEvent_wf d ev timeout s :
  wf s → is_Some (runningFiber_ s) → ioIsWatched d s = true →
  wf (awaitIOEvent d ev timeout s).1.
Proof.
  intros Hwf [r Hr] Hd.
  destruct (wf_running_facts _ _ _ Hwf Hr) as (Hnd & HrQ & HrD & HrW & HrT).
  destruct (wf_run_facts _ _ Hwf) as (HinRun & Hctx & Hsts); [by eexists|].
  assert (0 ≤ d) as Hd0.
  { apply (wf_watched _ _ Hwf). by apply bool_decide_eq_true in Hd. }
  unfold awaitIOEvent. rewrite Hr.
  apply switchFiber_wf'; try done.
  eapply (wf_park (timed s) (owner <$> Timer_addItem (clock s) r timeout (timer_ s))
            s _ r (set_fd d ∘ set_status 1 ∘ set_context (Some InAwait)) Hwf Hr);
    try done.
  - cbn. by rewrite !alter_alter_eq.
  - unfold queued, running_list, waiting. cbn. rewrite fmap_app. cbn.
    assert (Hperm : (readyFiberQueue_ s ++ deadFiberQueue_ s)
                      ++ (aw_fiber <$> awaiters (ioPoll_ s)) ++ [r]
                    ≡ₚ r :: readyFiberQueue_ s ++ deadFiberQueue_ s ++ waiting s)
      by (unfold waiting; solve_Permutation).
    rewrite Hperm. apply NoDup_cons. split; [|done].
    rewrite !elem_of_app. naive_solver.
  - rewrite timed_addItem. apply NoDup_cons.
    split; [done | apply (wf_timed _ _ Hwf)].
  - intros f Hf. rewrite !queued_elem_of. cbn. rewrite Hr. naive_solver.
  - intros f Hf. rewrite timed_addItem_elem_of. naive_solver.
  - intros a Ha. cbn. rewrite elem_of_app, list_elem_of_singleton.
    split; [|by left]. intros [Hin | ->]; [done|]. by cbn in Ha.
  - intros _. rewrite timed_addItem_elem_of. by left.
  - intros HrT' Hrq. apply queued_elem_of in Hrq. cbn in Hrq. naive_solver.
  - intros a fb Ha Har. cbn in Ha. apply elem_of_app in Ha as [Ha|Ha].
    + exfalso. apply HrW. rewrite <- Har. by apply list_elem_of_fmap_2.
    + apply list_elem_of_singleton in Ha as ->. done.
  - intros fb _ Hnot. exfalso. apply Hnot. unfold waiting. cbn.
    rewrite fmap_app, elem_of_app. right. cbn. by left.
Qed.

(** *** [callCoroutine] *)

(** Linking a fiber [f] that is not parked at the tail of the ready queue. *)
Lemma wf_ready_push T s s' f :
  wf_gen T s →
  runningFiber_ s' = runningFiber_ s →
  readyFiberQueue_ s' = readyFiberQueue_ s ++ [f] →
  ioPoll_ s' = ioPoll_ s →
  inRun s' = inRun s → context_ s' = context_ s → status_ s' = status_ s →
  NoDup (queued s' ++ waiting s') →
  (∀ g, g ∈ queued s' ↔ g ∈ queued s ∨ g = f) →
  f ∉ T →
  is_Some (fibers s' !! f) →
  (∀ g, g ≠ f → fibers s' !! g = fibers s !! g) →
  (∀ fb', fibers s' !! f = Some fb' → status fb' = 0 ↔ context fb' = None) →
  wf_gen T s'.
Proof.
  intros Hwf Hr Hq Hp HinRun Hctx Hsts Hlink Hqd HfT Hlivef Hsame Hstf.
  assert (HfW : f ∉ waiting s) by (intros Hin; by apply HfT, (wf_waiting_timed _ _ Hwf)).
  constructor; try done.
  - apply (wf_timed _ _ Hwf).
  - unfold waiting. rewrite Hp. apply (wf_waiting_timed _ _ Hwf).
  - intros g Hg Hgq. apply Hqd in Hgq as [Hgq| ->]; [|done].
    by apply (wf_timed_parked _ _ Hwf g).
  - intros g Hg. destruct (decide (g = f)) as [->|Hne]; [done|].
    rewrite (Hsame g Hne). apply (wf_live _ _ Hwf).
    rewrite elem_of_app in *. rewrite Hqd in Hg. naive_solver.
  - rewrite Hp. intros a fb' Ha Hfb'.
    assert (aw_fiber a ≠ f) as Hne.
    { intros Heq. apply HfW. rewrite <- Heq. by apply list_elem_of_fmap_2. }
    rewrite (Hsame _ Hne) in Hfb'. by apply (wf_awaiter _ _ Hwf).
  - unfold waiting. rewrite Hp. intros g fb' Hg Hgw Hfb'.
    assert (g ≠ f) as Hne by (by intros ->).
    rewrite (Hsame _ Hne) in Hfb'. by apply (wf_sleeper _ _ Hwf g).
  - intros g fb' Hfb'. destruct (decide (g = f)) as [->|Hne]; [by apply Hstf|].
    rewrite (Hsame _ Hne) in Hfb'. by apply (wf_status _ _ Hwf g).
  - rewrite Hr, HinRun, Hctx, Hsts. apply (wf_run _ _ Hwf).
  - rewrite Hp. apply (wf_watched _ _ Hwf).
Qed.

Lemma callCoroutine_wf sz c region s s' :
  wf s →
  (deadFiberQueue_ s = [] → mmap_ok sz region s = true) →
  callCoroutine sz c region s = Ok s' →
  wf s'.
Proof.
  intros Hwf Hmap. unfold callCoroutine.
  pose proof (wf_linked _ _ Hwf) as Hlink.
  destruct (deadFiberQueue_ s) as [|f dead] eqn:Hdead.
  - specialize (Hmap eq_refl). unfold mmap_ok in Hmap.
    apply andb_prop in Hmap as [Hmap Hfresh]. apply andb_prop in Hmap as [Hnull _].
    apply bool_decide_eq_true in Hnull, Hfresh.
    rewrite CreateFiber_not_null by done. intros [= <-].
    set (f := fiber_at sz region) in *.
    assert (Hnew : ∀ g, g ∈ queued s ++ timed s → g ≠ f).
    { intros g Hg ->. apply (wf_live _ _ Hwf) in Hg as [? Hg]. congruence. }
    eapply (wf_ready_push (timed s) s _ f Hwf); try done.
    + unfold queued, running_list in *. cbn [runningFiber_ readyFiberQueue_
        deadFiberQueue_ set_ready set_fiberCount set_fibers].
      change (waiting _) with (waiting s).
      assert (Hperm : (option_list (runningFiber_ s) ++ (readyFiberQueue_ s ++ [f])
                         ++ deadFiberQueue_ s) ++ waiting s
                      ≡ₚ f :: (option_list (runningFiber_ s) ++ readyFiberQueue_ s
                               ++ deadFiberQueue_ s) ++ waiting s)
        by solve_Permutation.
      rewrite Hperm. apply NoDup_cons. split; [|done].
      intros Hin. apply elem_of_app in Hin as [Hin|Hin].
      * apply (Hnew f); [|done]. apply elem_of_app. by left.
      * apply (Hnew f); [|done]. apply elem_of_app. right.
        by apply (wf_waiting_timed _ _ Hwf).
    + intros g. rewrite !queued_elem_of. cbn. rewrite Hdead.
      rewrite elem_of_app, list_elem_of_singleton. naive_solver.
    + intros Hin. apply (Hnew f); [|done]. apply elem_of_app. by right.
    + cbn. rewrite lookup_insert_eq. by eexists.
    + intros g Hg. cbn. by rewrite lookup_insert_ne.
    + intros fb'. cbn. rewrite lookup_insert_eq. by intros [= <-].
  - intros [= <-].
    assert (HfT : f ∉ timed s).
    { intros Hin. apply (wf_timed_parked _ _ Hwf f Hin), queued_elem_of.
      right. right. rewrite Hdead. by left. }
    destruct (wf_live _ _ Hwf f) as [fb Hfb].
    { apply elem_of_app. left. apply queued_elem_of. right. right.
      rewrite Hdead. by left. }
    eapply (wf_ready_push (timed s) s _ f Hwf); try done.
    + unfold queued, running_list in *. cbn [runningFiber_ readyFiberQueue_
        deadFiberQueue_ set_ready set_dead update_fiber set_fibers].
      change (waiting _) with (waiting s). rewrite Hdead in Hlink.
      assert (Hperm : (option_list (runningFiber_ s) ++ (readyFiberQueue_ s ++ [f])
                         ++ dead) ++ waiting s
                      ≡ₚ (option_list (runningFiber_ s) ++ readyFiberQueue_ s
                          ++ f :: dead) ++ waiting s) by solve_Permutation.
      by rewrite Hperm.
    + intros g. rewrite !queued_elem_of. cbn. rewrite Hdead.
      rewrite elem_of_app, list_elem_of_singleton, elem_of_cons.
      destruct (decide (g = f)) as [->|]; naive_solver.
    + cbn. rewrite lookup_alter_eq, Hfb. by eexists.
    + intros g Hg. cbn. by rewrite lookup_alter_ne.
    + intros fb'. cbn. rewrite lookup_alter_eq, Hfb. intros [= <-]. cbn.
      by apply (wf_status _ _ Hwf f).
Qed.

Lemma watchIO_wf d s : wf s → 0 ≤ d → wf (watchIO d s).
Proof.
  intros [Hlink HTn Hwt Hpark Hlive Haw Hsl Hst Hrun Hwd] Hd.
  constructor; try done.
  intros d'. cbn. rewrite elem_of_union, elem_of_singleton.
  intros [->|?]; [done | by apply Hwd].
Qed.

(** *** [run] *)

Lemma run_reap_fold D : ∀ s,
  foldl (λ s fiber, set_fiberCount (fiberCount_ s - 1) (DestroyFiber fiber s)) s D
  = set_fiberCount (fiberCount_ s - Z.of_nat (length D))
      (set_fibers (foldl (λ m f, delete f m) (fibers s) D) s).
Proof.
  induction D as [|x D IH]; intros s; cbn [foldl length].
  - replace (fiberCount_ s - Z.of_nat 0) with (fiberCount_ s) by lia. by destruct s.
  - rewrite IH. cbn [fiberCount_ fibers set_fiberCount set_fibers DestroyFiber].
    replace (fiberCount_ s - 1 - Z.of_nat (length D))
      with (fiberCount_ s - Z.of_nat (S (length D))) by lia.
    reflexivity.
Qed.

Lemma delete_all_lookup D : ∀ (m : gmap Z Fiber) f,
  foldl (λ m f, delete f m) m D !! f = if decide (f ∈ D) then None else m !! f.
Proof.
  induction D as [|x D IH]; intros m f; cbn [foldl].
  - case_decide as Hf; [by apply elem_of_nil in Hf | done].
  - rewrite IH. destruct (decide (f ∈ D)) as [Hf|Hf].
    + by rewrite decide_True by by right.
    + destruct (decide (x = f)) as [->|Hne].
      * rewrite lookup_delete_eq. by rewrite decide_True by by left.
      * rewrite lookup_delete_ne by done. rewrite decide_False; [done|].
        rewrite not_elem_of_cons. naive_solver.
Qed.

Lemma run_reap_wf s : wf s → wf (run_reap s).
Proof.
  intros Hwf. unfold run_reap. rewrite run_reap_fold.
  pose proof (wf_linked _ _ Hwf) as Hlink.
  unfold queued in Hlink. rewrite <- !app_assoc in Hlink.
  apply NoDup_app in Hlink as (HndR & HRrest & Hlink).
  apply NoDup_app in Hlink as (HndQ & HQrest & Hlink).
  apply NoDup_app in Hlink as (HndD & HDW & HndW).
  assert (Hsub : ∀ f fb, fibers (set_dead []
                           (set_fiberCount (fiberCount_ s - Z.of_nat (length (deadFiberQueue_ s)))
                              (set_fibers (foldl (λ m f, delete f m) (fibers s)
                                             (deadFiberQueue_ s)) s))) !! f = Some fb →
                         fibers s !! f = Some fb).
  { intros f fb. cbn. rewrite delete_all_lookup. by case_decide. }
  assert (Hkeep : ∀ f, f ∈ running_list s ++ readyFiberQueue_ s ++ timed s →
             f ∉ deadFiberQueue_ s).
  { intros f Hf HfD. rewrite !elem_of_app in Hf. destruct Hf as [Hf|[Hf|Hf]].
    - apply (HRrest f Hf). rewrite !elem_of_app. naive_solver.
    - apply (HQrest f Hf). rewrite !elem_of_app. naive_solver.
    - apply (wf_timed_parked _ _ Hwf f Hf). unfold queued. rewrite !elem_of_app.
      naive_solver. }
  constructor.
  - unfold queued. cbn. rewrite app_nil_r, <- app_assoc.
    apply NoDup_app. split; [done|]. split.
    + intros x Hx. specialize (HRrest x Hx). rewrite !elem_of_app in *. naive_solver.
    + apply NoDup_app. split; [done|]. split; [|done].
      intros x Hx. specialize (HQrest x Hx). rewrite !elem_of_app in *. naive_solver.
  - apply (wf_timed _ _ Hwf).
  - apply (wf_waiting_timed _ _ Hwf).
  - intros f Hf. pose proof (wf_timed_parked _ _ Hwf f Hf) as Hnot.
    unfold queued in *. cbn. rewrite !elem_of_app in *. rewrite elem_of_nil. naive_solver.
  - intros f Hf. cbn. rewrite delete_all_lookup.
    unfold queued in Hf. cbn in Hf. rewrite app_nil_r in Hf.
    rewrite decide_False.
    + apply (wf_live _ _ Hwf). unfold queued. rewrite !elem_of_app in *. naive_solver.
    + apply Hkeep. rewrite !elem_of_app in *. naive_solver.
  - intros a fb Ha Hfb. apply Hsub in Hfb. by apply (wf_awaiter _ _ Hwf).
  - intros f fb Hf Hfw Hfb. apply Hsub in Hfb. by apply (wf_sleeper _ _ Hwf f).
  - intros f fb Hfb. apply Hsub in Hfb. by apply (wf_status _ _ Hwf f).
  - apply (wf_run _ _ Hwf).
  - apply (wf_watched _ _ Hwf).
Qed.

Lemma run_dispatch_fst s :
  (run_dispatch s).1
  = match readyFiberQueue_ s with
    | [] => s
    | f :: q => set_running (Some f) (set_ready q (set_runContext (Some InRun) 1 s))
    end.
Proof.
  unfold run_dispatch. destruct (readyFiberQueue_ s); [done|].
  by rewrite executeFiber_fst.
Qed.

Lemma run_dispatch_wf s :
  wf s → runningFiber_ s = None → inRun s = true → wf (run_dispatch s).1.
Proof.
  intros Hwf Hr HinRun. rewrite run_dispatch_fst.
  destruct (readyFiberQueue_ s) as [|f q] eqn:Hq; [done|].
  apply (wf_enter_head (timed s) (set_runContext (Some InRun) 1 s) f q); try done.
  destruct Hwf. by constructor.
Qed.

Lemma wf_set_inRun b s : wf s → runningFiber_ s = None → wf (set_inRun b s).
Proof.
  intros [] Hr. constructor; try done. cbn. rewrite Hr. by intros [? ?].
Qed.

Lemma run_enter_wf s : wf s → runningFiber_ s = None → wf (run_enter s).1.
Proof.
  intros Hwf Hr. unfold run_enter. rewrite Hr.
  destruct (fiberCount_ s =? 0); [done|].
  apply run_dispatch_wf; try done. by apply wf_set_inRun.
Qed.

Lemma run_timer_fold_frame buf : ∀ s,
  runningFiber_ (foldl run_timer_item s buf) = runningFiber_ s
  ∧ inRun (foldl run_timer_item s buf) = inRun s.
Proof.
  induction buf as [|f buf IH]; intros s; cbn [foldl]; [done|].
  destruct (IH (run_timer_item s f)) as [-> ->]. unfold run_timer_item.
  destruct (fibers s !! f) as [fb|]; [|done]. by destruct (0 <=? fd fb).
Qed.

Lemma run_timer_frame s :
  runningFiber_ (run_timer s) = runningFiber_ s ∧ inRun (run_timer s) = inRun s.
Proof.
  unfold run_timer. destruct (Timer_removeDueItems _ _ _) as [buffer rest].
  by destruct (run_timer_fold_frame buffer (set_timer rest s)) as [-> ->].
Qed.

Lemma run_poll_frame ready s :
  runningFiber_ (run_poll ready s) = runningFiber_ s
  ∧ inRun (run_poll ready s) = inRun s.
Proof. unfold run_poll, IOPoll_waitForEvents. by rewrite run_poll_fold. Qed.

Lemma run_rounds_wf ready s :
  wf s → runningFiber_ s = None → inRun s = true →
  wf (run_dispatch (run_timer (run_poll ready s))).1.
Proof.
  intros Hwf Hr HinRun.
  destruct (run_poll_frame ready s) as [Hr1 Hi1].
  destruct (run_timer_frame (run_poll ready s)) as [Hr2 Hi2].
  apply run_dispatch_wf.
  - by apply run_timer_wf, run_poll_wf.
  - by rewrite Hr2, Hr1.
  - by rewrite Hi2, Hi1.
Qed.

Lemma run_iteration_wf ready s :
  wf s → runningFiber_ s = None → inRun s = true →
  wf (run_iteration ready s).1.
Proof.
  intros Hwf Hr HinRun. unfold run_iteration.
  destruct (deadFiberQueue_ s) as [|f D] eqn:HD; [by apply run_rounds_wf|].
  assert (runningFiber_ (run_reap s) = None ∧ inRun (run_reap s) = true) as [Hr' Hi'].
  { unfold run_reap. by rewrite run_reap_fold. }
  destruct (fiberCount_ (run_reap s) =? 0).
  - apply wf_set_inRun; [by apply run_reap_wf | done].
  - apply run_rounds_wf; [by apply run_reap_wf | done | done].
Qed.

(** *** Every step keeps the invariant *)

Lemma step_wf sz e s s' t : wf s → step sz e s = Some (s', t) → wf s'.
Proof.
  intros Hwf. destruct e as [dt|c region| |duration|d ev timeout| |d|d| |ready];
    cbn [step].
  - case_bool_decide; [|done]. intros [= <- <-]. by apply wf_gen_set_clock.
  - destruct (user_code s && _) eqn:Hg; [|done].
    apply andb_prop in Hg as [_ Hg].
    destruct (callCoroutine sz c region s) as [s1|] eqn:Hcall; [|done].
    intros [= <- <-]. eapply callCoroutine_wf; [done| |done].
    intros Hdead. rewrite Hdead in Hg.
    rewrite bool_decide_eq_false_2 in Hg by (by intros Hne); done.
  - case_bool_decide as Hr; [|done]. intros Hs.
    change s' with ((s', t).1). injection Hs as <-.
    by apply land_wf, yieldCurrentFiber_wf.
  - case_bool_decide as Hr; [|done]. intros Hs.
    change s' with ((s', t).1). injection Hs as <-.
    by apply land_wf, sleepCurrentFiber_wf.
  - destruct (bool_decide _ && _) eqn:Hg; [|done].
    apply andb_prop in Hg as [Hr Hd]. apply bool_decide_eq_true in Hr.
    intros Hs. change s' with ((s', t).1). injection Hs as <-.
    by apply land_wf, awaitIOEvent_wf.
  - case_bool_decide as Hr; [|done]. intros Hs.
    change s' with ((s', t).1). injection Hs as <-.
    by apply land_wf, killCurrentFiber_wf.
  - destruct (user_code s && _) eqn:Hg; [|done].
    apply andb_prop in Hg as [_ Hd]. apply bool_decide_eq_true in Hd.
    intros [= <- <-]. by apply watchIO_wf.
  - destruct (user_code s); [|done]. intros [= <- <-]. by apply unwatchIO_wf.
  - destruct (bool_decide _ && _) eqn:Hg; [|done].
    apply andb_prop in Hg as [Hr _]. apply bool_decide_eq_true in Hr.
    intros Hs. change s' with ((s', t).1). injection Hs as <-.
    by apply land_wf, run_enter_wf.
  - destruct (bool_decide _ && _) eqn:Hg; [|done].
    apply andb_prop in Hg as [Hr Hi]. apply bool_decide_eq_true in Hr.
    intros Hs. change s' with ((s', t).1). injection Hs as <-.
    by apply land_wf, run_iteration_wf.
Qed.

Lemma Scheduler_new_wf e c : wf (Scheduler_new e c).
Proof.
  constructor; cbn; try done; try apply NoDup_nil_2;
    intros f Hf; by apply elem_of_nil in Hf.
Qed.

Lemma reachable_wf sz s : reachable sz s → wf s.
Proof.
  induction 1 as [e c | s e s' t _ IH Hstep]; [apply Scheduler_new_wf|].
  by eapply step_wf.
Qed.

(** ** Transfers *)

Lemma switchFiber_fst_fibers s : fibers (switchFiber s).1 = fibers s.
Proof. rewrite switchFiber_fst. by destruct (readyFiberQueue_ s). Qed.

(** Entering a fiber whose record is live and satisfies the status
    invariant. *)
Lemma executeFiber_enters T f s :
  wf_gen T (executeFiber f s).1 →
  ∃ fb, fibers s !! f = Some fb
        ∧ (executeFiber f s).2
          = match context fb with
            | None => Bootstrap f
            | Some site => Longjmp f site (status fb)
            end
        ∧ (context fb ≠ None → status fb ≠ 0)
        ∧ dispatched (executeFiber f s).2 = Some f.
Proof.
  rewrite executeFiber_fst. intros Hwf.
  destruct (wf_running_live _ _ f Hwf) as [fb Hfb]; [done|]. cbn in Hfb.
  pose proof (wf_status _ _ Hwf f fb Hfb) as Hst.
  destruct (executeFiber_snd f s fb Hfb Hst) as [Ht Hne].
  exists fb. split; [done|]. split; [done|]. split.
  - destruct (context fb) as [site|]; [|done]. intros _. by apply (Hne site).
  - rewrite Ht. by destruct (context fb).
Qed.

Lemma execute_snd s : dispatched (execute s).2 = None.
Proof.
  unfold execute. cbn [context_ status_ set_running].
  destruct (context_ s); [|done]. by destruct (status_ s =? 0).
Qed.

Lemma land_snd r : (land r).2 = r.2.
Proof.
  destruct r as [s t]. unfold land.
  destruct t as [| |f site st| | | | |]; try done. by destruct site.
Qed.

Lemma land_fst_ready r : readyFiberQueue_ (land r).1 = readyFiberQueue_ r.1.
Proof.
  destruct r as [s t]. unfold land.
  destruct t as [| |f site st| | | | |]; try done.
  destruct site; try done. unfold awaitIOEvent_resume. by destruct (st <? 0).
Qed.

Lemma land_fst_fibers r : fibers (land r).1 = fibers r.1.
Proof.
  destruct r as [s t]. unfold land.
  destruct t as [| |f site st| | | | |]; try done.
  destruct site; try done. unfold awaitIOEvent_resume. by destruct (st <? 0).
Qed.

(** ** What one step does to the ready queue and to the ready fibers *)

Lemma wf_ready_facts T s f :
  wf_gen T s → f ∈ readyFiberQueue_ s →
  runningFiber_ s ≠ Some f ∧ (f ∉ deadFiberQueue_ s) ∧ (f ∉ waiting s) ∧ (f ∉ T)
  ∧ NoDup (readyFiberQueue_ s).
Proof.
  intros Hwf Hf. pose proof (wf_linked _ _ Hwf) as Hlink.
  unfold queued in Hlink. rewrite <- !app_assoc in Hlink.
  apply NoDup_app in Hlink as (HndR & HRrest & Hlink).
  apply NoDup_app in Hlink as (HndQ & HQrest & Hlink).
  specialize (HQrest f Hf). rewrite elem_of_app in HQrest.
  split; [|split; [|split; [|split]]]; try naive_solver.
  - intros Hr. apply (HRrest f).
    + unfold running_list. rewrite Hr. by left.
    + rewrite !elem_of_app. by left.
  - intros HfT. apply (wf_timed_parked _ _ Hwf f HfT), queued_elem_of. naive_solver.
Qed.

Lemma land_summary ready mem r extra :
  summary ready mem r extra → summary ready mem (land r) extra.
Proof.
  unfold summary. by rewrite land_snd, land_fst_fibers, land_fst_ready.
Qed.

Lemma executeFiber_summary T f s ready mem extra :
  wf_gen T (executeFiber f s).1 →
  (∀ g, g ∈ ready → fibers s !! g = mem !! g) →
  ready ++ extra = f :: readyFiberQueue_ s →
  summary ready mem (executeFiber f s) extra.
Proof.
  intros Hwf Hmem Hq.
  destruct (executeFiber_enters T f s Hwf) as (fb & Hfb & Ht & Hne & Hd).
  unfold summary. rewrite Hd, executeFiber_fst. cbn [fibers readyFiberQueue_ set_running].
  split; [done|]. split; [done|]. exists fb. done.
Qed.

Lemma switchFiber_summary T s ready mem extra :
  wf_gen T (switchFiber s).1 →
  context_ s = Some InRun → status_ s = 1 →
  (∀ g, g ∈ ready → fibers s !! g = mem !! g) →
  ready ++ extra = readyFiberQueue_ s →
  summary ready mem (switchFiber s) extra.
Proof.
  intros Hwf Hctx Hsts Hmem Hq. unfold switchFiber in *.
  destruct (readyFiberQueue_ s) as [|f q] eqn:Hrq.
  - unfold summary. rewrite execute_snd, execute_fst.
    cbn [fibers readyFiberQueue_ set_running]. split; [done|].
    split; [by rewrite Hrq|]. unfold execute. cbn [context_ status_ set_running].
    rewrite Hctx, Hsts. done.
  - by apply (executeFiber_summary T).
Qed.

Lemma yieldCurrentFiber_summary s :
  wf s → is_Some (runningFiber_ s) →
  ∃ extra, summary (readyFiberQueue_ s) (fibers s) (yieldCurrentFiber s) extra.
Proof.
  intros Hwf [r Hr].
  pose proof (yieldCurrentFiber_wf s Hwf (ltac:(by eexists))) as Hwf'.
  unfold yieldCurrentFiber in *. rewrite Hr in *.
  destruct (readyFiberQueue_ s) as [|f0 q] eqn:Hq.
  - exists []. unfold summary. cbn. by rewrite Hq.
  - exists [r]. cbn [readyFiberQueue_ set_ready update_fiber set_fibers] in *.
    rewrite Hq in *. cbn [app] in *.
    eapply executeFiber_summary; [exact Hwf' | | done].
    intros g Hg. cbn. rewrite <- Hq in Hg.
    destruct (wf_ready_facts _ _ g Hwf Hg) as (Hgr & _).
    rewrite !lookup_alter_ne; [done | |]; intros ->; by apply Hgr.
Qed.

Lemma sleepCurrentFiber_summary duration s :
  wf s → is_Some (runningFiber_ s) →
  summary (readyFiberQueue_ s) (fibers s) (sleepCurrentFiber duration s) [].
Proof.
  intros Hwf [r Hr].
  pose proof (sleepCurrentFiber_wf duration s Hwf (ltac:(by eexists))) as Hwf'.
  destruct (wf_run_facts _ _ Hwf) as (HinRun & Hctx & Hsts); [by eexists|].
  unfold sleepCurrentFiber in *. rewrite Hr in *.
  eapply switchFiber_summary; [exact Hwf' | done | done | | by rewrite app_nil_r].
  intros g Hg. cbn. destruct (wf_ready_facts _ _ g Hwf Hg) as (Hgr & _).
  rewrite !lookup_alter_ne; [done | |]; intros ->; by apply Hgr.
Qed.

Lemma killCurrentFiber_summary s :
  wf s → is_Some (runningFiber_ s) →
  summary (readyFiberQueue_ s) (fibers s) (killCurrentFiber s) [].
Proof.
  intros Hwf [r Hr].
  pose proof (killCurrentFiber_wf s Hwf (ltac:(by eexists))) as Hwf'.
  destruct (wf_run_facts _ _ Hwf) as (HinRun & Hctx & Hsts); [by eexists|].
  unfold killCurrentFiber in *. rewrite Hr in *.
  eapply switchFiber_summary; [exact Hwf' | done | done | | by rewrite app_nil_r].
  intros g Hg. cbn. destruct (wf_ready_facts _ _ g Hwf Hg) as (Hgr & _).
  rewrite !lookup_alter_ne; [done | |]; intros ->; by apply Hgr.
Qed.

Lemma awaitIOEvent_summary d ev timeout s :
  wf s → is_Some (runningFiber_ s) → ioIsWatched d s = true →
  summary (readyFiberQueue_ s) (fibers s) (awaitIOEvent d ev timeout s) [].
Proof.
  intros Hwf [r Hr] Hd.
  pose proof (awaitIOEvent_wf d ev timeout s Hwf (ltac:(by eexists)) Hd) as Hwf'.
  destruct (wf_run_facts _ _ Hwf) as (HinRun & Hctx & Hsts); [by eexists|].
  unfold awaitIOEvent in *. rewrite Hr in *.
  eapply switchFiber_summary; [exact Hwf' | done | done | | by rewrite app_nil_r].
  intros g Hg. cbn. destruct (wf_ready_facts _ _ g Hwf Hg) as (Hgr & _).
  rewrite !lookup_alter_ne; [done | | |]; intros ->; by apply Hgr.
Qed.

Lemma callCoroutine_summary sz c region s s' :
  wf s →
  (deadFiberQueue_ s = [] → mmap_ok sz region s = true) →
  callCoroutine sz c region s = Ok s' →
  ∃ extra, summary (readyFiberQueue_ s) (fibers s) (s', Returned) extra.
Proof.
  intros Hwf Hmap. unfold callCoroutine, summary. cbn [fst snd dispatched].
  destruct (deadFiberQueue_ s) as [|f dead] eqn:Hdead.
  - specialize (Hmap eq_refl). unfold mmap_ok in Hmap.
    apply andb_prop in Hmap as [Hmap Hfresh]. apply andb_prop in Hmap as [Hnull _].
    apply bool_decide_eq_true in Hnull, Hfresh.
    rewrite CreateFiber_not_null by done. intros [= <-].
    exists [fiber_at sz region]. cbn. split; [|done].
    intros g Hg. apply lookup_insert_ne. intros <-.
    destruct (wf_live _ _ Hwf (fiber_at sz region)) as [? Hlive]; [|congruence].
    apply elem_of_app. left. apply queued_elem_of. naive_solver.
  - intros [= <-]. exists [f]. cbn. split; [|done].
    intros g Hg. apply lookup_alter_ne. intros <-.
    destruct (wf_ready_facts _ _ f Hwf Hg) as (_ & HfD & _).
    apply HfD. rewrite Hdead. by left.
Qed.

Lemma unwatchIO_summary d s :
  wf s → ∃ extra, summary (readyFiberQueue_ s) (fibers s) (unwatchIO d s, Returned) extra.
Proof.
  intros Hwf. unfold unwatchIO, IOPoll_removeEventAwaiters. rewrite unwatchIO_fold.
  eexists. unfold summary. cbn. split; [|done].
  intros g Hg. rewrite alter_all_lookup by done. rewrite decide_False; [done|].
  destruct (wf_ready_facts _ _ g Hwf Hg) as (_ & _ & HgW & _).
  intros Hin. apply HgW. apply list_elem_of_fmap in Hin as (a & -> & Ha).
  apply list_elem_of_filter in Ha as [_ Ha]. by apply list_elem_of_fmap_2.
Qed.

Lemma run_reap_frame s f :
  wf s → f ∈ readyFiberQueue_ s →
  readyFiberQueue_ (run_reap s) = readyFiberQueue_ s
  ∧ fibers (run_reap s) !! f = fibers s !! f.
Proof.
  intros Hwf Hf. unfold run_reap. rewrite run_reap_fold. cbn. split; [done|].
  rewrite delete_all_lookup, decide_False; [done|].
  by destruct (wf_ready_facts _ _ f Hwf Hf) as (_ & ? & _).
Qed.

Lemma run_reap_ready s : readyFiberQueue_ (run_reap s) = readyFiberQueue_ s.
Proof. unfold run_reap. by rewrite run_reap_fold. Qed.

Lemma run_poll_ready_frame ready s :
  wf s →
  ∃ woken, readyFiberQueue_ (run_poll ready s) = readyFiberQueue_ s ++ woken
    ∧ ∀ f, f ∈ readyFiberQueue_ s → fibers (run_poll ready s) !! f = fibers s !! f.
Proof.
  intros Hwf. unfold run_poll, IOPoll_waitForEvents. rewrite run_poll_fold.
  eexists. cbn. split; [done|].
  intros g Hg. rewrite alter_all_lookup by done. rewrite decide_False; [done|].
  destruct (wf_ready_facts _ _ g Hwf Hg) as (_ & _ & HgW & _).
  intros Hin. apply HgW. apply list_elem_of_fmap in Hin as (a & -> & Ha).
  apply list_elem_of_filter in Ha as [_ Ha]. by apply list_elem_of_fmap_2.
Qed.

Lemma run_timer_fold_ready_frame buf : ∀ s,
  readyFiberQueue_ (foldl run_timer_item s buf) = readyFiberQueue_ s ++ buf
  ∧ ∀ f, f ∉ buf → fibers (foldl run_timer_item s buf) !! f = fibers s !! f.
Proof.
  induction buf as [|x buf IH]; intros s; cbn [foldl].
  - by rewrite app_nil_r.
  - destruct (IH (run_timer_item s x)) as [-> Hframe].
    assert (readyFiberQueue_ (run_timer_item s x) = readyFiberQueue_ s ++ [x]
            ∧ ∀ f, f ≠ x → fibers (run_timer_item s x) !! f = fibers s !! f)
      as [-> Hx].
    { unfold run_timer_item. destruct (fibers s !! x) as [fb|]; [|done].
      destruct (0 <=? fd fb); [|done]. cbn. split; [done|].
      intros f Hf. by rewrite !lookup_alter_ne. }
    split; [by rewrite <- app_assoc|].
    intros f Hf. rewrite not_elem_of_cons in Hf. destruct Hf as [Hfx Hfb].
    by rewrite Hframe, Hx.
Qed.

Lemma run_timer_ready_frame s :
  wf s →
  ∃ buffer, readyFiberQueue_ (run_timer s) = readyFiberQueue_ s ++ buffer
    ∧ ∀ f, f ∈ readyFiberQueue_ s → fibers (run_timer s) !! f = fibers s !! f.
Proof.
  intros Hwf. unfold run_timer.
  destruct (Timer_removeDueItems (clock s) 1024 (timer_ s)) as [buffer rest] eqn:Hrm.
  destruct (run_timer_fold_ready_frame buffer (set_timer rest s)) as [Hq Hframe].
  exists buffer. split; [done|]. intros f Hf. rewrite Hframe; [done|].
  destruct (wf_ready_facts _ _ f Hwf Hf) as (_ & _ & _ & HfT & _).
  intros Hin. apply HfT. apply Timer_removeDueItems_perm in Hrm.
  unfold timed. rewrite Hrm, elem_of_app. by left.
Qed.

Lemma run_dispatch_summary s ready mem extra :
  wf (run_dispatch s).1 →
  (∀ g, g ∈ ready → fibers s !! g = mem !! g) →
  ready ++ extra = readyFiberQueue_ s →
  summary ready mem (run_dispatch s) extra.
Proof.
  intros Hwf Hmem Hq. unfold run_dispatch in *.
  destruct (readyFiberQueue_ s) as [|f q] eqn:Hrq.
  - unfold summary. cbn. by rewrite Hrq.
  - by apply (executeFiber_summary _ _ _ _ _ _ Hwf).
Qed.

Lemma run_enter_summary s :
  wf s → runningFiber_ s = None →
  summary (readyFiberQueue_ s) (fibers s) (run_enter s) [].
Proof.
  intros Hwf Hr. pose proof (run_enter_wf s Hwf Hr) as Hwf'.
  unfold run_enter in *. rewrite Hr in *.
  destruct (fiberCount_ s =? 0).
  - unfold summary. cbn. by rewrite app_nil_r.
  - apply run_dispatch_summary; [done | done | by rewrite app_nil_r].
Qed.

Lemma run_rounds_summary ready s :
  wf s → runningFiber_ s = None → inRun s = true →
  ∃ extra, summary (readyFiberQueue_ s) (fibers s)
             (run_dispatch (run_timer (run_poll ready s))) extra.
Proof.
  intros Hwf Hr HinRun.
  pose proof (run_rounds_wf ready s Hwf Hr HinRun) as Hwf'.
  destruct (run_poll_ready_frame ready s Hwf) as (woken & Hq1 & Hf1).
  destruct (run_timer_ready_frame (run_poll ready s) (run_poll_wf ready s Hwf))
    as (buffer & Hq2 & Hf2).
  exists (woken ++ buffer). apply run_dispatch_summary; [done | |].
  - intros g Hg. rewrite Hf2, Hf1; [done | done |]. rewrite Hq1, elem_of_app. by left.
  - by rewrite Hq2, Hq1, app_assoc.
Qed.

Lemma run_iteration_summary ready s :
  wf s → runningFiber_ s = None → inRun s = true →
  ∃ extra, summary (readyFiberQueue_ s) (fibers s) (run_iteration ready s) extra.
Proof.
  intros Hwf Hr HinRun. unfold run_iteration.
  destruct (deadFiberQueue_ s) as [|f D] eqn:HD; [by apply run_rounds_summary|].
  assert (runningFiber_ (run_reap s) = None ∧ inRun (run_reap s) = true) as [Hr' Hi'].
  { unfold run_reap. by rewrite run_reap_fold. }
  assert (Hframe : ∀ g, g ∈ readyFiberQueue_ s →
                        fibers (run_reap s) !! g = fibers s !! g).
  { intros g Hg. by apply run_reap_frame. }
  destruct (fiberCount_ (run_reap s) =? 0).
  - exists []. unfold summary. cbn [fst snd dispatched fibers readyFiberQueue_ set_inRun].
    split; [done|]. by rewrite run_reap_ready, app_nil_r.
  - destruct (run_rounds_summary ready (run_reap s) (run_reap_wf s Hwf) Hr' Hi')
      as (extra & Hmem & Hshape).
    exists extra. rewrite run_reap_ready in *. split; [|done].
    intros g Hg. by rewrite Hmem, Hframe.
Qed.

(** The summary of every step. *)
Lemma step_summary sz e s s' t :
  wf s → step sz e s = Some (s', t) →
  ∃ extra, summary (readyFiberQueue_ s) (fibers s) (s', t) extra.
Proof.
  intros Hwf. destruct e as [dt|c region| |duration|d ev timeout| |d|d| |ready];
    cbn [step].
  - case_bool_decide; [|done]. intros [= <- <-]. exists [].
    unfold summary. cbn. by rewrite app_nil_r.
  - destruct (user_code s && _) eqn:Hg; [|done].
    apply andb_prop in Hg as [_ Hg].
    destruct (callCoroutine sz c region s) as [s1|] eqn:Hcall; [|done].
    intros [= <- <-]. eapply callCoroutine_summary; [done| |done].
    intros Hdead. rewrite Hdead in Hg.
    rewrite bool_decide_eq_false_2 in Hg by (by intros Hne); done.
  - case_bool_decide as Hr; [|done]. intros [= <-].
    destruct (yieldCurrentFiber_summary s Hwf Hr) as [extra Hsum].
    exists extra. by apply land_summary.
  - case_bool_decide as Hr; [|done]. intros [= <-].
    exists []. by apply land_summary, sleepCurrentFiber_summary.
  - destruct (bool_decide _ && _) eqn:Hg; [|done].
    apply andb_prop in Hg as [Hr Hd]. apply bool_decide_eq_true in Hr.
    intros [= <-]. exists []. by apply land_summary, awaitIOEvent_summary.
  - case_bool_decide as Hr; [|done]. intros [= <-].
    exists []. by apply land_summary, killCurrentFiber_summary.
  - destruct (user_code s && _) eqn:Hg; [|done]. intros [= <- <-]. exists [].
    unfold summary. cbn. by rewrite app_nil_r.
  - destruct (user_code s); [|done]. intros [= <- <-]. by apply unwatchIO_summary.
  - destruct (bool_decide _ && _) eqn:Hg; [|done].
    apply andb_prop in Hg as [Hr _]. apply bool_decide_eq_true in Hr.
    intros [= <-]. exists []. by apply land_summary, run_enter_summary.
  - destruct (bool_decide _ && _) eqn:Hg; [|done].
    apply andb_prop in Hg as [Hr Hi]. apply bool_decide_eq_true in Hr.
    intros [= <-]. destruct (run_iteration_summary ready s Hwf Hr Hi) as [extra Hsum].
    exists extra. by apply land_summary.
Qed.

(** ** Runs *)

Lemma run_events_cons sz e es s s' ts :
  run_events sz (e :: es) s = Some (s', ts) →
  ∃ s1 t ts', step sz e s = Some (s1, t) ∧ run_events sz es s1 = Some (s', ts')
              ∧ ts = t :: ts'.
Proof.
  cbn [run_events]. destruct (step sz e s) as [[s1 t]|]; [|done].
  destruct (run_events sz es s1) as [[s2 ts']|] eqn:Hrun; [|done].
  intros [= <- <-]. by exists s1, t, ts'.
Qed.

(** A ready fiber stays ready, its record untouched, until it is entered; it
    is then entered the way its record says. *)
Lemma ready_until_entered sz es : ∀ s s' ts f fb t,
  wf s → f ∈ readyFiberQueue_ s → fibers s !! f = Some fb →
  run_events sz es s = Some (s', ts) →
  first_entry f ts = Some t →
  t = transfer_of f fb.
Proof.
  induction es as [|e es IH]; intros s s' ts f fb t Hwf Hf Hfb Hrun Hfirst.
  - injection Hrun as <- <-. done.
  - apply run_events_cons in Hrun as (s1 & t1 & ts' & Hstep & Hrun & ->).
    destruct (step_summary sz e s s1 t1 Hwf Hstep) as (extra & Hmem & Hshape).
    cbn [fst snd] in *. unfold first_entry in Hfirst. rewrite filter_cons in Hfirst.
    destruct (decide (dispatched t1 = Some f)) as [Hd|Hd].
    + injection Hfirst as <-. rewrite Hd in Hshape.
      destruct Hshape as (_ & fb' & Hfb' & -> & _).
      rewrite (Hmem f Hf), Hfb in Hfb'. by injection Hfb' as <-.
    + eapply (IH s1 s' ts' f fb t); [by eapply step_wf | | | done | done].
      * destruct (dispatched t1) as [h|].
        -- destruct Hshape as (Hq & _).
           assert (f ∈ h :: readyFiberQueue_ s1) as Hin
             by (rewrite <- Hq, elem_of_app; by left).
           apply elem_of_cons in Hin as [->|Hin]; [done | done].
        -- destruct Hshape as (-> & _). rewrite elem_of_app. by left.
      * by rewrite (Hmem f Hf).
Qed.

(** The ready queue is first in, first out: the fibers ahead of [r] in the
    ready queue are all entered before [r] is. *)
Lemma ready_fifo sz es : ∀ s s' ts l1 l2 r ds1 ds2,
  wf s → readyFiberQueue_ s = l1 ++ r :: l2 → r ∉ l1 →
  run_events sz es s = Some (s', ts) →
  omap dispatched ts = ds1 ++ r :: ds2 → r ∉ ds1 →
  ∀ f, f ∈ l1 → f ∈ ds1.
Proof.
  induction es as [|e es IH]; intros s s' ts l1 l2 r ds1 ds2 Hwf Hq Hr Hrun Hds Hds1.
  - injection Hrun as <- <-. by destruct ds1.
  - apply run_events_cons in Hrun as (s1 & t1 & ts' & Hstep & Hrun & ->).
    destruct (step_summary sz e s s1 t1 Hwf Hstep) as (extra & _ & Hshape).
    pose proof (step_wf sz e s s1 t1 Hwf Hstep) as Hwf1.
    cbn [fst snd omap list_omap] in *.
    destruct (dispatched t1) as [h|].
    + destruct Hshape as (Hq1 & _). rewrite Hq in Hq1.
      destruct l1 as [|x l1]; [by intros f Hf; apply elem_of_nil in Hf|].
      cbn in Hq1. injection Hq1 as -> Hq1.
      rewrite not_elem_of_cons in Hr. destruct Hr as [Hrx Hr].
      destruct ds1 as [|y ds1]; [cbn in Hds; congruence|].
      cbn in Hds. injection Hds as <- Hds.
      rewrite not_elem_of_cons in Hds1. destruct Hds1 as [_ Hds1].
      intros f Hf. apply elem_of_cons in Hf as [->|Hf]; [by left|]. right.
      eapply (IH s1 s' ts' l1 (l2 ++ extra) r ds1 ds2); try done.
      by rewrite <- Hq1, <- app_assoc.
    + destruct Hshape as (Hq1 & _).
      eapply (IH s1 s' ts' l1 (l2 ++ extra) r ds1 ds2); try done.
      by rewrite Hq1, Hq, <- app_assoc.
Qed.

Lemma first_entry_here f t ts :
  dispatched t = Some f → first_entry f (t :: ts) = Some t.
Proof. intros Hd. unfold first_entry. by rewrite filter_cons, decide_True. Qed.

Lemma first_entry_skip f t ts :
  dispatched t ≠ Some f → first_entry f (t :: ts) = first_entry f ts.
Proof. intros Hd. unfold first_entry. by rewrite filter_cons, decide_False. Qed.

(** The same from a step whose summary is known: the step itself may be the
    one that enters the fiber. *)
Lemma ready_until_entered_from sz ready mem r extra f fb es s' ts t :
  summary ready mem r extra → wf r.1 →
  f ∈ ready → mem !! f = Some fb →
  run_events sz es r.1 = Some (s', ts) →
  first_entry f (r.2 :: ts) = Some t →
  t = transfer_of f fb.
Proof.
  intros (Hmem & Hshape) Hwf Hf Hfb Hrun Hfirst.
  destruct (decide (dispatched r.2 = Some f)) as [Hd|Hd].
  - rewrite (first_entry_here _ _ _ Hd) in Hfirst. injection Hfirst as <-.
    rewrite Hd in Hshape. destruct Hshape as (_ & fb' & Hfb' & -> & _).
    rewrite (Hmem f Hf), Hfb in Hfb'. by injection Hfb' as <-.
  - rewrite (first_entry_skip _ _ _ Hd) in Hfirst.
    eapply (ready_until_entered sz es r.1 s' ts f fb t); try done.
    + destruct (dispatched r.2) as [h|].
      * destruct Hshape as (Hq & _).
        assert (f ∈ h :: readyFiberQueue_ r.1) as Hin
          by (rewrite <- Hq, elem_of_app; by left).
        apply elem_of_cons in Hin as [->|Hin]; done.
      * destruct Hshape as (-> & _). rewrite elem_of_app. by left.
    + by rewrite (Hmem f Hf).
Qed.

Lemma land_fst_running r : runningFiber_ (land r).1 = runningFiber_ r.1.
Proof.
  destruct r as [s t]. unfold land.
  destruct t as [| |f site st| | | | |]; try done.
  destruct site; try done. unfold awaitIOEvent_resume. by destruct (st <? 0).
Qed.

(** A running fiber that ends hands the processor to the head of the ready
    queue. *)
Lemma killCurrentFiber_enters_head sz s h q :
  wf s → is_Some (runningFiber_ s) → readyFiberQueue_ s = h :: q →
  ∃ s1 t1, step sz EKill s = Some (s1, t1) ∧ dispatched t1 = Some h
           ∧ readyFiberQueue_ s1 = q ∧ runningFiber_ s1 = Some h ∧ wf s1.
Proof.
  intros Hwf Hrun Hq.
  pose proof (killCurrentFiber_wf s Hwf Hrun) as Hwf'.
  exists (land (killCurrentFiber s)).1, (land (killCurrentFiber s)).2.
  split.
  { cbn [step]. rewrite bool_decide_eq_true_2 by done.
    by destruct (land (killCurrentFiber s)). }
  rewrite land_snd, land_fst_ready, land_fst_running.
  split; [|split; [|split; [|by apply land_wf]]];
    destruct Hrun as [r Hr]; unfold killCurrentFiber in *; rewrite Hr in *;
    unfold switchFiber in *;
    cbn [readyFiberQueue_ set_dead update_fiber set_fibers] in *; rewrite Hq in *.
  - by destruct (executeFiber_enters _ _ _ Hwf') as (? & _ & _ & _ & ?).
  - by rewrite executeFiber_fst.
  - by rewrite executeFiber_fst.
Qed.

(** Progress: a ready fiber is entered once the fibers ahead of it have each
    been entered and have ended. *)
Lemma ready_fiber_can_be_entered sz l1 : ∀ s f l2,
  wf s → is_Some (runningFiber_ s) → readyFiberQueue_ s = l1 ++ f :: l2 →
  ∃ es s' ts t, run_events sz es s = Some (s', ts) ∧ first_entry f ts = Some t.
Proof.
  induction l1 as [|x l1 IH]; intros s f l2 Hwf Hrun Hq.
  - destruct (killCurrentFiber_enters_head sz s f l2 Hwf Hrun Hq)
      as (s1 & t1 & Hstep & Hd & _).
    exists [EKill], s1, [t1], t1. cbn [run_events]. rewrite Hstep.
    split; [done|]. by apply first_entry_here.
  - destruct (killCurrentFiber_enters_head sz s x (l1 ++ f :: l2) Hwf Hrun Hq)
      as (s1 & t1 & Hstep & Hd & Hq1 & Hr1 & Hwf1).
    destruct (IH s1 f l2 Hwf1 ltac:(by eexists) Hq1) as (es & s' & ts & t & Hrun' & Hfirst).
    destruct (decide (dispatched t1 = Some f)) as [Hf|Hf].
    + exists [EKill], s1, [t1], t1. cbn [run_events]. rewrite Hstep.
      split; [done|]. by apply first_entry_here.
    + exists (EKill :: es), s', (t1 :: ts), t. cbn [run_events].
      rewrite Hstep, Hrun'. split; [done|]. by rewrite first_entry_skip.
Qed.

(** ** [unwatchIO] *)

Lemma unwatchIO_effect d s f fb :
  wf s →
  f ∈ aw_fiber <$> filter (λ a, aw_fd a = d) (awaiters (ioPoll_ s)) →
  fibers s !! f = Some fb →
  f ∈ readyFiberQueue_ (unwatchIO d s)
  ∧ fibers (unwatchIO d s) !! f = Some (set_status (- EBADF) fb)
  ∧ context fb = Some InAwait.
Proof.
  intros Hwf Hf Hfb.
  assert (context fb = Some InAwait) as Hctx.
  { apply list_elem_of_fmap in Hf as (a & -> & Ha).
    apply list_elem_of_filter in Ha as [_ Ha].
    by destruct (wf_awaiter _ _ Hwf a fb Ha Hfb) as (_ & _ & ?). }
  unfold unwatchIO, IOPoll_removeEventAwaiters. rewrite unwatchIO_fold. cbn.
  split; [|split; [|done]].
  - rewrite elem_of_app. by right.
  - rewrite alter_all_lookup by done. by rewrite decide_True, Hfb.
Qed.


(** ** The timer block *)

(** With no more items than the buffer holds, every due item is drained. *)
Lemma Timer_removeDueItems_due now : ∀ q cap it,
  (length q ≤ cap)%nat → it ∈ q → is_due now it = true →
  owner it ∈ (Timer_removeDueItems now cap q).1.
Proof.
  induction q as [|x q IH]; intros cap it Hlen Hit Hdue; [by apply elem_of_nil in Hit|].
  cbn in Hlen. destruct cap as [|cap]; [lia|]. cbn [Timer_removeDueItems].
  apply elem_of_cons in Hit as [->|Hit].
  - rewrite Hdue. destruct (Timer_removeDueItems now cap q). by left.
  - destruct (is_due now x).
    + pose proof (IH cap it ltac:(lia) Hit Hdue) as Hin.
      destruct (Timer_removeDueItems now cap q). by right.
    + pose proof (IH (S cap) it ltac:(lia) Hit Hdue) as Hin.
      by destruct (Timer_removeDueItems now (S cap) q).
Qed.

Lemma run_timer_item_other s x f :
  f ≠ x → fibers (run_timer_item s x) !! f = fibers s !! f.
Proof.
  intros Hne. unfold run_timer_item. destruct (fibers s !! x) as [fb|]; [|done].
  destruct (0 <=? fd fb); [|done]. cbn. by rewrite !lookup_alter_ne.
Qed.



(** A round of the loop of [run] with nothing to reap: the poll block, the
    timer block, then the top of the loop. *)
Lemma step_EIdle_rounds sz ready s :
  runningFiber_ s = None → inRun s = true → deadFiberQueue_ s = [] →
  step sz (EIdle ready) s
  = Some (land (run_dispatch (run_timer (run_poll ready s)))).
Proof.
  intros Hr HinRun Hdead. cbn [step]. unfold run_iteration.
  by rewrite Hr, HinRun, Hdead.
Qed.

Lemma run_dispatch_enters_head s h q :
  wf (run_dispatch s).1 → readyFiberQueue_ s = h :: q →
  dispatched (run_dispatch s).2 = Some h
  ∧ readyFiberQueue_ (run_dispatch s).1 = q
  ∧ runningFiber_ (run_dispatch s).1 = Some h.
Proof.
  intros Hwf Hq. unfold run_dispatch in *. rewrite Hq in *.
  destruct (executeFiber_enters _ _ _ Hwf) as (_ & _ & _ & _ & Hd).
  by rewrite executeFiber_fst.
Qed.


(** What [awaitIOEvent] with a timeout leaves behind: a timer item with the
    deadline, a wait record on the fd, and the saved context. *)
Lemma awaitIOEvent_parks d ev timeout s r fb :
  runningFiber_ s = Some r → fibers s !! r = Some fb → 0 ≤ timeout →
  ({| owner := r; deadline := Some (clock s + timeout) |}
     ∈ timer_ (awaitIOEvent d ev timeout s).1)
  ∧ ({| aw_fd := d; aw_event := ev; aw_fiber := r |}
     ∈ awaiters (ioPoll_ (awaitIOEvent d ev timeout s).1))
  ∧ fibers (awaitIOEvent d ev timeout s).1 !! r
    = Some (set_fd d (set_status 1 (set_context (Some InAwait) fb))).
Proof.
  intros Hr Hfb Ht. unfold awaitIOEvent. rewrite Hr, switchFiber_fst.
  assert ((timeout <? 0) = false) as Hneg by (by apply Z.ltb_ge).
  case_match; cbn; unfold Timer_addItem; rewrite Hneg;
    (split; [rewrite Timer_insert_perm; apply list_elem_of_here|]);
    (split; [rewrite elem_of_app; right; apply list_elem_of_here|]);
    by rewrite !lookup_alter_eq, Hfb.
Qed.

(** ** [yieldCurrentFiber] *)

Lemma yieldCurrentFiber_switches s r f0 q :
  runningFiber_ s = Some r → readyFiberQueue_ s = f0 :: q →
  yieldCurrentFiber s
  = executeFiber f0
      (set_ready (q ++ [r])
         (update_fiber r (set_status 1) (update_fiber r (set_context (Some InYield)) s))).
Proof.
  intros Hr Hq. unfold yieldCurrentFiber. rewrite Hr, Hq.
  cbn [readyFiberQueue_ set_ready update_fiber set_fibers]. by rewrite Hq.
Qed.

(** C3: with an empty ready queue [yieldCurrentFiber] returns at once and
    changes nothing; otherwise it saves the context of the running fiber with
    status 1, links the fiber at the tail of the ready queue and enters the
    head of the queue. In every run that starts with the yield, each fiber
    that was in the ready queue at the yield is entered before the yielding
    fiber is entered again. *)
Theorem yield_runs_ready_fibers_first sz s r :
  wf s → runningFiber_ s = Some r →
  (readyFiberQueue_ s = [] → yieldCurrentFiber s = (s, Returned))
  ∧ (∀ f0 q fb, readyFiberQueue_ s = f0 :: q → fibers s !! r = Some fb →
       (yieldCurrentFiber s).1
       = set_running (Some f0)
           (set_ready (q ++ [r])
              (update_fiber r (set_status 1)
                 (update_fiber r (set_context (Some InYield)) s)))
       ∧ fibers (yieldCurrentFiber s).1 !! r
         = Some (set_status 1 (set_context (Some InYield) fb))
       ∧ dispatched (yieldCurrentFiber s).2 = Some f0)
  ∧ (∀ es s' ts ds1 ds2,
       run_events sz (EYield :: es) s = Some (s', ts) →
       omap dispatched ts = ds1 ++ r :: ds2 → r ∉ ds1 →
       ∀ f, f ∈ readyFiberQueue_ s → f ∈ ds1).
Proof.
  intros Hwf Hr.
  destruct (wf_running_facts _ _ _ Hwf Hr) as (Hnd & HrQ & _).
  assert (Hwf' : wf (yieldCurrentFiber s).1)
    by (apply yieldCurrentFiber_wf; [done | by eexists]).
  split; [|split].
  - intros Hq. unfold yieldCurrentFiber. by rewrite Hr, Hq.
  - intros f0 q fb Hq Hfb. rewrite (yieldCurrentFiber_switches s r f0 q Hr Hq) in *.
    split; [apply executeFiber_fst|]. split.
    + rewrite executeFiber_fst. cbn. by rewrite !lookup_alter_eq, Hfb.
    + by destruct (executeFiber_enters _ _ _ Hwf') as (? & _ & _ & _ & ?).
  - intros es s' ts ds1 ds2 Hrun Hds Hds1 f Hf.
    apply run_events_cons in Hrun as (s1 & t1 & ts' & Hstep & Hrun & ->).
    cbn [step] in Hstep. rewrite bool_decide_eq_true_2 in Hstep by by eexists.
    injection Hstep as Hstep.
    destruct (readyFiberQueue_ s) as [|f0 q] eqn:Hq; [by apply elem_of_nil in Hf|].
    rewrite (yieldCurrentFiber_switches s r f0 q Hr Hq) in *.
    destruct (executeFiber_enters _ _ _ Hwf') as (_ & _ & _ & _ & Hd).
    assert (Ht1 : t1 = (s1, t1).2) by done.
    rewrite <- Hstep in Ht1. rewrite land_snd in Ht1.
    assert (Hq1 : readyFiberQueue_ s1 = q ++ [r]).
    { change s1 with ((s1, t1).1). rewrite <- Hstep, land_fst_ready, executeFiber_fst.
      done. }
    assert (Hwf1 : wf s1).
    { change s1 with ((s1, t1).1). rewrite <- Hstep. by apply land_wf. }
    cbn [omap list_omap] in Hds. rewrite Ht1, Hd in Hds.
    rewrite not_elem_of_cons in HrQ. destruct HrQ as [Hrf0 Hrq].
    destruct ds1 as [|y ds1]; [cbn in Hds; congruence|].
    cbn in Hds. injection Hds as <- Hds.
    rewrite not_elem_of_cons in Hds1. destruct Hds1 as [_ Hds1].
    apply elem_of_cons in Hf as [->|Hf]; [by left|]. right.
    by eapply (ready_fifo sz es s1 s' ts' q [] r ds1 ds2).
Qed.

(** ** Status 0 if and only if no saved context *)

Lemma step_transfer_sound sz e s s' t :
  wf s → step sz e s = Some (s', t) → t ≠ AssertFailed ∧ t ≠ Undefined.
Proof.
  intros Hwf Hstep.
  destruct (step_summary sz e s s' t Hwf Hstep) as (extra & _ & Hshape).
  cbn [fst snd] in Hshape. destruct (dispatched t) as [h|] eqn:Hd.
  - destruct Hshape as (_ & fb & _ & -> & _). unfold transfer_of.
    by destruct (context fb).
  - by destruct Hshape as (_ & ? & ?).
Qed.

(** C9: in every reachable state a fiber has status 0 if and only if it has
    no saved context, every step keeps it so and fails no assertion;
    [killCurrentFiber] clears the context and the status of the dying fiber
    together; [yieldCurrentFiber], [sleepCurrentFiber] and [awaitIOEvent] save
    a context together with status 1; and [executeFiber] bootstraps the stack
    exactly when the record has no context, and otherwise makes a [longjmp]
    with the saved status, which is not 0. *)
Theorem status_zero_iff_no_context sz :
  (∀ s, reachable sz s → status_matches_context s)
  ∧ (∀ s e s' t, reachable sz s → step sz e s = Some (s', t) →
       status_matches_context s' ∧ t ≠ AssertFailed ∧ t ≠ Undefined)
  ∧ (∀ s r fb, runningFiber_ s = Some r → fibers s !! r = Some fb →
       ∃ fb', fibers (killCurrentFiber s).1 !! r = Some fb'
              ∧ context fb' = None ∧ status fb' = 0)
  ∧ (∀ s r fb, runningFiber_ s = Some r → fibers s !! r = Some fb →
       (readyFiberQueue_ s ≠ [] →
        ∃ fb', fibers (yieldCurrentFiber s).1 !! r = Some fb'
               ∧ context fb' = Some InYield ∧ status fb' = 1)
       ∧ (∀ duration,
            ∃ fb', fibers (sleepCurrentFiber duration s).1 !! r = Some fb'
                   ∧ context fb' = Some InSleep ∧ status fb' = 1)
       ∧ (∀ d ev timeout,
            ∃ fb', fibers (awaitIOEvent d ev timeout s).1 !! r = Some fb'
                   ∧ context fb' = Some InAwait ∧ status fb' = 1))
  ∧ (∀ s f fb, reachable sz s → fibers s !! f = Some fb →
       (executeFiber f s).2 = transfer_of f fb
       ∧ (context fb = None → (executeFiber f s).2 = Bootstrap f)
       ∧ (∀ site, context fb = Some site →
            status fb ≠ 0 ∧ (executeFiber f s).2 = Longjmp f site (status fb))).
Proof.
  split; [|split; [|split; [|split]]].
  - intros s Hs. exact (wf_status _ _ (reachable_wf sz s Hs)).
  - intros s e s' t Hs Hstep. pose proof (reachable_wf sz s Hs) as Hwf. split.
    + exact (wf_status _ _ (step_wf sz e s s' t Hwf Hstep)).
    + by eapply step_transfer_sound.
  - intros s r fb Hr Hfb. unfold killCurrentFiber. rewrite Hr, switchFiber_fst_fibers.
    cbn. rewrite !lookup_alter_eq, Hfb. by eexists.
  - intros s r fb Hr Hfb. split; [|split].
    + intros Hq. destruct (readyFiberQueue_ s) as [|f0 q] eqn:Hq'; [done|].
      rewrite (yieldCurrentFiber_fst s r f0 q Hr Hq'). cbn.
      rewrite !lookup_alter_eq, Hfb. by eexists.
    + intros duration. unfold sleepCurrentFiber. rewrite Hr, switchFiber_fst_fibers.
      cbn. rewrite !lookup_alter_eq, Hfb. by eexists.
    + intros d ev timeout. unfold awaitIOEvent. rewrite Hr, switchFiber_fst_fibers.
      cbn. rewrite !lookup_alter_eq, Hfb. by eexists.
  - intros s f fb Hs Hfb. pose proof (reachable_wf sz s Hs) as Hwf.
    destruct (executeFiber_snd f s fb Hfb (wf_status _ _ Hwf f fb Hfb)) as [Ht Hne].
    split; [done|]. split.
    + intros Hc. by rewrite Ht, Hc.
    + intros site Hc. split; [by apply (Hne site)|]. by rewrite Ht, Hc.
Qed.

(** ** The scenarios *)

Lemma run_events_reachable sz es : ∀ s s' ts,
  reachable sz s → run_events sz es s = Some (s', ts) → reachable sz s'.
Proof.
  induction es as [|e es IH]; intros s s' ts Hs Hrun.
  - by injection Hrun as <- <-.
  - apply run_events_cons in Hrun as (s1 & t1 & ts' & Hstep & Hrun & ->).
    eapply IH; [|done]. by eapply reachable_step.
Qed.

Lemma state_after_reachable sz es :
  is_Some (run_events sz es (Scheduler_new 0 0)) → reachable sz (state_after sz es).
Proof.
  intros [[s ts] Hrun]. unfold state_after. rewrite Hrun.
  eapply run_events_reachable; [apply reachable_new | done].
Qed.

Lemma read_timeout_run_wf : wf (state_after 128 read_timeout_run).
Proof.
  apply (reachable_wf 128), state_after_reachable. vm_compute. by eexists.
Qed.

Lemma close_while_waiting_run_wf : wf (state_after 128 close_while_waiting_run).
Proof.
  apply (reachable_wf 128), state_after_reachable. vm_compute. by eexists.
Qed.

Lemma ping_pong_run_reachable : reachable 128 (state_after 128 ping_pong_run).
Proof. apply state_after_reachable. vm_compute. by eexists. Qed.




Lemma yield_runs_ready_fibers_first_witness :
  dispatched (yieldCurrentFiber (state_after 128 ping_pong_run)).2 = Some 196480
  ∧ 196480 ∈ [196480].
Proof.
  destruct (yield_runs_ready_fibers_first 128 (state_after 128 ping_pong_run) 130944)
    as (_ & Hswitch & Hfifo).
  - exact (reachable_wf 128 _ ping_pong_run_reachable).
  - vm_compute. reflexivity.
  - split.
    + destruct (Hswitch 196480 [] (Fiber_new (Some 1%nat))) as (_ & _ & Hentered).
      * vm_compute. reflexivity.
      * vm_compute. reflexivity.
      * exact Hentered.
    + destruct (run_events 128 [EYield; EYield] (state_after 128 ping_pong_run))
        as [[s' ts]|] eqn:Hrun; [|vm_compute in Hrun; discriminate].
      pose proof Hrun as Hts. vm_compute in Hts. injection Hts as _ Hts.
      apply (Hfifo [EYield] s' ts [196480] [] Hrun).
      * rewrite <- Hts. reflexivity.
      * intros Hin. apply list_elem_of_singleton in Hin. discriminate.
      * vm_compute. apply list_elem_of_here.
Defined.

Lemma status_zero_iff_no_context_witness :
  status_matches_context (state_after 128 ping_pong_run).
Proof.
  destruct (status_zero_iff_no_context 128) as (Hinv & _).
  apply Hinv. exact ping_pong_run_reachable.
Defined.

(** * The scheduler: accounting, order and liveness of fibers *)

(** ** Accounting for the fibers *)

(** Projections of updated scheduler states. *)
Ltac sched_simpl :=
  cbn [fiberCount_ context_ status_ runningFiber_ readyFiberQueue_ deadFiberQueue_
       timer_ ioPoll_ fibers errno clock inRun
       set_fiberCount set_runContext set_running set_ready set_dead set_timer
       set_ioPoll set_fibers set_errno set_clock set_inRun update_fiber
       watched awaiters IOPoll_addEventAwaiter fst snd].


Lemma accounted_same_dom s s' :
  accounted s →
  fiberCount_ s' = fiberCount_ s →
  dom (fibers s') = dom (fibers s) →
  (∀ f, f ∈ queued s ++ timed s → f ∈ queued s' ++ timed s') →
  accounted s'.
Proof.
  intros [Hcount Hlinked] Hc Hdom Hin. split.
  - rewrite Hc, Hcount. by rewrite <- !size_dom, Hdom.
  - intros f Hf. apply Hin, Hlinked. by rewrite <- !elem_of_dom, Hdom in *.
Qed.

Lemma dom_alter_all (g : Fiber → Fiber) X : ∀ (m : gmap Z Fiber),
  dom (foldl (λ m f, alter g f m) m X) = dom m.
Proof.
  induction X as [|x X IH]; intros m; cbn [foldl]; [done|].
  by rewrite IH, dom_alter_L.
Qed.

Lemma queued_switchFiber s f :
  f ∈ queued (switchFiber s).1 ↔ f ∈ readyFiberQueue_ s ∨ f ∈ deadFiberQueue_ s.
Proof.
  rewrite switchFiber_fst, queued_elem_of.
  destruct (readyFiberQueue_ s) as [|h q] eqn:Hq; cbn; rewrite ?Hq.
  - split; [intros [?|[?|?]] | intros [?|?]]; try done; auto.
  - rewrite elem_of_cons. split.
    + intros [[= ->]|[?|?]]; auto.
    + intros [[->|?]|?]; auto.
Qed.

Lemma switchFiber_fst_count s :
  fiberCount_ (switchFiber s).1 = fiberCount_ s.
Proof. rewrite switchFiber_fst. by destruct (readyFiberQueue_ s). Qed.

Lemma land_fst_count r : fiberCount_ (land r).1 = fiberCount_ r.1.
Proof.
  destruct r as [s t]. unfold land.
  destruct t as [| |f site st| | | | |]; try done.
  destruct site; try done. unfold awaitIOEvent_resume. by destruct (st <? 0).
Qed.

Lemma land_fst_queued r : queued (land r).1 = queued r.1.
Proof.
  unfold queued, running_list.
  destruct r as [s t]. unfold land.
  destruct t as [| |f site st| | | | |]; try done.
  destruct site; try done. unfold awaitIOEvent_resume. by destruct (st <? 0).
Qed.

Lemma land_accounted r : accounted r.1 → accounted (land r).1.
Proof.
  intros Hacc. eapply accounted_same_dom; [exact Hacc | apply land_fst_count | |].
  - by rewrite land_fst_fibers.
  - intros f. unfold timed. by rewrite land_fst_queued, land_fst_timer.
Qed.

Lemma yieldCurrentFiber_accounted s :
  accounted s → is_Some (runningFiber_ s) → accounted (yieldCurrentFiber s).1.
Proof.
  intros Hacc [r Hr].
  destruct (readyFiberQueue_ s) as [|f0 q] eqn:Hq.
  { unfold yieldCurrentFiber. by rewrite Hr, Hq. }
  rewrite (yieldCurrentFiber_fst s r f0 q Hr Hq).
  eapply accounted_same_dom; [exact Hacc | done | |].
  - cbn. by rewrite !dom_alter_L.
  - intros f. rewrite !elem_of_app, !queued_elem_of. cbn.
    rewrite Hr, Hq, elem_of_cons, elem_of_app, list_elem_of_singleton.
    intros [[[= ->]|[[->|?]|?]]|?]; naive_solver.
Qed.

Lemma sleepCurrentFiber_accounted duration s :
  accounted s → is_Some (runningFiber_ s) → accounted (sleepCurrentFiber duration s).1.
Proof.
  intros Hacc [r Hr]. unfold sleepCurrentFiber. rewrite Hr.
  eapply accounted_same_dom; [exact Hacc | by rewrite switchFiber_fst_count | |].
  - rewrite switchFiber_fst_fibers. cbn. by rewrite !dom_alter_L.
  - intros f. rewrite !elem_of_app, queued_switchFiber, queued_elem_of.
    unfold timed. rewrite switchFiber_fst_timer. sched_simpl.
    rewrite timed_addItem_elem_of, Hr. intros [[[= ->]|[?|?]]|?]; naive_solver.
Qed.

Lemma killCurrentFiber_accounted s :
  accounted s → is_Some (runningFiber_ s) → accounted (killCurrentFiber s).1.
Proof.
  intros Hacc [r Hr]. unfold killCurrentFiber. rewrite Hr.
  eapply accounted_same_dom; [exact Hacc | by rewrite switchFiber_fst_count | |].
  - rewrite switchFiber_fst_fibers. cbn. by rewrite !dom_alter_L.
  - intros f. rewrite !elem_of_app, queued_switchFiber, queued_elem_of.
    unfold timed. rewrite switchFiber_fst_timer. sched_simpl.
    rewrite elem_of_app, list_elem_of_singleton, Hr.
    intros [[[= ->]|[?|?]]|?]; naive_solver.
Qed.

Lemma awaitIOEvent_accounted d ev timeout s :
  accounted s → is_Some (runningFiber_ s) →
  accounted (awaitIOEvent d ev timeout s).1.
Proof.
  intros Hacc [r Hr]. unfold awaitIOEvent. rewrite Hr.
  eapply accounted_same_dom; [exact Hacc | by rewrite switchFiber_fst_count | |].
  - rewrite switchFiber_fst_fibers. cbn. by rewrite !dom_alter_L.
  - intros f. rewrite !elem_of_app, queued_switchFiber, queued_elem_of.
    unfold timed. rewrite switchFiber_fst_timer. sched_simpl.
    rewrite timed_addItem_elem_of, Hr. intros [[[= ->]|[?|?]]|?]; naive_solver.
Qed.

Lemma callCoroutine_accounted sz c region s s' :
  accounted s →
  (deadFiberQueue_ s = [] → mmap_ok sz region s = true) →
  callCoroutine sz c region s = Ok s' →
  accounted s'.
Proof.
  intros Hacc Hmap. unfold callCoroutine.
  destruct (deadFiberQueue_ s) as [|f dead] eqn:Hdead.
  - specialize (Hmap eq_refl). unfold mmap_ok in Hmap.
    apply andb_prop in Hmap as [Hmap Hfresh]. apply andb_prop in Hmap as [Hnull _].
    apply bool_decide_eq_true in Hnull, Hfresh.
    rewrite CreateFiber_not_null by done. intros [= <-].
    destruct Hacc as [Hcount Hlinked]. split.
    + sched_simpl. rewrite map_size_insert_None by done. lia.
    + intros f. sched_simpl. rewrite lookup_insert_is_Some.
      rewrite !elem_of_app, !queued_elem_of. sched_simpl.
      rewrite elem_of_app, list_elem_of_singleton.
      intros [<-|[_ Hf]]; [by auto|].
      apply Hlinked in Hf. rewrite !elem_of_app, queued_elem_of in Hf.
      unfold timed in *. sched_simpl. naive_solver.
  - intros [= <-].
    eapply accounted_same_dom; [exact Hacc | done | |].
    + sched_simpl. by rewrite dom_alter_L.
    + intros g. rewrite !elem_of_app, !queued_elem_of. unfold timed. sched_simpl.
      rewrite Hdead, elem_of_cons, elem_of_app, list_elem_of_singleton. naive_solver.
Qed.

(** Waking the fibers [X], which own timer items. *)
Lemma accounted_drain (g : Fiber → Fiber) (p : IOPoll) X s :
  accounted s →
  accounted (set_ready (readyFiberQueue_ s ++ X)
               (set_fibers (foldl (λ m f, alter g f m) (fibers s) X)
                  (set_timer (foldl (λ t f, Timer_removeItem f t) (timer_ s) X)
                     (set_ioPoll p s)))).
Proof.
  intros Hacc. eapply accounted_same_dom; [exact Hacc | done | |].
  - sched_simpl. apply dom_alter_all.
  - intros f. rewrite !elem_of_app, !queued_elem_of. unfold timed. sched_simpl.
    rewrite Timer_removeItems_owners, list_elem_of_filter, elem_of_app.
    destruct (decide (f ∈ X)); naive_solver.
Qed.

Lemma unwatchIO_accounted d s : accounted s → accounted (unwatchIO d s).
Proof.
  intros Hacc. unfold unwatchIO, IOPoll_removeEventAwaiters. rewrite unwatchIO_fold.
  exact (accounted_drain _ _ _ s Hacc).
Qed.

Lemma run_poll_accounted ready s : accounted s → accounted (run_poll ready s).
Proof.
  intros Hacc. unfold run_poll, IOPoll_waitForEvents. rewrite run_poll_fold.
  exact (accounted_drain wake _ _ s Hacc).
Qed.

Lemma run_timer_item_frame s x :
  fiberCount_ (run_timer_item s x) = fiberCount_ s
  ∧ runningFiber_ (run_timer_item s x) = runningFiber_ s
  ∧ deadFiberQueue_ (run_timer_item s x) = deadFiberQueue_ s
  ∧ dom (fibers (run_timer_item s x)) = dom (fibers s).
Proof.
  unfold run_timer_item. destruct (fibers s !! x) as [fb|]; [|done].
  destruct (0 <=? fd fb); [|done]. sched_simpl. by rewrite !dom_alter_L.
Qed.

Lemma run_timer_fold_account buf : ∀ s,
  fiberCount_ (foldl run_timer_item s buf) = fiberCount_ s
  ∧ runningFiber_ (foldl run_timer_item s buf) = runningFiber_ s
  ∧ deadFiberQueue_ (foldl run_timer_item s buf) = deadFiberQueue_ s
  ∧ dom (fibers (foldl run_timer_item s buf)) = dom (fibers s).
Proof.
  induction buf as [|x buf IH]; intros s; cbn [foldl]; [done|].
  destruct (IH (run_timer_item s x)) as (-> & -> & -> & ->).
  apply run_timer_item_frame.
Qed.

Lemma run_timer_accounted s : accounted s → accounted (run_timer s).
Proof.
  intros Hacc. unfold run_timer.
  destruct (Timer_removeDueItems (clock s) 1024 (timer_ s)) as [buffer rest] eqn:Hrm.
  destruct (run_timer_fold_account buffer (set_timer rest s)) as (Hc & Hr & Hd & Hdom).
  destruct (run_timer_fold_ready_frame buffer (set_timer rest s)) as [Hq _].
  pose proof (run_timer_fold_timer buffer (set_timer rest s)) as Ht.
  eapply accounted_same_dom; [exact Hacc | done | done |].
  intros f. rewrite !elem_of_app, !queued_elem_of. unfold timed.
  rewrite Hr, Hq, Hd, Ht. sched_simpl.
  rewrite (Timer_removeDueItems_perm _ _ _ _ _ Hrm), !elem_of_app. naive_solver.
Qed.

Lemma delete_all_size D : ∀ (m : gmap Z Fiber),
  NoDup D → (∀ f, f ∈ D → is_Some (m !! f)) →
  Z.of_nat (size (foldl (λ m f, delete f m) m D))
  = Z.of_nat (size m) - Z.of_nat (length D).
Proof.
  induction D as [|x D IH]; intros m Hnd Hlive; cbn [foldl length]; [lia|].
  apply NoDup_cons in Hnd as [Hx Hnd].
  rewrite IH; [|done|].
  - rewrite map_size_delete_Some by (apply Hlive; by left).
    assert (size m ≠ 0%nat).
    { intros H0. apply map_size_empty_inv in H0. subst m.
      destruct (Hlive x) as [? Hl]; [by left|]. by rewrite lookup_empty in Hl. }
    lia.
  - intros f Hf. rewrite lookup_delete_ne by (by intros ->).
    apply Hlive. by right.
Qed.

Lemma run_reap_accounted s : wf s → accounted s → accounted (run_reap s).
Proof.
  intros Hwf [Hcount Hlinked]. unfold run_reap. rewrite run_reap_fold.
  pose proof (wf_linked _ _ Hwf) as Hlink.
  unfold queued in Hlink. rewrite <- !app_assoc in Hlink.
  apply NoDup_app in Hlink as (_ & _ & Hlink).
  apply NoDup_app in Hlink as (_ & _ & Hlink).
  apply NoDup_app in Hlink as (HndD & _ & _).
  split.
  - sched_simpl. rewrite delete_all_size, Hcount; [done | done |].
    intros f Hf. apply (wf_live _ _ Hwf), elem_of_app. left.
    apply queued_elem_of. auto.
  - intros f. sched_simpl. rewrite delete_all_lookup.
    case_decide as HfD; [by intros [? ?]|]. intros Hf. apply Hlinked in Hf.
    rewrite !elem_of_app, !queued_elem_of in *. unfold timed. sched_simpl.
    naive_solver.
Qed.

Lemma run_dispatch_accounted s :
  accounted s → runningFiber_ s = None → accounted (run_dispatch s).1.
Proof.
  intros Hacc Hr. rewrite run_dispatch_fst.
  destruct (readyFiberQueue_ s) as [|f q] eqn:Hq; [done|].
  eapply accounted_same_dom; [exact Hacc | done | done |].
  intros g. rewrite !elem_of_app, !queued_elem_of. unfold timed. sched_simpl.
  rewrite Hr, Hq, elem_of_cons. naive_solver.
Qed.

Lemma accounted_set_inRun b s : accounted s → accounted (set_inRun b s).
Proof. intros Hacc. by eapply accounted_same_dom. Qed.

Lemma run_enter_accounted s :
  accounted s → runningFiber_ s = None → accounted (run_enter s).1.
Proof.
  intros Hacc Hr. unfold run_enter. rewrite Hr.
  destruct (fiberCount_ s =? 0); [done|].
  apply run_dispatch_accounted; [by apply accounted_set_inRun | done].
Qed.

Lemma run_rounds_accounted ready s :
  accounted s → runningFiber_ s = None →
  accounted (run_dispatch (run_timer (run_poll ready s))).1.
Proof.
  intros Hacc Hr. apply run_dispatch_accounted.
  - by apply run_timer_accounted, run_poll_accounted.
  - destruct (run_timer_frame (run_poll ready s)) as [-> _].
    by destruct (run_poll_frame ready s) as [-> _].
Qed.

Lemma run_iteration_accounted ready s :
  wf s → accounted s → runningFiber_ s = None →
  accounted (run_iteration ready s).1.
Proof.
  intros Hwf Hacc Hr. unfold run_iteration.
  destruct (deadFiberQueue_ s) as [|f D] eqn:HD; [by apply run_rounds_accounted|].
  assert (runningFiber_ (run_reap s) = None) as Hr'.
  { unfold run_reap. by rewrite run_reap_fold. }
  destruct (fiberCount_ (run_reap s) =? 0).
  - by apply accounted_set_inRun, run_reap_accounted.
  - apply run_rounds_accounted; [by apply run_reap_accounted | done].
Qed.

Lemma step_accounted sz e s s' t :
  wf s → accounted s → step sz e s = Some (s', t) → accounted s'.
Proof.
  intros Hwf Hacc.
  destruct e as [dt|c region| |duration|d ev timeout| |d|d| |ready]; cbn [step].
  - case_bool_decide; [|done]. intros [= <- <-]. by eapply accounted_same_dom.
  - destruct (user_code s && _) eqn:Hg; [|done].
    apply andb_prop in Hg as [_ Hg].
    destruct (callCoroutine sz c region s) as [s1|] eqn:Hcall; [|done].
    intros [= <- <-]. eapply callCoroutine_accounted; [done| |done].
    intros Hdead. rewrite Hdead in Hg.
    rewrite bool_decide_eq_false_2 in Hg by (by intros Hne); done.
  - case_bool_decide as Hr; [|done]. intros Hs.
    change s' with ((s', t).1). injection Hs as <-.
    by apply land_accounted, yieldCurrentFiber_accounted.
  - case_bool_decide as Hr; [|done]. intros Hs.
    change s' with ((s', t).1). injection Hs as <-.
    by apply land_accounted, sleepCurrentFiber_accounted.
  - destruct (bool_decide _ && _) eqn:Hg; [|done].
    apply andb_prop in Hg as [Hr Hd]. apply bool_decide_eq_true in Hr.
    intros Hs. change s' with ((s', t).1). injection Hs as <-.
    by apply land_accounted, awaitIOEvent_accounted.
  - case_bool_decide as Hr; [|done]. intros Hs.
    change s' with ((s', t).1). injection Hs as <-.
    by apply land_accounted, killCurrentFiber_accounted.
  - destruct (user_code s && _) eqn:Hg; [|done].
    intros [= <- <-]. by eapply accounted_same_dom.
  - destruct (user_code s); [|done]. intros [= <- <-]. by apply unwatchIO_accounted.
  - destruct (bool_decide _ && _) eqn:Hg; [|done].
    apply andb_prop in Hg as [Hr _]. apply bool_decide_eq_true in Hr.
    intros Hs. change s' with ((s', t).1). injection Hs as <-.
    by apply land_accounted, run_enter_accounted.
  - destruct (bool_decide _ && _) eqn:Hg; [|done].
    apply andb_prop in Hg as [Hr Hi]. apply bool_decide_eq_true in Hr.
    intros Hs. change s' with ((s', t).1). injection Hs as <-.
    by apply land_accounted, run_iteration_accounted.
Qed.

Lemma reachable_accounted sz s : reachable sz s → accounted s.
Proof.
  induction 1 as [e c | s e s' t Hs IH Hstep].
  - split; [done|]. intros f [? Hf]. cbn in Hf. by rewrite lookup_empty in Hf.
  - eapply step_accounted; [by eapply reachable_wf | done | done].
Qed.

(** X1: In every reachable state a fiber is linked at most once among the
    running slot, the ready queue, the dead queue and the wait sets of the
    poll, and owns at most one timer item; a fiber awaiting I/O owns a timer
    item and a running, ready or dead fiber owns none; and the [Fiber]
    records that exist are exactly those of the linked fibers: no record is
    leaked and no pointer dangles. *)
Theorem reachable_fibers_linked_once sz s :
  reachable sz s →
  NoDup (queued s ++ waiting s)
  ∧ NoDup (timed s)
  ∧ (∀ f, f ∈ waiting s → f ∈ timed s)
  ∧ (∀ f, f ∈ timed s → f ∉ queued s)
  ∧ (∀ f, is_Some (fibers s !! f) ↔ f ∈ queued s ++ timed s).
Proof.
  intros Hs. pose proof (reachable_wf sz s Hs) as Hwf.
  destruct (reachable_accounted sz s Hs) as [_ Hlinked].
  split; [apply (wf_linked _ _ Hwf)|]. split; [apply (wf_timed _ _ Hwf)|].
  split; [apply (wf_waiting_timed _ _ Hwf)|].
  split; [apply (wf_timed_parked _ _ Hwf)|].
  intros f. split; [apply Hlinked | apply (wf_live _ _ Hwf)].
Qed.

(** X2: In every reachable state [fiberCount_] is the number of [Fiber]
    records that exist, which is the number of fibers running, ready, dead or
    owning a timer item. *)
Theorem reachable_fiberCount sz s :
  reachable sz s →
  fiberCount_ s = Z.of_nat (size (fibers s))
  ∧ fiberCount_ s
    = Z.of_nat (length (running_list s)) + Z.of_nat (length (readyFiberQueue_ s))
      + Z.of_nat (length (deadFiberQueue_ s)) + Z.of_nat (length (timer_ s)).
Proof.
  intros Hs. pose proof (reachable_wf sz s Hs) as Hwf.
  destruct (reachable_accounted sz s Hs) as [Hcount Hlinked].
  split; [done|]. rewrite Hcount.
  assert (NoDup (queued s ++ timed s)) as Hnd.
  { apply NoDup_app. split; [|split].
    - pose proof (wf_linked _ _ Hwf) as Hl. by apply NoDup_app in Hl as (? & _).
    - intros f Hq Ht. by apply (wf_timed_parked _ _ Hwf f).
    - apply (wf_timed _ _ Hwf). }
  assert (dom (fibers s) = list_to_set (queued s ++ timed s)) as Hdom.
  { apply set_eq. intros f. rewrite elem_of_dom, elem_of_list_to_set. split.
    - apply Hlinked.
    - apply (wf_live _ _ Hwf). }
  rewrite <- size_dom, Hdom, size_list_to_set by done.
  unfold queued, timed. rewrite !length_app, length_fmap. lia.
Qed.

Lemma executeFiber_not_RunReturned f s : (executeFiber f s).2 ≠ RunReturned.
Proof.
  unfold executeFiber. destruct (fibers _ !! f) as [fb|]; [|done].
  destruct (context fb); [|done]. by destruct (status fb =? 0).
Qed.

Lemma switchFiber_not_RunReturned s : (switchFiber s).2 ≠ RunReturned.
Proof.
  unfold switchFiber. destruct (readyFiberQueue_ s).
  - unfold execute. destruct (context_ _); [|done]. by destruct (status_ _ =? 0).
  - apply executeFiber_not_RunReturned.
Qed.

Lemma run_dispatch_not_RunReturned s : (run_dispatch s).2 ≠ RunReturned.
Proof.
  unfold run_dispatch. destruct (readyFiberQueue_ s); [done|].
  apply executeFiber_not_RunReturned.
Qed.

Lemma land_not_RunReturned r s' :
  r.2 ≠ RunReturned → land r ≠ (s', RunReturned).
Proof.
  intros Hr Hs. apply Hr. rewrite <- (land_snd r). by rewrite Hs.
Qed.

(** [run] returns only with [fiberCount_] 0, and leaves [run]. *)
Lemma step_RunReturned sz e s s' :
  step sz e s = Some (s', RunReturned) →
  fiberCount_ s' = 0 ∧ runningFiber_ s' = None ∧ inRun s' = false.
Proof.
  destruct e as [dt|c region| |duration|d ev timeout| |d|d| |ready]; cbn [step].
  - by case_bool_decide.
  - destruct (user_code s && _); [|done]. by destruct (callCoroutine _ _ _ _).
  - case_bool_decide as Hr; [|done]. intros [= Hs]. exfalso.
    revert Hs. apply land_not_RunReturned. destruct Hr as [r Hr].
    unfold yieldCurrentFiber. rewrite Hr.
    destruct (readyFiberQueue_ s) as [|f0 q] eqn:Hq; [done|].
    sched_simpl. rewrite ?Hq. cbn [app]. apply executeFiber_not_RunReturned.
  - case_bool_decide as Hr; [|done]. intros [= Hs]. exfalso.
    revert Hs. apply land_not_RunReturned. destruct Hr as [r Hr].
    unfold sleepCurrentFiber. rewrite Hr. apply switchFiber_not_RunReturned.
  - destruct (bool_decide _ && _) eqn:Hg; [|done].
    apply andb_prop in Hg as [Hr _]. apply bool_decide_eq_true in Hr.
    intros [= Hs]. exfalso.
    revert Hs. apply land_not_RunReturned. destruct Hr as [r Hr].
    unfold awaitIOEvent. rewrite Hr. apply switchFiber_not_RunReturned.
  - case_bool_decide as Hr; [|done]. intros [= Hs]. exfalso.
    revert Hs. apply land_not_RunReturned. destruct Hr as [r Hr].
    unfold killCurrentFiber. rewrite Hr. apply switchFiber_not_RunReturned.
  - by destruct (user_code s && _).
  - by destruct (user_code s).
  - destruct (bool_decide _ && _) eqn:Hg; [|done].
    apply andb_prop in Hg as [Hr Hi]. apply bool_decide_eq_true in Hr.
    apply negb_true_iff in Hi. unfold run_enter. rewrite Hr.
    destruct (Z.eqb_spec (fiberCount_ s) 0) as [Hc|Hc].
    + by intros [= <-].
    + intros [= Hs]. exfalso. revert Hs.
      apply land_not_RunReturned, run_dispatch_not_RunReturned.
  - destruct (bool_decide _ && _) eqn:Hg; [|done].
    apply andb_prop in Hg as [Hr Hi]. apply bool_decide_eq_true in Hr.
    unfold run_iteration.
    destruct (deadFiberQueue_ s) as [|f D] eqn:HD.
    { intros [= Hs]. exfalso. revert Hs.
      apply land_not_RunReturned, run_dispatch_not_RunReturned. }
    destruct (Z.eqb_spec (fiberCount_ (run_reap s)) 0) as [Hc|Hc].
    + intros [= <-]. sched_simpl. split; [done|]. split; [|done].
      unfold run_reap. sched_simpl. by rewrite run_reap_fold.
    + intros [= Hs]. exfalso. revert Hs.
      apply land_not_RunReturned, run_dispatch_not_RunReturned.
Qed.

(** X3: When [run] returns, at its entry or after the reap block, nothing is
    left: no [Fiber] record, no running fiber, and the ready queue, the dead
    queue, the timer and the wait sets are empty. *)
Theorem run_returns_with_no_fibers sz e s s' :
  reachable sz s → step sz e s = Some (s', RunReturned) →
  fibers s' = ∅ ∧ runningFiber_ s' = None
  ∧ readyFiberQueue_ s' = [] ∧ deadFiberQueue_ s' = []
  ∧ timer_ s' = [] ∧ awaiters (ioPoll_ s') = [] ∧ inRun s' = false.
Proof.
  intros Hs Hstep.
  pose proof (reachable_step sz s e s' _ Hs Hstep) as Hs'.
  pose proof (reachable_wf sz s' Hs') as Hwf.
  destruct (reachable_accounted sz s' Hs') as [Hcount _].
  destruct (step_RunReturned sz e s s' Hstep) as (Hc & Hr & Hi).
  assert (fibers s' = ∅) as Hempty.
  { apply map_size_empty_inv. lia. }
  assert (∀ f, f ∉ queued s' ++ timed s') as Hnone.
  { intros f Hf. apply (wf_live _ _ Hwf) in Hf as [? Hf].
    by rewrite Hempty, lookup_empty in Hf. }
  assert (∀ l : list Z, (∀ f, f ∈ l → f ∈ queued s' ++ timed s') → l = []) as Hnil.
  { intros [|x l] Hl; [done|]. exfalso. apply (Hnone x), Hl. by left. }
  split; [done|]. split; [done|]. split; [|split; [|split; [|split; [|done]]]].
  - apply Hnil. intros f Hf. rewrite elem_of_app, queued_elem_of. auto.
  - apply Hnil. intros f Hf. rewrite elem_of_app, queued_elem_of. auto.
  - apply (fmap_nil_inv owner). apply Hnil. intros f Hf. rewrite elem_of_app. by right.
  - apply (fmap_nil_inv aw_fiber). apply Hnil. intros f Hf.
    rewrite elem_of_app. right. by apply (wf_waiting_timed _ _ Hwf).
Qed.

(** ** The ready queue is first in, first out *)

(** A fiber of the ready queue is entered before a fiber that is linked in
    the queue later. *)
Lemma ready_before_later sz es : ∀ s s' ts f g ds1 ds2,
  wf s → f ∈ readyFiberQueue_ s → g ∉ readyFiberQueue_ s →
  run_events sz es s = Some (s', ts) →
  omap dispatched ts = ds1 ++ g :: ds2 → g ∉ ds1 →
  f ∈ ds1.
Proof.
  induction es as [|e es IH]; intros s s' ts f g ds1 ds2 Hwf Hf Hg Hrun Hds Hds1.
  - injection Hrun as <- <-. by destruct ds1.
  - apply run_events_cons in Hrun as (s1 & t1 & ts' & Hstep & Hrun & ->).
    destruct (step_summary sz e s s1 t1 Hwf Hstep) as (extra & _ & Hshape).
    pose proof (step_wf sz e s s1 t1 Hwf Hstep) as Hwf1.
    cbn [fst snd omap list_omap] in *.
    (* the rest of the run, from a queue that still starts with fibers of [s] *)
    assert (∀ pre ds1',
              readyFiberQueue_ s1 = pre ++ extra → f ∈ pre →
              (∀ x, x ∈ pre → x ∈ readyFiberQueue_ s) →
              omap dispatched ts' = ds1' ++ g :: ds2 → g ∉ ds1' → f ∈ ds1') as Hnext.
    { intros pre ds1' Hq1 Hfpre Hpre Hds' Hg1.
      assert (f ∈ readyFiberQueue_ s1) as Hf1.
      { rewrite Hq1, elem_of_app. by left. }
      destruct (decide (g ∈ readyFiberQueue_ s1)) as [Hin|Hout].
      - rewrite Hq1, elem_of_app in Hin. destruct Hin as [Hin|Hin]; [by apply Hpre in Hin|].
        apply list_elem_of_split in Hin as (e1 & e2 & ->).
        destruct (wf_ready_facts _ _ f Hwf1 Hf1) as (_ & _ & _ & _ & Hnd).
        assert (readyFiberQueue_ s1 = (pre ++ e1) ++ g :: e2) as Hq1'.
        { rewrite Hq1, <- app_assoc. done. }
        rewrite Hq1' in Hnd. apply NoDup_app in Hnd as (_ & Hdisj & _).
        eapply (ready_fifo sz es s1 s' ts' (pre ++ e1) e2 g ds1' ds2); try done.
        + intros Hin. apply (Hdisj g Hin). by left.
        + rewrite elem_of_app. by left.
      - by eapply (IH s1 s' ts' f g ds1' ds2). }
    destruct (dispatched t1) as [h|].
    + destruct Hshape as (Hq & _).
      destruct (readyFiberQueue_ s) as [|h0 tail] eqn:Hrq; [by apply elem_of_nil in Hf|].
      cbn [app] in Hq. injection Hq as -> Hq.
      destruct ds1 as [|d ds1']; cbn [app] in Hds; injection Hds as -> Hds.
      { exfalso. apply Hg. by left. }
      apply not_elem_of_cons in Hds1 as [Hgh Hds1].
      apply elem_of_cons in Hf as [->|Hf]; [by left|]. right.
      apply (Hnext tail ds1'); try done. intros x Hx. by right.
    + destruct Hshape as (Hq & _). by apply (Hnext (readyFiberQueue_ s) ds1).
Qed.

(** X4: The ready queue is first in, first out. Every step of the scheduler
    takes at most the head out of the ready queue, the fiber it enters, and
    links fibers at the tail only. So, in every run from a reachable state,
    of two fibers in the ready queue the one nearer the head is entered
    before the other, and a fiber in the ready queue is entered before any
    fiber that is not yet in it. *)
Theorem ready_queue_is_fifo sz s :
  reachable sz s →
  (∀ e s' t,
     step sz e s = Some (s', t) →
     ∃ extra,
       match dispatched t with
       | Some h => readyFiberQueue_ s ++ extra = h :: readyFiberQueue_ s'
       | None => readyFiberQueue_ s' = readyFiberQueue_ s ++ extra
       end)
  ∧ (∀ l1 f l2 r l3 es s' ts ds1 ds2,
       readyFiberQueue_ s = l1 ++ f :: l2 ++ r :: l3 →
       run_events sz es s = Some (s', ts) →
       omap dispatched ts = ds1 ++ r :: ds2 → r ∉ ds1 →
       f ∈ ds1)
  ∧ (∀ f g es s' ts ds1 ds2,
       f ∈ readyFiberQueue_ s → g ∉ readyFiberQueue_ s →
       run_events sz es s = Some (s', ts) →
       omap dispatched ts = ds1 ++ g :: ds2 → g ∉ ds1 →
       f ∈ ds1).
Proof.
  intros Hs. pose proof (reachable_wf sz s Hs) as Hwf. split; [|split].
  - intros e s' t Hstep.
    destruct (step_summary sz e s s' t Hwf Hstep) as (extra & _ & Hshape).
    exists extra. cbn [fst snd] in Hshape.
    destruct (dispatched t); by destruct Hshape as (? & _).
  - intros l1 f l2 r l3 es s' ts ds1 ds2 Hq Hrun Hds Hds1.
    assert (r ∈ readyFiberQueue_ s) as Hr.
    { rewrite Hq, elem_of_app, elem_of_cons, elem_of_app, elem_of_cons. auto. }
    destruct (wf_ready_facts _ _ r Hwf Hr) as (_ & _ & _ & _ & Hnd).
    assert (readyFiberQueue_ s = (l1 ++ f :: l2) ++ r :: l3) as Hq'.
    { rewrite Hq, <- app_assoc. done. }
    rewrite Hq' in Hnd. apply NoDup_app in Hnd as (_ & Hdisj & _).
    eapply (ready_fifo sz es s s' ts (l1 ++ f :: l2) l3 r ds1 ds2); try done.
    + intros Hin. apply (Hdisj r Hin). by left.
    + rewrite elem_of_app, elem_of_cons. auto.
  - intros f g es s' ts ds1 ds2 Hf Hg Hrun Hds Hds1.
    by eapply (ready_before_later sz es s s' ts f g ds1 ds2).
Qed.

(** ** From the blocks of [run] to the entry of a woken fiber *)

(** At the top of the loop of [run], a fiber of the ready queue is entered
    the way its record says. *)
Lemma dispatch_entry sz s f fb es s' ts t :
  wf s → runningFiber_ s = None → inRun s = true →
  f ∈ readyFiberQueue_ s → fibers s !! f = Some fb →
  run_events sz es (land (run_dispatch s)).1 = Some (s', ts) →
  first_entry f ((land (run_dispatch s)).2 :: ts) = Some t →
  t = transfer_of f fb.
Proof.
  intros Hwf Hr HinRun Hready Hfb Hrun Hfirst.
  pose proof (run_dispatch_wf _ Hwf Hr HinRun) as Hwfd.
  pose proof (land_wf _ Hwfd) as Hwfl.
  assert (Hsum : summary (readyFiberQueue_ s) (fibers s) (land (run_dispatch s)) []).
  { apply land_summary, run_dispatch_summary; [done | done | by rewrite app_nil_r]. }
  exact (ready_until_entered_from sz _ _ _ _ f _ es s' ts t
           Hsum Hwfl Hready Hfb Hrun Hfirst).
Qed.

(** And there is a run in which it is entered. *)
Lemma dispatch_reaches sz s f :
  wf s → runningFiber_ s = None → inRun s = true →
  f ∈ readyFiberQueue_ s →
  ∃ es s' ts t,
    run_events sz es (land (run_dispatch s)).1 = Some (s', ts)
    ∧ first_entry f ((land (run_dispatch s)).2 :: ts) = Some t.
Proof.
  intros Hwf Hr HinRun Hready.
  pose proof (run_dispatch_wf _ Hwf Hr HinRun) as Hwfd.
  pose proof (land_wf _ Hwfd) as Hwfl.
  apply list_elem_of_split in Hready as (l1 & l2 & Hq).
  destruct l1 as [|x l1].
  - destruct (run_dispatch_enters_head _ f l2 Hwfd Hq) as (Hd & _).
    exists [], (land (run_dispatch s)).1, [], (land (run_dispatch s)).2.
    split; [done|]. apply first_entry_here. by rewrite land_snd.
  - destruct (run_dispatch_enters_head _ x (l1 ++ f :: l2) Hwfd Hq) as (Hd & Hq1 & Hr1).
    destruct (ready_fiber_can_be_entered sz l1 (land (run_dispatch s)).1 f l2)
      as (es & s' & ts & t & Hrun & Hfirst); try done.
    + rewrite land_fst_running, Hr1. by eexists.
    + by rewrite land_fst_ready.
    + destruct (decide (dispatched (land (run_dispatch s)).2 = Some f)) as [Hf|Hf].
      * exists es, s', ts, (land (run_dispatch s)).2.
        split; [done|]. by apply first_entry_here.
      * exists es, s', ts, t. split; [done|]. by rewrite first_entry_skip.
Qed.

(** ** The poll block *)

Lemma run_poll_effect ready s f fb :
  wf s →
  f ∈ aw_fiber <$> filter (is_ready ready) (awaiters (ioPoll_ s)) →
  fibers s !! f = Some fb →
  f ∈ readyFiberQueue_ (run_poll ready s)
  ∧ fibers (run_poll ready s) !! f = Some (wake fb)
  ∧ context fb = Some InAwait.
Proof.
  intros Hwf Hf Hfb.
  assert (context fb = Some InAwait) as Hctx.
  { apply list_elem_of_fmap in Hf as (a & -> & Ha).
    apply list_elem_of_filter in Ha as [_ Ha].
    by destruct (wf_awaiter _ _ Hwf a fb Ha Hfb) as (_ & _ & ?). }
  unfold run_poll, IOPoll_waitForEvents. rewrite run_poll_fold. cbn.
  split; [|split; [|done]].
  - rewrite elem_of_app. by right.
  - rewrite alter_all_lookup by done. by rewrite decide_True, Hfb.
Qed.

(** X5: A fiber awaiting an event that the poll reports is taken out of the
    wait set and the timer by the poll block of [run], with status 1 and [fd]
    -1, and linked in the ready queue; the first transfer that enters it
    afterwards is a [longjmp] into the context saved in [awaitIOEvent] with 1,
    on which [awaitIOEvent] returns 0; and there is a run in which it is
    entered. *)
Theorem poll_wakes_awaiter sz ready s a :
  wf s → runningFiber_ s = None → inRun s = true →
  a ∈ awaiters (ioPoll_ s) → (aw_fd a, aw_event a) ∈ ready →
  (aw_fiber a ∉ waiting (run_poll ready s))
  ∧ (aw_fiber a ∉ timed (run_poll ready s))
  ∧ aw_fiber a ∈ readyFiberQueue_ (run_poll ready s)
  ∧ (∃ fb, fibers (run_poll ready s) !! aw_fiber a = Some fb
           ∧ fd fb = -1 ∧ status fb = 1 ∧ context fb = Some InAwait)
  ∧ (∀ es s' ts t,
       run_events sz es (land (run_dispatch (run_timer (run_poll ready s)))).1
       = Some (s', ts) →
       first_entry (aw_fiber a)
         ((land (run_dispatch (run_timer (run_poll ready s)))).2 :: ts) = Some t →
       t = Longjmp (aw_fiber a) InAwait 1
       ∧ ∀ s0, awaitIOEvent_resume 1 s0 = (0, s0))
  ∧ (∃ es s' ts t,
       run_events sz es (land (run_dispatch (run_timer (run_poll ready s)))).1
       = Some (s', ts)
       ∧ first_entry (aw_fiber a)
           ((land (run_dispatch (run_timer (run_poll ready s)))).2 :: ts) = Some t).
Proof.
  intros Hwf Hr HinRun Ha Hev.
  pose proof (run_poll_wf ready s Hwf) as Hwfp.
  pose proof (run_timer_wf _ Hwfp) as Hwft.
  destruct (run_poll_frame ready s) as [Hrp Hip]. rewrite Hr in Hrp. rewrite HinRun in Hip.
  destruct (run_timer_frame (run_poll ready s)) as [Hrt Hit].
  rewrite Hrp in Hrt. rewrite Hip in Hit.
  assert (aw_fiber a ∈ aw_fiber <$> filter (is_ready ready) (awaiters (ioPoll_ s)))
    as Hf.
  { apply list_elem_of_fmap_2, list_elem_of_filter. by split. }
  destruct (wf_live _ _ Hwf (aw_fiber a)) as [fb Hfb].
  { apply elem_of_app. right. apply (wf_waiting_timed _ _ Hwf).
    by apply list_elem_of_fmap_2. }
  destruct (run_poll_effect ready s _ fb Hwf Hf Hfb) as (Hready & Hfb' & Hctx).
  destruct (wf_ready_facts _ _ _ Hwfp Hready) as (_ & _ & HfW & HfT & _).
  destruct (run_timer_ready_frame _ Hwfp) as (buffer & Hq & Hframe).
  assert (aw_fiber a ∈ readyFiberQueue_ (run_timer (run_poll ready s))) as Hready'.
  { rewrite Hq, elem_of_app. by left. }
  assert (fibers (run_timer (run_poll ready s)) !! aw_fiber a = Some (wake fb)) as Hfb''.
  { by rewrite Hframe. }
  split; [done|]. split; [done|]. split; [done|]. split; [|split].
  - eexists. split; [exact Hfb'|]. done.
  - intros es s' ts t Hrun Hfirst.
    rewrite (dispatch_entry sz _ _ _ es s' ts t Hwft Hrt Hit Hready' Hfb'' Hrun Hfirst).
    unfold transfer_of. cbn. rewrite Hctx. done.
  - by apply dispatch_reaches.
Qed.

(** ** The timer block and a sleeping fiber *)

Lemma run_timer_fold_record_gen buf : ∀ s f fb,
  NoDup buf → f ∈ buf → fibers s !! f = Some fb →
  fibers (foldl run_timer_item s buf) !! f
  = Some (if 0 <=? fd fb then set_status (- ETIME) (set_fd (-1) fb) else fb).
Proof.
  induction buf as [|x buf IH]; intros s f fb Hnd Hf Hfb;
    [by apply elem_of_nil in Hf|].
  apply NoDup_cons in Hnd as [Hx Hnd]. cbn [foldl].
  destruct (decide (f = x)) as [->|Hne].
  - destruct (run_timer_fold_ready_frame buf (run_timer_item s x)) as [_ Hframe].
    rewrite (Hframe x Hx). unfold run_timer_item. rewrite Hfb.
    destruct (0 <=? fd fb); [|done]. cbn.
    by rewrite !lookup_alter_eq, Hfb.
  - apply elem_of_cons in Hf as [?|Hf]; [done|].
    apply IH; try done. by rewrite run_timer_item_other.
Qed.

(** X6: A sleeping fiber whose timer item is drained by the timer block of
    [run] is linked in the ready queue and is next entered by a [longjmp] into
    the context saved in [sleepCurrentFiber] with a status that is not 0, so
    that [sleepCurrentFiber] returns: the saved status if the [fd] field of
    the fiber is negative, and [-ETIME] if the field still holds an fd. There
    is a run in which the fiber is entered. *)
Theorem timer_expiry_wakes_sleeper sz s f fb :
  wf s → runningFiber_ s = None → inRun s = true →
  f ∉ waiting s → fibers s !! f = Some fb →
  f ∈ (Timer_removeDueItems (clock s) 1024 (timer_ s)).1 →
  (f ∉ timed (run_timer s))
  ∧ f ∈ readyFiberQueue_ (run_timer s)
  ∧ (∀ es s' ts t,
       run_events sz es (land (run_dispatch (run_timer s))).1 = Some (s', ts) →
       first_entry f ((land (run_dispatch (run_timer s))).2 :: ts) = Some t →
       ∃ st, t = Longjmp f InSleep st ∧ st ≠ 0
             ∧ (fd fb < 0 → st = status fb)
             ∧ (0 ≤ fd fb → st = - ETIME))
  ∧ (∃ es s' ts t,
       run_events sz es (land (run_dispatch (run_timer s))).1 = Some (s', ts)
       ∧ first_entry f ((land (run_dispatch (run_timer s))).2 :: ts) = Some t).
Proof.
  intros Hwf Hr HinRun Hfw Hfb Hbuf. pose proof (run_timer_wf s Hwf) as Hwf'.
  destruct (run_timer_frame s) as [Hr' HinRun'].
  rewrite Hr in Hr'. rewrite HinRun in HinRun'.
  assert (f ∈ timed s) as HfT.
  { destruct (Timer_removeDueItems (clock s) 1024 (timer_ s)) as [buffer rest] eqn:Hrm.
    unfold timed. rewrite (Timer_removeDueItems_perm _ _ _ _ _ Hrm), elem_of_app.
    by left. }
  pose proof (wf_sleeper _ _ Hwf f fb HfT Hfw Hfb) as Hctx.
  destruct (wf_timed_context _ _ f fb Hwf HfT Hfb) as [_ Hst].
  assert (f ∈ readyFiberQueue_ (run_timer s)
          ∧ fibers (run_timer s) !! f
            = Some (if 0 <=? fd fb then set_status (- ETIME) (set_fd (-1) fb) else fb))
    as [Hready Hfb'].
  { unfold run_timer.
    destruct (Timer_removeDueItems (clock s) 1024 (timer_ s)) as [buffer rest] eqn:Hrm.
    cbn in Hbuf. split.
    - destruct (run_timer_fold_ready_frame buffer (set_timer rest s)) as [-> _].
      rewrite elem_of_app. by right.
    - apply run_timer_fold_record_gen; try done.
      pose proof (wf_timed _ _ Hwf) as Hnd. unfold timed in Hnd.
      rewrite (Timer_removeDueItems_perm _ _ _ _ _ Hrm) in Hnd.
      by apply NoDup_app in Hnd as [? _]. }
  destruct (wf_ready_facts _ _ f Hwf' Hready) as (_ & _ & _ & HfT' & _).
  split; [done|]. split; [done|]. split.
  - intros es s' ts t Hrun Hfirst.
    rewrite (dispatch_entry sz _ _ _ es s' ts t Hwf' Hr' HinRun' Hready Hfb' Hrun Hfirst).
    unfold transfer_of. destruct (Z.leb_spec 0 (fd fb)) as [Hfd|Hfd]; cbn; rewrite Hctx.
    + exists (- ETIME). split; [done|]. split; [done|]. split; [lia | done].
    + exists (status fb). split; [done|]. split; [done|]. split; [done | lia].
  - by apply dispatch_reaches.
Qed.

(** ** [unwatchIO] and the other fds *)

Lemma Timer_removeItems_filter X : ∀ q,
  foldl (λ t f, Timer_removeItem f t) q X = filter (λ it, owner it ∉ X) q.
Proof.
  induction X as [|x X IH]; intros q; cbn [foldl].
  - symmetry. apply filter_all. intros it _. apply not_elem_of_nil.
  - rewrite IH. unfold Timer_removeItem. rewrite list_filter_filter.
    apply list_filter_iff. intros it. rewrite not_elem_of_cons. tauto.
Qed.

(** X8: [unwatchIO d] switches no fiber, takes [d] alone out of the watched
    fds, and leaves alone the fibers that wait on other fds (their wait
    records, timer items and [Fiber] records), the sleeping fibers and the
    ready fibers. *)
Theorem unwatchIO_spares_other_fds d s :
  wf s →
  runningFiber_ (unwatchIO d s) = runningFiber_ s
  ∧ (∀ d', ioIsWatched d' (unwatchIO d s)
           = if decide (d' = d) then false else ioIsWatched d' s)
  ∧ (∀ a, a ∈ awaiters (ioPoll_ s) → aw_fd a ≠ d →
       a ∈ awaiters (ioPoll_ (unwatchIO d s))
       ∧ fibers (unwatchIO d s) !! aw_fiber a = fibers s !! aw_fiber a
       ∧ ∀ it, it ∈ timer_ s → owner it = aw_fiber a → it ∈ timer_ (unwatchIO d s))
  ∧ (∀ it, it ∈ timer_ s → owner it ∉ waiting s →
       it ∈ timer_ (unwatchIO d s)
       ∧ fibers (unwatchIO d s) !! owner it = fibers s !! owner it)
  ∧ (∀ f, f ∈ readyFiberQueue_ s →
       f ∈ readyFiberQueue_ (unwatchIO d s)
       ∧ fibers (unwatchIO d s) !! f = fibers s !! f).
Proof.
  intros Hwf.
  assert (∀ f, f ∈ aw_fiber <$> filter (λ a, aw_fd a = d) (awaiters (ioPoll_ s)) →
               f ∈ waiting s) as HX.
  { intros f Hf. apply list_elem_of_fmap in Hf as (a & -> & Ha).
    apply list_elem_of_filter in Ha as [_ Ha]. by apply list_elem_of_fmap_2. }
  assert (∀ a, a ∈ awaiters (ioPoll_ s) → aw_fd a ≠ d →
               aw_fiber a ∉ aw_fiber <$> filter (λ a, aw_fd a = d) (awaiters (ioPoll_ s)))
    as Hother.
  { intros a Ha Hne Hin. apply list_elem_of_fmap in Hin as (b & Hab & Hb).
    apply list_elem_of_filter in Hb as [Hbd Hb].
    rewrite <- (NoDup_fmap_inj_on aw_fiber _ a b (wf_waiting_NoDup _ _ Hwf) Ha Hb Hab)
      in Hbd.
    done. }
  unfold unwatchIO, IOPoll_removeEventAwaiters. rewrite unwatchIO_fold.
  cbn [runningFiber_ ioPoll_ fibers timer_ readyFiberQueue_ set_ready set_fibers
       set_timer set_ioPoll awaiters watched].
  rewrite Timer_removeItems_filter.
  split; [done|]. split; [|split; [|split]].
  - intros d'. unfold ioIsWatched, IOPoll_isWatched. cbn [ioPoll_ watched].
    case_decide as Hd.
    + apply bool_decide_eq_false. set_solver.
    + apply bool_decide_ext. set_solver.
  - intros a Ha Hne. split; [by apply list_elem_of_filter|]. split.
    + rewrite alter_all_lookup by done. rewrite decide_False; [done|]. by apply Hother.
    + intros it Hit Hown. apply list_elem_of_filter. split; [|done].
      rewrite Hown. by apply Hother.
  - intros it Hit Hnw. split.
    + apply list_elem_of_filter. split; [|done]. intros Hin. by apply Hnw, HX.
    + rewrite alter_all_lookup by done. rewrite decide_False; [done|].
      intros Hin. by apply Hnw, HX.
  - intros f Hf. split; [rewrite elem_of_app; by left|].
    rewrite alter_all_lookup by done. rewrite decide_False; [done|].
    intros Hin. destruct (wf_ready_facts _ _ f Hwf Hf) as (_ & _ & HfW & _).
    by apply HfW, HX.
Qed.

(** X9: [unwatchIO d] does not reset the [fd] field of the fibers it wakes:
    such a fiber is no longer in a wait set and [d] is no longer watched, but
    its record still holds [fd = d >= 0] beside the status [-EBADF]. *)
Theorem unwatchIO_leaves_fd_field d s a :
  wf s → a ∈ awaiters (ioPoll_ s) → aw_fd a = d →
  ioIsWatched d (unwatchIO d s) = false
  ∧ (aw_fiber a ∉ waiting (unwatchIO d s))
  ∧ ∃ fb, fibers (unwatchIO d s) !! aw_fiber a = Some fb
          ∧ fd fb = d ∧ 0 ≤ fd fb ∧ status fb = - EBADF.
Proof.
  intros Hwf Ha Hd.
  assert (aw_fiber a ∈ aw_fiber <$> filter (λ a, aw_fd a = d) (awaiters (ioPoll_ s)))
    as Hf.
  { apply list_elem_of_fmap_2, list_elem_of_filter. by split. }
  destruct (wf_live _ _ Hwf (aw_fiber a)) as [fb Hfb].
  { apply elem_of_app. right. apply (wf_waiting_timed _ _ Hwf).
    by apply list_elem_of_fmap_2. }
  destruct (wf_awaiter _ _ Hwf a fb Ha Hfb) as (Hfd & Hfd0 & _).
  destruct (unwatchIO_effect d s _ fb Hwf Hf Hfb) as (Hready & Hfb' & _).
  destruct (wf_ready_facts _ _ _ (unwatchIO_wf d s Hwf) Hready) as (_ & _ & HfW & _).
  split; [|split; [done|]].
  - unfold unwatchIO, IOPoll_removeEventAwaiters. rewrite unwatchIO_fold.
    unfold ioIsWatched, IOPoll_isWatched. cbn. apply bool_decide_eq_false. set_solver.
  - eexists. split; [exact Hfb'|]. cbn. rewrite Hfd. split; [done|]. split; [lia|done].
Qed.

(** ** Dead fibers have no saved context *)

Lemma dead_clean_same_context s s' :
  dead_clean s →
  (∀ f, f ∈ deadFiberQueue_ s' → f ∈ deadFiberQueue_ s) →
  (∀ f, f ∈ deadFiberQueue_ s' →
        context <$> fibers s' !! f = context <$> fibers s !! f) →
  dead_clean s'.
Proof.
  intros Hc Hd Hctx f fb' Hf Hfb'.
  specialize (Hctx f Hf). rewrite Hfb' in Hctx.
  destruct (fibers s !! f) as [fb|] eqn:Hfb; [|done].
  cbn in Hctx. injection Hctx as ->. apply (Hc f fb); [by apply Hd | done].
Qed.

Lemma land_fst_dead r : deadFiberQueue_ (land r).1 = deadFiberQueue_ r.1.
Proof.
  destruct r as [s t]. unfold land.
  destruct t as [| |f site st| | | | |]; try done.
  destruct site; try done. unfold awaitIOEvent_resume. by destruct (st <? 0).
Qed.

Lemma land_dead_clean r : dead_clean r.1 → dead_clean (land r).1.
Proof.
  intros Hc. eapply dead_clean_same_context; [exact Hc | |].
  - intros f. by rewrite land_fst_dead.
  - intros f _. by rewrite land_fst_fibers.
Qed.

Lemma switchFiber_fst_dead s : deadFiberQueue_ (switchFiber s).1 = deadFiberQueue_ s.
Proof. rewrite switchFiber_fst. by destruct (readyFiberQueue_ s). Qed.

Lemma yieldCurrentFiber_dead_clean s :
  wf s → dead_clean s → is_Some (runningFiber_ s) →
  dead_clean (yieldCurrentFiber s).1.
Proof.
  intros Hwf Hc [r Hr].
  destruct (readyFiberQueue_ s) as [|f0 q] eqn:Hq.
  { unfold yieldCurrentFiber. by rewrite Hr, Hq. }
  rewrite (yieldCurrentFiber_fst s r f0 q Hr Hq).
  destruct (wf_running_facts _ _ _ Hwf Hr) as (_ & _ & HrD & _).
  eapply dead_clean_same_context; [exact Hc | done |].
  intros f Hf. sched_simpl. rewrite !lookup_alter_ne; [done | |]; by intros ->.
Qed.

Lemma sleepCurrentFiber_dead_clean duration s :
  wf s → dead_clean s → is_Some (runningFiber_ s) →
  dead_clean (sleepCurrentFiber duration s).1.
Proof.
  intros Hwf Hc [r Hr]. unfold sleepCurrentFiber. rewrite Hr.
  destruct (wf_running_facts _ _ _ Hwf Hr) as (_ & _ & HrD & _).
  eapply dead_clean_same_context; [exact Hc | |].
  - intros f. by rewrite switchFiber_fst_dead.
  - intros f. rewrite switchFiber_fst_dead, switchFiber_fst_fibers. sched_simpl.
    intros Hf. rewrite !lookup_alter_ne; [done | |]; by intros ->.
Qed.

Lemma awaitIOEvent_dead_clean d ev timeout s :
  wf s → dead_clean s → is_Some (runningFiber_ s) →
  dead_clean (awaitIOEvent d ev timeout s).1.
Proof.
  intros Hwf Hc [r Hr]. unfold awaitIOEvent. rewrite Hr.
  destruct (wf_running_facts _ _ _ Hwf Hr) as (_ & _ & HrD & _).
  eapply dead_clean_same_context; [exact Hc | |].
  - intros f. by rewrite switchFiber_fst_dead.
  - intros f. rewrite switchFiber_fst_dead, switchFiber_fst_fibers. sched_simpl.
    intros Hf. rewrite !lookup_alter_ne; [done | | |]; by intros ->.
Qed.

Lemma killCurrentFiber_dead_clean s :
  dead_clean s → is_Some (runningFiber_ s) → dead_clean (killCurrentFiber s).1.
Proof.
  intros Hc [r Hr]. unfold killCurrentFiber. rewrite Hr.
  intros f fb'. rewrite switchFiber_fst_dead, switchFiber_fst_fibers. sched_simpl.
  destruct (decide (f = r)) as [->|Hne].
  - intros _. rewrite !lookup_alter_eq.
    destruct (fibers s !! r) as [fb|]; [|done]. by intros [= <-].
  - rewrite !lookup_alter_ne by done. rewrite elem_of_app, list_elem_of_singleton.
    intros [Hf|?]; [|done]. by apply Hc.
Qed.

Lemma callCoroutine_dead_clean sz c region s s' :
  dead_clean s → callCoroutine sz c region s = Ok s' → dead_clean s'.
Proof.
  intros Hc. unfold callCoroutine.
  destruct (deadFiberQueue_ s) as [|h dead] eqn:Hdead.
  - destruct (CreateFiber sz c region) as [[f fb]|]; [|done].
    intros [= <-] g fb'. sched_simpl. rewrite Hdead. intros Hg.
    by apply elem_of_nil in Hg.
  - intros [= <-]. eapply dead_clean_same_context; [exact Hc | |].
    + intros f. sched_simpl. rewrite Hdead. by right.
    + intros f _. sched_simpl. destruct (decide (f = h)) as [->|Hne].
      * rewrite lookup_alter_eq. by destruct (fibers s !! h).
      * by rewrite lookup_alter_ne.
Qed.

Lemma unwatchIO_dead_clean d s : dead_clean s → dead_clean (unwatchIO d s).
Proof.
  intros Hc. unfold unwatchIO, IOPoll_removeEventAwaiters. rewrite unwatchIO_fold.
  eapply dead_clean_same_context; [exact Hc | done |].
  intros f _. sched_simpl. rewrite alter_all_lookup by done.
  case_decide; [|done]. by destruct (fibers s !! f).
Qed.

Lemma run_dispatch_fst_dead s :
  deadFiberQueue_ (run_dispatch s).1 = deadFiberQueue_ s
  ∧ fibers (run_dispatch s).1 = fibers s.
Proof. rewrite run_dispatch_fst. by destruct (readyFiberQueue_ s). Qed.

Lemma run_enter_dead_clean s : dead_clean s → dead_clean (run_enter s).1.
Proof.
  intros Hc. unfold run_enter. destruct (runningFiber_ s); [done|].
  destruct (fiberCount_ s =? 0); [done|].
  destruct (run_dispatch_fst_dead (set_inRun true s)) as [Hd Hf].
  eapply dead_clean_same_context; [exact Hc | |].
  - intros f. by rewrite Hd.
  - intros f _. by rewrite Hf.
Qed.

Lemma run_rounds_dead ready s :
  deadFiberQueue_ (run_dispatch (run_timer (run_poll ready s))).1 = deadFiberQueue_ s.
Proof.
  destruct (run_dispatch_fst_dead (run_timer (run_poll ready s))) as [-> _].
  unfold run_timer.
  destruct (Timer_removeDueItems _ 1024 _) as [buffer rest].
  destruct (run_timer_fold_account buffer (set_timer rest (run_poll ready s)))
    as (_ & _ & -> & _).
  unfold run_poll, IOPoll_waitForEvents. by rewrite run_poll_fold.
Qed.

(** A round of [run] leaves the dead queue empty. *)
Lemma run_iteration_dead ready s : deadFiberQueue_ (run_iteration ready s).1 = [].
Proof.
  unfold run_iteration. destruct (deadFiberQueue_ s) as [|f D] eqn:HD.
  - by rewrite run_rounds_dead.
  - assert (deadFiberQueue_ (run_reap s) = []) as Hreap by done.
    destruct (fiberCount_ (run_reap s) =? 0); [done|].
    by rewrite run_rounds_dead.
Qed.

Lemma step_dead_clean sz e s s' t :
  wf s → dead_clean s → step sz e s = Some (s', t) → dead_clean s'.
Proof.
  intros Hwf Hc.
  destruct e as [dt|c region| |duration|d ev timeout| |d|d| |ready]; cbn [step].
  - case_bool_decide; [|done]. by intros [= <- <-].
  - destruct (user_code s && _); [|done].
    destruct (callCoroutine sz c region s) as [s1|] eqn:Hcall; [|done].
    intros [= <- <-]. by eapply callCoroutine_dead_clean.
  - case_bool_decide as Hr; [|done]. intros Hs.
    change s' with ((s', t).1). injection Hs as <-.
    by apply land_dead_clean, yieldCurrentFiber_dead_clean.
  - case_bool_decide as Hr; [|done]. intros Hs.
    change s' with ((s', t).1). injection Hs as <-.
    by apply land_dead_clean, sleepCurrentFiber_dead_clean.
  - destruct (bool_decide _ && _) eqn:Hg; [|done].
    apply andb_prop in Hg as [Hr Hd]. apply bool_decide_eq_true in Hr.
    intros Hs. change s' with ((s', t).1). injection Hs as <-.
    by apply land_dead_clean, awaitIOEvent_dead_clean.
  - case_bool_decide as Hr; [|done]. intros Hs.
    change s' with ((s', t).1). injection Hs as <-.
    by apply land_dead_clean, killCurrentFiber_dead_clean.
  - destruct (user_code s && _); [|done]. by intros [= <- <-].
  - destruct (user_code s); [|done]. intros [= <- <-]. by apply unwatchIO_dead_clean.
  - destruct (bool_decide _ && _); [|done].
    intros Hs. change s' with ((s', t).1). injection Hs as <-.
    by apply land_dead_clean, run_enter_dead_clean.
  - destruct (bool_decide _ && _); [|done].
    intros Hs. change s' with ((s', t).1). injection Hs as <-.
    intros f fb Hf. rewrite land_fst_dead, run_iteration_dead in Hf.
    by apply elem_of_nil in Hf.
Qed.

Lemma reachable_dead_clean sz s : reachable sz s → dead_clean s.
Proof.
  induction 1 as [e c | s e s' t Hs IH Hstep].
  - intros f fb Hf. by apply elem_of_nil in Hf.
  - eapply step_dead_clean; [by eapply reachable_wf | done | done].
Qed.

(** X7: [callCoroutine] on a non-empty dead queue maps no memory: it takes
    the head of the dead queue, assigns the coroutine and links the fiber at
    the tail of the ready queue, [fiberCount_] unchanged. In a reachable state
    that fiber has no saved context and status 0, so it is next entered by a
    bootstrap of its stack, never by a [longjmp] into a context of its
    previous life. *)
Theorem recycled_fiber_is_bootstrapped sz c region s f dead :
  reachable sz s → deadFiberQueue_ s = f :: dead →
  ∃ s1 fb,
    callCoroutine sz c region s = Ok s1
    ∧ fiberCount_ s1 = fiberCount_ s
    ∧ deadFiberQueue_ s1 = dead
    ∧ readyFiberQueue_ s1 = readyFiberQueue_ s ++ [f]
    ∧ fibers s1 !! f = Some fb
    ∧ coroutine fb = c ∧ context fb = None ∧ status fb = 0
    ∧ (∀ es s' ts t,
         run_events sz es s1 = Some (s', ts) → first_entry f ts = Some t →
         t = Bootstrap f)
    ∧ (is_Some (runningFiber_ s) →
       ∃ es s' ts t, run_events sz es s1 = Some (s', ts) ∧ first_entry f ts = Some t).
Proof.
  intros Hs Hdead. pose proof (reachable_wf sz s Hs) as Hwf.
  pose proof (reachable_dead_clean sz s Hs) as Hc.
  destruct (wf_live _ _ Hwf f) as [fb Hfb].
  { rewrite elem_of_app, queued_elem_of, Hdead. left. right. right. by left. }
  assert (context fb = None) as Hctx.
  { apply (Hc f fb); [|done]. rewrite Hdead. by left. }
  assert (status fb = 0) as Hst by (by apply (wf_status _ _ Hwf f fb)).
  assert (callCoroutine sz c region s
          = Ok (set_ready (readyFiberQueue_ s ++ [f])
                  (update_fiber f (set_coroutine c) (set_dead dead s)))) as Hcall.
  { unfold callCoroutine. by rewrite Hdead. }
  pose proof (callCoroutine_wf sz c region s _ Hwf
                ltac:(by rewrite Hdead) Hcall) as Hwf1.
  eexists _, (set_coroutine c fb). split; [exact Hcall|]. sched_simpl.
  assert (alter (set_coroutine c) f (fibers s) !! f = Some (set_coroutine c fb)) as Hfb1.
  { by rewrite lookup_alter_eq, Hfb. }
  assert (f ∈ readyFiberQueue_ s ++ [f]) as Hready.
  { rewrite elem_of_app, list_elem_of_singleton. by right. }
  do 7 (split; [done|]). split.
  - intros es s' ts t Hrun Hfirst.
    rewrite (ready_until_entered sz es _ s' ts f _ t Hwf1 Hready Hfb1 Hrun Hfirst).
    unfold transfer_of. cbn. by rewrite Hctx.
  - intros Hr.
    apply (ready_fiber_can_be_entered sz (readyFiberQueue_ s) _ f []); done.
Qed.

(** ** Where an entered fiber comes from *)

Lemma executeFiber_dispatched f s h :
  dispatched (executeFiber f s).2 = Some h →
  h = f ∧ runningFiber_ (executeFiber f s).1 = Some h.
Proof.
  rewrite executeFiber_fst. unfold executeFiber.
  destruct (fibers _ !! f) as [fb|]; [|done].
  destruct (context fb); [destruct (status fb =? 0)|]; cbn; by intros [= ->].
Qed.

Lemma switchFiber_dispatched s h :
  dispatched (switchFiber s).2 = Some h →
  h ∈ readyFiberQueue_ s ∧ runningFiber_ (switchFiber s).1 = Some h.
Proof.
  unfold switchFiber. destruct (readyFiberQueue_ s) as [|f q].
  - by rewrite execute_snd.
  - intros Hd. apply executeFiber_dispatched in Hd as [-> Hr]. split; [by left | done].
Qed.

Lemma run_dispatch_dispatched s h :
  dispatched (run_dispatch s).2 = Some h →
  h ∈ readyFiberQueue_ s ∧ runningFiber_ (run_dispatch s).1 = Some h.
Proof.
  unfold run_dispatch. destruct (readyFiberQueue_ s) as [|f q]; [done|].
  intros Hd. apply executeFiber_dispatched in Hd as [-> Hr]. split; [by left | done].
Qed.

Lemma run_rounds_dispatched ready s h :
  dispatched (run_dispatch (run_timer (run_poll ready s))).2 = Some h →
  (h ∈ readyFiberQueue_ s ∨ h ∈ waiting s ∨ h ∈ timed s)
  ∧ runningFiber_ (run_dispatch (run_timer (run_poll ready s))).1 = Some h.
Proof.
  intros Hd. apply run_dispatch_dispatched in Hd as [Hin Hr]. split; [|done].
  revert Hin. unfold run_timer.
  destruct (Timer_removeDueItems (clock (run_poll ready s)) 1024
              (timer_ (run_poll ready s))) as [buffer rest] eqn:Hrm.
  destruct (run_timer_fold_ready_frame buffer (set_timer rest (run_poll ready s)))
    as [-> _].
  apply Timer_removeDueItems_perm in Hrm. sched_simpl.
  assert (∀ g, g ∈ buffer → g ∈ timed s) as Hbuf.
  { intros g Hg.
    assert (g ∈ owner <$> timer_ (run_poll ready s)) as Hin.
    { rewrite Hrm, elem_of_app. by left. }
    revert Hin. unfold run_poll, IOPoll_waitForEvents. rewrite run_poll_fold.
    sched_simpl. rewrite Timer_removeItems_owners, list_elem_of_filter. by intros [_ ?]. }
  unfold run_poll, IOPoll_waitForEvents at 1. rewrite run_poll_fold. sched_simpl.
  rewrite !elem_of_app. intros [[Hin|Hin]|Hin]; [by left | | by right; right; apply Hbuf].
  right. left. apply list_elem_of_fmap in Hin as (a & -> & Ha).
  apply list_elem_of_filter in Ha as [_ Ha]. by apply list_elem_of_fmap_2.
Qed.

Lemma run_reap_links s :
  readyFiberQueue_ (run_reap s) = readyFiberQueue_ s
  ∧ waiting (run_reap s) = waiting s ∧ timed (run_reap s) = timed s.
Proof. unfold run_reap, waiting, timed. by rewrite run_reap_fold. Qed.

(** The fiber a step enters was ready, or, in a round of [run], awaited I/O
    or owned a timer item; it is the running fiber afterwards. *)
Lemma step_dispatched sz e s s' t h :
  step sz e s = Some (s', t) → dispatched t = Some h →
  (h ∈ readyFiberQueue_ s ∨ h ∈ waiting s ∨ h ∈ timed s)
  ∧ runningFiber_ s' = Some h.
Proof.
  assert (∀ r : Scheduler * Transfer,
            (dispatched r.2 = Some h →
             h ∈ readyFiberQueue_ s ∧ runningFiber_ r.1 = Some h) →
            land r = (s', t) → dispatched t = Some h →
            (h ∈ readyFiberQueue_ s ∨ h ∈ waiting s ∨ h ∈ timed s)
            ∧ runningFiber_ s' = Some h) as Hland.
  { intros r Hr Hs Hd.
    assert (s' = (land r).1 ∧ t = (land r).2) as [-> ->] by (by rewrite Hs).
    rewrite land_snd in Hd. rewrite land_fst_running.
    destruct (Hr Hd) as [? ?]. auto. }
  destruct e as [dt|c region| |duration|d ev timeout| |d|d| |ready]; cbn [step].
  - case_bool_decide; [|done]. by intros [= <- <-].
  - destruct (user_code s && _); [|done].
    destruct (callCoroutine _ _ _ _); [|done]. by intros [= <- <-].
  - case_bool_decide as Hr; [|done]. intros [= Hs]. revert Hs. apply Hland.
    destruct Hr as [r Hr]. unfold yieldCurrentFiber. rewrite Hr.
    destruct (readyFiberQueue_ s) as [|f0 q] eqn:Hq; [done|].
    sched_simpl. rewrite ?Hq. cbn [app]. intros Hd.
    apply executeFiber_dispatched in Hd as [-> Hd]. split; [by left | done].
  - case_bool_decide as Hr; [|done]. intros [= Hs]. revert Hs. apply Hland.
    destruct Hr as [r Hr]. unfold sleepCurrentFiber. rewrite Hr.
    intros Hd. by apply switchFiber_dispatched in Hd.
  - destruct (bool_decide _ && _) eqn:Hg; [|done].
    apply andb_prop in Hg as [Hr _]. apply bool_decide_eq_true in Hr.
    intros [= Hs]. revert Hs. apply Hland.
    destruct Hr as [r Hr]. unfold awaitIOEvent. rewrite Hr.
    intros Hd. by apply switchFiber_dispatched in Hd.
  - case_bool_decide as Hr; [|done]. intros [= Hs]. revert Hs. apply Hland.
    destruct Hr as [r Hr]. unfold killCurrentFiber. rewrite Hr.
    intros Hd. by apply switchFiber_dispatched in Hd.
  - destruct (user_code s && _); [|done]. by intros [= <- <-].
  - destruct (user_code s); [|done]. by intros [= <- <-].
  - destruct (bool_decide _ && _) eqn:Hg; [|done]. intros [= Hs]. revert Hs.
    apply Hland. unfold run_enter. destruct (runningFiber_ s); [done|].
    destruct (fiberCount_ s =? 0); [done|].
    intros Hd. by apply run_dispatch_dispatched in Hd.
  - destruct (bool_decide _ && _) eqn:Hg; [|done]. intros [= Hs] Hd.
    assert (s' = (land (run_iteration ready s)).1
            ∧ t = (land (run_iteration ready s)).2) as [-> ->] by (by rewrite Hs).
    rewrite land_snd in Hd. rewrite land_fst_running. revert Hd.
    unfold run_iteration. destruct (deadFiberQueue_ s) as [|f D].
    + apply run_rounds_dispatched.
    + destruct (fiberCount_ (run_reap s) =? 0); [done|].
      intros Hd. apply run_rounds_dispatched in Hd.
      destruct (run_reap_links s) as (Hq & Hw & Ht). by rewrite Hq, Hw, Ht in Hd.
Qed.

(** X17: The fiber a step enters was in the ready queue, in a wait set or in
    the timer; it was not dead, it is the running fiber afterwards and is not
    dead then, its record exists, and it is entered as the record says, its
    context being null exactly when its status is 0. *)
Theorem entered_fiber_is_alive sz e s s' t h :
  reachable sz s → step sz e s = Some (s', t) → dispatched t = Some h →
  (h ∈ readyFiberQueue_ s ∨ h ∈ waiting s ∨ h ∈ timed s)
  ∧ (h ∉ deadFiberQueue_ s)
  ∧ runningFiber_ s' = Some h
  ∧ (h ∉ deadFiberQueue_ s')
  ∧ ∃ fb, fibers s' !! h = Some fb ∧ t = transfer_of h fb
          ∧ (context fb = None ↔ status fb = 0).
Proof.
  intros Hs Hstep Hd. pose proof (reachable_wf sz s Hs) as Hwf.
  pose proof (step_wf sz e s s' t Hwf Hstep) as Hwf'.
  destruct (step_dispatched sz e s s' t h Hstep Hd) as [Horigin Hr].
  split; [done|]. split; [|split; [done|split]].
  - intros Hdead.
    assert (h ∈ queued s) as Hq by (apply queued_elem_of; auto).
    destruct Horigin as [Hin|[Hin|Hin]].
    + by destruct (wf_ready_facts _ _ h Hwf Hin) as (_ & ? & _).
    + pose proof (wf_linked _ _ Hwf) as Hnd.
      apply NoDup_app in Hnd as (_ & Hdisj & _). by apply (Hdisj h).
    + by apply (wf_timed_parked _ _ Hwf h).
  - by destruct (wf_running_facts _ _ h Hwf' Hr) as (_ & _ & ? & _).
  - destruct (step_summary sz e s s' t Hwf Hstep) as (extra & _ & Hshape).
    cbn [fst snd] in Hshape. rewrite Hd in Hshape.
    destruct Hshape as (_ & fb & Hfb & Ht & _).
    exists fb. split; [done|]. split; [done|].
    pose proof (wf_status _ _ Hwf' h fb Hfb). tauto.
Qed.

(** ** The reap block of [run] *)

Lemma run_rounds_records ready s :
  fiberCount_ (run_dispatch (run_timer (run_poll ready s))).1 = fiberCount_ s
  ∧ dom (fibers (run_dispatch (run_timer (run_poll ready s))).1) = dom (fibers s).
Proof.
  destruct (run_dispatch_fst_dead (run_timer (run_poll ready s))) as [_ ->].
  assert (fiberCount_ (run_dispatch (run_timer (run_poll ready s))).1
          = fiberCount_ (run_timer (run_poll ready s))) as ->.
  { rewrite run_dispatch_fst. by destruct (readyFiberQueue_ _). }
  unfold run_timer.
  destruct (Timer_removeDueItems _ 1024 _) as [buffer rest].
  destruct (run_timer_fold_account buffer (set_timer rest (run_poll ready s)))
    as (-> & _ & _ & ->).
  unfold run_poll, IOPoll_waitForEvents. rewrite run_poll_fold. sched_simpl.
  split; [done | apply dom_alter_all].
Qed.

Lemma run_iteration_records ready s :
  fiberCount_ (run_iteration ready s).1
  = fiberCount_ s - Z.of_nat (length (deadFiberQueue_ s))
  ∧ ∀ f, is_Some (fibers (run_iteration ready s).1 !! f)
         ↔ is_Some (fibers s !! f) ∧ f ∉ deadFiberQueue_ s.
Proof.
  unfold run_iteration. destruct (deadFiberQueue_ s) as [|f0 D] eqn:HD.
  - destruct (run_rounds_records ready s) as [-> Hdom]. split; [cbn; lia|].
    intros f. rewrite <- !elem_of_dom, Hdom. split; [|tauto].
    intros Hf. split; [done | apply not_elem_of_nil].
  - assert (fiberCount_ (run_reap s) = fiberCount_ s - Z.of_nat (length (f0 :: D))
            ∧ ∀ f, is_Some (fibers (run_reap s) !! f)
                   ↔ is_Some (fibers s !! f) ∧ f ∉ f0 :: D) as [Hcount Hlive].
    { unfold run_reap. rewrite run_reap_fold, HD. sched_simpl. split; [done|].
      intros f. rewrite delete_all_lookup. case_decide; [|tauto].
      split; [by intros [? ?] | tauto]. }
    destruct (fiberCount_ (run_reap s) =? 0); [done|].
    destruct (run_rounds_records ready (run_reap s)) as [-> Hdom].
    split; [done|]. intros f. by rewrite <- elem_of_dom, Hdom, elem_of_dom.
Qed.

(** X18: A round of [run] destroys exactly the dead fibers: afterwards the
    dead queue is empty, [fiberCount_] is smaller by the length of the dead
    queue, the records of the dead fibers are gone, and every other record
    exists if and only if it existed before. *)
Theorem run_reaps_the_dead sz ready s s' t :
  step sz (EIdle ready) s = Some (s', t) →
  deadFiberQueue_ s' = []
  ∧ fiberCount_ s' = fiberCount_ s - Z.of_nat (length (deadFiberQueue_ s))
  ∧ (∀ f, f ∈ deadFiberQueue_ s → fibers s' !! f = None)
  ∧ (∀ f, f ∉ deadFiberQueue_ s →
          (is_Some (fibers s' !! f) ↔ is_Some (fibers s !! f))).
Proof.
  cbn [step]. destruct (bool_decide _ && _); [|done]. intros [= Hs].
  assert (s' = (land (run_iteration ready s)).1) as -> by (by rewrite Hs).
  rewrite land_fst_dead, land_fst_count, land_fst_fibers.
  destruct (run_iteration_records ready s) as [Hcount Hlive].
  split; [apply run_iteration_dead|]. split; [done|]. split.
  - intros f Hf. apply eq_None_not_Some. rewrite Hlive. tauto.
  - intros f Hf. rewrite Hlive. tauto.
Qed.

Lemma run_reaps_the_dead_witness :
  fibers (land (run_iteration [] (state_after 128 exit_run))).1 !! 130944 = None.
Proof.
  destruct (run_reaps_the_dead 128 [] (state_after 128 exit_run)
              (land (run_iteration [] (state_after 128 exit_run))).1
              (land (run_iteration [] (state_after 128 exit_run))).2)
    as (_ & _ & Hgone & _).
  - vm_compute. reflexivity.
  - apply Hgone. vm_compute. apply list_elem_of_here.
Defined.

(** ** [CreateFiber] and [DestroyFiber] *)

(** X19: [DestroyFiber] unmaps the region [CreateFiber] mapped: the region it
    computes from the fiber pointer is the one [mmap] returned. The record is
    [Fiber(coroutine, stack)], and in a region that fits the address space it
    occupies the last [sizeof(Fiber)] bytes. *)
Theorem DestroyFiber_unmaps_the_region sz c region f fb :
  0 ≤ region < ptr_modulus →
  CreateFiber sz c region = Ok (f, fb) →
  munmap_region sz f = region
  ∧ fb = Fiber_new c
  ∧ (0 < sz ≤ TARA_FIBER_SIZE → region + TARA_FIBER_SIZE ≤ ptr_modulus →
     region ≤ f ∧ f + sz = region + TARA_FIBER_SIZE).
Proof.
  intros Hregion. unfold CreateFiber. case_bool_decide; [done|].
  intros [= <- <-]. unfold munmap_region. split; [|split; [done|]].
  - rewrite <- Zminus_mod_idemp_l, <- Zplus_mod_idemp_l, Z.mod_mod by done.
    rewrite Zplus_mod_idemp_l, Zminus_mod_idemp_l.
    replace (region + TARA_FIBER_SIZE - sz + sz - TARA_FIBER_SIZE) with region by lia.
    by apply Z.mod_small.
  - intros Hsz Hend. rewrite Z.mod_small by lia. lia.
Qed.

Lemma DestroyFiber_unmaps_the_region_witness :
  munmap_region 128 130944 = 65536.
Proof.
  destruct (DestroyFiber_unmaps_the_region 128 (Some 1%nat) 65536 130944
              (Fiber_new (Some 1%nat))) as (Hregion & _).
  - unfold ptr_modulus. lia.
  - reflexivity.
  - exact Hregion.
Defined.

(** ** The statuses the scheduler stores *)

Lemma map_Forall_alter (P : Fiber → Prop) (g : Fiber → Fiber) f (m : gmap Z Fiber) :
  (∀ fb, P fb → P (g fb)) →
  map_Forall (λ _, P) m → map_Forall (λ _, P) (alter g f m).
Proof.
  intros Hg Hm x fb. rewrite lookup_alter_Some.
  intros [(-> & fb0 & Hfb0 & ->)|[_ Hfb]]; [apply Hg|]; by eapply Hm.
Qed.

Lemma map_Forall_alter_all (P : Fiber → Prop) (g : Fiber → Fiber) X :
  (∀ fb, P fb → P (g fb)) →
  ∀ m : gmap Z Fiber,
    map_Forall (λ _, P) m → map_Forall (λ _, P) (foldl (λ m f, alter g f m) m X).
Proof.
  intros Hg. induction X as [|f X IH]; intros m Hm; cbn [foldl]; [done|].
  by apply IH, map_Forall_alter.
Qed.

Lemma map_Forall_delete_all (P : Fiber → Prop) D : ∀ m : gmap Z Fiber,
  map_Forall (λ _, P) m → map_Forall (λ _, P) (foldl (λ m f, delete f m) m D).
Proof.
  induction D as [|f D IH]; intros m Hm; cbn [foldl]; [done|].
  by apply IH, map_Forall_delete.
Qed.

(** The stores to a status: 1 at a suspension, 0 at the death of a fiber,
    [-EBADF] in [unwatchIO], [-ETIME] in the timer block, and the 1 of a
    wake-up by the poll. *)
Ltac known_status_stores :=
  unfold status_known; sched_simpl;
  repeat (apply map_Forall_alter;
          [intros ? ?; unfold known_status, wake in *; cbn; auto|]);
  try assumption.

Lemma switchFiber_status_known s : status_known s → status_known (switchFiber s).1.
Proof. unfold status_known. by rewrite switchFiber_fst_fibers. Qed.

Lemma land_status_known r : status_known r.1 → status_known (land r).1.
Proof. unfold status_known. by rewrite land_fst_fibers. Qed.

Lemma yieldCurrentFiber_status_known s :
  status_known s → status_known (yieldCurrentFiber s).1.
Proof.
  intros Hk. unfold yieldCurrentFiber.
  destruct (runningFiber_ s) as [r|]; [|done].
  destruct (readyFiberQueue_ s) as [|f0 q] eqn:Hq; [done|].
  sched_simpl. rewrite ?Hq. cbn [app]. rewrite executeFiber_fst.
  known_status_stores.
Qed.

Lemma sleepCurrentFiber_status_known duration s :
  status_known s → status_known (sleepCurrentFiber duration s).1.
Proof.
  intros Hk. unfold sleepCurrentFiber. destruct (runningFiber_ s) as [r|]; [|done].
  apply switchFiber_status_known. known_status_stores.
Qed.

Lemma killCurrentFiber_status_known s :
  status_known s → status_known (killCurrentFiber s).1.
Proof.
  intros Hk. unfold killCurrentFiber. destruct (runningFiber_ s) as [r|]; [|done].
  apply switchFiber_status_known. known_status_stores.
Qed.

Lemma awaitIOEvent_status_known d ev timeout s :
  status_known s → status_known (awaitIOEvent d ev timeout s).1.
Proof.
  intros Hk. unfold awaitIOEvent. destruct (runningFiber_ s) as [r|]; [|done].
  apply switchFiber_status_known. known_status_stores.
Qed.

Lemma callCoroutine_status_known sz c region s s' :
  status_known s → callCoroutine sz c region s = Ok s' → status_known s'.
Proof.
  intros Hk. unfold callCoroutine, CreateFiber.
  destruct (deadFiberQueue_ s) as [|h dead].
  - case_bool_decide; [done|]. intros [= <-]. unfold status_known. sched_simpl.
    apply map_Forall_insert_2; [|done]. unfold known_status. cbn. auto.
  - intros [= <-]. known_status_stores.
Qed.

Lemma unwatchIO_status_known d s : status_known s → status_known (unwatchIO d s).
Proof.
  intros Hk. unfold unwatchIO, IOPoll_removeEventAwaiters. rewrite unwatchIO_fold.
  unfold status_known. sched_simpl. apply map_Forall_alter_all; [|done].
  intros fb _. unfold known_status. cbn. auto.
Qed.

Lemma run_poll_status_known ready s : status_known s → status_known (run_poll ready s).
Proof.
  intros Hk. unfold run_poll, IOPoll_waitForEvents. rewrite run_poll_fold.
  unfold status_known. sched_simpl. apply map_Forall_alter_all; [|done].
  intros fb _. unfold known_status, wake. cbn. auto.
Qed.

Lemma run_timer_item_status_known s x :
  status_known s → status_known (run_timer_item s x).
Proof.
  intros Hk. unfold run_timer_item. destruct (fibers s !! x) as [fb|]; [|done].
  destruct (0 <=? fd fb); [|done]. known_status_stores.
Qed.

Lemma run_timer_status_known s : status_known s → status_known (run_timer s).
Proof.
  intros Hk. unfold run_timer.
  destruct (Timer_removeDueItems (clock s) 1024 (timer_ s)) as [buffer rest].
  assert (status_known (set_timer rest s)) as Hk' by done.
  revert Hk'. generalize (set_timer rest s).
  induction buffer as [|x buffer IH]; intros s0 Hk0; cbn [foldl]; [done|].
  by apply IH, run_timer_item_status_known.
Qed.

Lemma run_reap_status_known s : status_known s → status_known (run_reap s).
Proof.
  intros Hk. unfold run_reap. rewrite run_reap_fold. unfold status_known. sched_simpl.
  by apply map_Forall_delete_all.
Qed.

Lemma run_dispatch_status_known s : status_known s → status_known (run_dispatch s).1.
Proof.
  intros Hk. rewrite run_dispatch_fst. by destruct (readyFiberQueue_ s).
Qed.

Lemma run_enter_status_known s : status_known s → status_known (run_enter s).1.
Proof.
  intros Hk. unfold run_enter. destruct (runningFiber_ s); [done|].
  destruct (fiberCount_ s =? 0); [done|]. by apply run_dispatch_status_known.
Qed.

Lemma run_iteration_status_known ready s :
  status_known s → status_known (run_iteration ready s).1.
Proof.
  intros Hk. unfold run_iteration.
  assert (∀ x, status_known x →
               status_known (run_dispatch (run_timer (run_poll ready x))).1) as Hrounds.
  { intros x Hx.
    by apply run_dispatch_status_known, run_timer_status_known, run_poll_status_known. }
  destruct (deadFiberQueue_ s); [by apply Hrounds|].
  destruct (fiberCount_ (run_reap s) =? 0).
  - by apply run_reap_status_known.
  - by apply Hrounds, run_reap_status_known.
Qed.

Lemma step_status_known sz e s s' t :
  status_known s → step sz e s = Some (s', t) → status_known s'.
Proof.
  intros Hk.
  destruct e as [dt|c region| |duration|d ev timeout| |d|d| |ready]; cbn [step].
  - case_bool_decide; [|done]. by intros [= <- <-].
  - destruct (user_code s && _); [|done].
    destruct (callCoroutine sz c region s) as [s1|] eqn:Hcall; [|done].
    intros [= <- <-]. by eapply callCoroutine_status_known.
  - case_bool_decide; [|done]. intros Hs.
    change s' with ((s', t).1). injection Hs as <-.
    by apply land_status_known, yieldCurrentFiber_status_known.
  - case_bool_decide; [|done]. intros Hs.
    change s' with ((s', t).1). injection Hs as <-.
    by apply land_status_known, sleepCurrentFiber_status_known.
  - destruct (bool_decide _ && _); [|done]. intros Hs.
    change s' with ((s', t).1). injection Hs as <-.
    by apply land_status_known, awaitIOEvent_status_known.
  - case_bool_decide; [|done]. intros Hs.
    change s' with ((s', t).1). injection Hs as <-.
    by apply land_status_known, killCurrentFiber_status_known.
  - destruct (user_code s && _); [|done]. by intros [= <- <-].
  - destruct (user_code s); [|done]. intros [= <- <-]. by apply unwatchIO_status_known.
  - destruct (bool_decide _ && _); [|done]. intros Hs.
    change s' with ((s', t).1). injection Hs as <-.
    by apply land_status_known, run_enter_status_known.
  - destruct (bool_decide _ && _); [|done]. intros Hs.
    change s' with ((s', t).1). injection Hs as <-.
    by apply land_status_known, run_iteration_status_known.
Qed.

Lemma reachable_status_known sz s : reachable sz s → status_known s.
Proof.
  induction 1 as [e c | s e s' t Hs IH Hstep]; [apply map_Forall_empty|].
  by eapply step_status_known.
Qed.

(** The status of every [longjmp] into a fiber. *)
Lemma step_Longjmp_status sz e s s' h site st :
  reachable sz s → step sz e s = Some (s', Longjmp h site st) →
  st = 1 ∨ st = - ETIME ∨ st = - EBADF.
Proof.
  intros Hs Hstep. pose proof (reachable_wf sz s Hs) as Hwf.
  pose proof (step_status_known sz e s s' _ (reachable_status_known sz s Hs) Hstep)
    as Hk.
  destruct (step_summary sz e s s' _ Hwf Hstep) as (extra & _ & Hshape).
  cbn [fst snd dispatched] in Hshape.
  destruct Hshape as (_ & fb & Hfb & Ht & Hst).
  unfold transfer_of in Ht. destruct (context fb) as [site'|] eqn:Hctx; [|done].
  injection Ht as -> ->. specialize (Hst ltac:(done)).
  destruct (Hk h fb Hfb) as [?|?]; [done | tauto].
Qed.

(** ** Arithmetic on [int] *)

Lemma wrap_int_small z : INT_MIN ≤ z ≤ INT_MAX → wrap_int z = z.
Proof.
  unfold INT_MIN, INT_MAX, wrap_int. intros Hz.
  rewrite Z.mod_small by lia. lia.
Qed.

Lemma int_neg_exact i : INT_MIN < i ≤ INT_MAX → int_neg i = - i.
Proof.
  unfold int_neg. intros Hi. apply wrap_int_small. unfold INT_MIN, INT_MAX in *. lia.
Qed.

Lemma int_neg_INT_MIN : int_neg INT_MIN = INT_MIN.
Proof. reflexivity. Qed.

(** ** [awaitIOEvent] resumed *)

(** C5: resumed with a positive status, [awaitIOEvent] returns 0 and leaves
    the state alone; resumed with a negative status, it stores the negated
    status in [errno] and returns -1. The status is an [int] and so is its
    negation, which is the negation in Z of every status but [INT_MIN]. This
    is the half a [longjmp] into the saved context of [awaitIOEvent] lands
    in; and the status of every [longjmp] a step of the runtime makes into a
    fiber is 1, [-ETIME] or [-EBADF]. *)
Theorem awaitIOEvent_resume_convention st s f :
  INT_MIN ≤ st ≤ INT_MAX →
  (0 < st → awaitIOEvent_resume st s = (0, s))
  ∧ (st < 0 →
     awaitIOEvent_resume st s = (-1, set_errno (int_neg st) s)
     ∧ errno (snd (awaitIOEvent_resume st s)) = int_neg st
     ∧ (st ≠ INT_MIN → int_neg st = - st)
     ∧ (st = INT_MIN → int_neg st = INT_MIN))
  ∧ land (s, Longjmp f InAwait st)
    = (snd (awaitIOEvent_resume st s), Longjmp f InAwait st)
  ∧ (∀ sz s0 e s' h site st',
       reachable sz s0 → step sz e s0 = Some (s', Longjmp h site st') →
       (st' = 1 ∨ st' = - ETIME ∨ st' = - EBADF) ∧ INT_MIN < st' ≤ INT_MAX).
Proof.
  intros Hint. split; [|split; [|split]].
  - intros Hst. unfold awaitIOEvent_resume.
    destruct (Z.ltb_spec st 0); [lia | reflexivity].
  - intros Hst. unfold awaitIOEvent_resume.
    destruct (Z.ltb_spec st 0); [|lia]. split; [reflexivity|]. split; [reflexivity|].
    split.
    + intros Hne. apply int_neg_exact. lia.
    + intros ->. apply int_neg_INT_MIN.
  - reflexivity.
  - intros sz s0 e s' h site st' Hs0 Hstep.
    pose proof (step_Longjmp_status sz e s0 s' h site st' Hs0 Hstep) as Hst'.
    split; [done|]. unfold INT_MIN, INT_MAX, ETIME, EBADF in *. lia.
Qed.

Lemma awaitIOEvent_resume_convention_witness :
  awaitIOEvent_resume 1 (Scheduler_new 0 0) = (0, Scheduler_new 0 0)
  ∧ errno (snd (awaitIOEvent_resume (- EBADF) (Scheduler_new 0 0))) = EBADF
  ∧ errno (snd (awaitIOEvent_resume INT_MIN (Scheduler_new 0 0))) = INT_MIN.
Proof.
  destruct (awaitIOEvent_resume_convention 1 (Scheduler_new 0 0) 0) as (Hpos & _);
    [unfold INT_MIN, INT_MAX; lia|].
  destruct (awaitIOEvent_resume_convention (- EBADF) (Scheduler_new 0 0) 0)
    as (_ & Hneg & _); [unfold INT_MIN, INT_MAX, EBADF; lia|].
  destruct (awaitIOEvent_resume_convention INT_MIN (Scheduler_new 0 0) 0)
    as (_ & Hmin & _); [unfold INT_MIN, INT_MAX; lia|].
  split; [apply Hpos; lia|]. split.
  - destruct Hneg as (_ & Herrno & _); [unfold EBADF; lia|]. exact Herrno.
  - destruct Hmin as (_ & Herrno & _); [unfold INT_MIN; lia|]. exact Herrno.
Defined.

(** * The wrappers that create descriptors, read and write *)

(** ** One call at a time *)

Lemma IO_bind_run {A B} (m : IO A) (k : A → IO B) w :
  (m ≫= k) w
  = match m w with
    | IODone a w' => k a w'
    | IOFatality => IOFatality
    | IOCrashed => IOCrashed
    | IOStarved => IOStarved
    end.
Proof. reflexivity. Qed.

Lemma IO_ret_run {A} (a : A) w : (mret a : IO A) w = IODone a w.
Proof. reflexivity. Qed.

Lemma io_require_scheduler_run w s :
  io_scheduler w = Some s → io_require_scheduler w = IODone () w.
Proof. intros Hs. unfold io_require_scheduler. by rewrite Hs. Qed.

Lemma io_on_scheduler_run {A} (f : Scheduler → A * Scheduler) w s :
  io_scheduler w = Some s →
  io_on_scheduler f w
  = IODone (fst (f s))
      {| io_scheduler := Some (snd (f s)); io_calls := io_calls w;
         io_replies := io_replies w |}.
Proof. intros Hs. unfold io_on_scheduler. rewrite Hs. by destruct (f s). Qed.

Lemma io_ioIsWatched_run d w s :
  io_scheduler w = Some s → io_ioIsWatched d w = IODone (ioIsWatched d s) w.
Proof.
  intros Hs. unfold io_ioIsWatched. rewrite (io_on_scheduler_run _ _ _ Hs).
  destruct w; cbn in *. by subst.
Qed.

Lemma io_get_errno_run w s :
  io_scheduler w = Some s → io_get_errno w = IODone (errno s) w.
Proof.
  intros Hs. unfold io_get_errno. rewrite (io_on_scheduler_run _ _ _ Hs).
  destruct w; cbn in *. by subst.
Qed.

Lemma io_put_errno_run e w s :
  io_scheduler w = Some s →
  io_put_errno e w
  = IODone () {| io_scheduler := Some (set_errno e s); io_calls := io_calls w;
                 io_replies := io_replies w |}.
Proof. intros Hs. unfold io_put_errno. by rewrite (io_on_scheduler_run _ _ _ Hs). Qed.

Lemma io_sys_run c w s r e rest :
  io_scheduler w = Some s → io_replies w = Returns r e :: rest →
  io_sys c w
  = IODone r
      {| io_scheduler := Some (if r <? 0 then set_errno e s else s);
         io_calls := io_calls w ++ [c]; io_replies := rest |}.
Proof.
  intros Hs Hk. unfold io_sys. rewrite Hk, Hs. by destruct (r <? 0).
Qed.

Lemma io_sys_pipe2_run flags w s r e fd0 fd1 rest :
  io_scheduler w = Some s → io_replies w = ReturnsPipe r e fd0 fd1 :: rest →
  io_sys_pipe2 flags w
  = IODone (r, (fd0, fd1))
      {| io_scheduler := Some (if r <? 0 then set_errno e s else s);
         io_calls := io_calls w ++ [sys_pipe2 flags]; io_replies := rest |}.
Proof.
  intros Hs Hk. unfold io_sys_pipe2. rewrite Hk, Hs. by destruct (r <? 0).
Qed.

Lemma io_watch_run d w s :
  io_scheduler w = Some s →
  io_watch d w
  = IODone () {| io_scheduler := Some (watchIO d s);
                 io_calls := io_calls w ++ [io_watchIO d];
                 io_replies := io_replies w |}.
Proof. intros Hs. unfold io_watch. by rewrite Hs. Qed.

Lemma io_await_run d ev timeout w s0 st s rest :
  io_scheduler w = Some s0 → io_replies w = Wakes st s :: rest → st ≠ 0 →
  io_await d ev timeout w
  = IODone (fst (awaitIOEvent_resume st s))
      {| io_scheduler := Some (snd (awaitIOEvent_resume st s));
         io_calls := io_calls w ++ [io_awaitIOEvent d ev timeout];
         io_replies := rest |}.
Proof.
  intros Hs Hk Hst. unfold io_await. rewrite Hs, Hk.
  destruct (Z.eqb_spec st 0); [done|]. by destruct (awaitIOEvent_resume st s).
Qed.

Lemma ioIsWatched_watchIO d d' s :
  ioIsWatched d' (watchIO d s) = bool_decide (d' = d) || ioIsWatched d' s.
Proof.
  unfold ioIsWatched, watchIO, IOPoll_isWatched, IOPoll_watch. cbn.
  destruct (decide (d' = d)) as [->|Hne].
  - rewrite (bool_decide_eq_true_2 (d = d)) by done. cbn.
    apply bool_decide_eq_true. set_solver.
  - rewrite (bool_decide_eq_false_2 (d' = d)) by done. cbn.
    apply bool_decide_ext. set_solver.
Qed.

(** The flag the wrappers add is set in what they pass on. *)
Lemma lor_2048_testbit flags : Z.testbit (Z.lor flags 2048) 11 = true.
Proof. rewrite Z.lor_spec. change (Z.testbit 2048 11) with true. apply orb_true_r. Qed.

(** ** [Open] *)

(** The retry loop: [k] interrupted calls, then a call whose answer ends the
    loop. *)
Lemma Open_retry_rounds path flags mode k : ∀ fuel w s r e rest,
  (k < fuel)%nat →
  io_scheduler w = Some s →
  io_replies w = replicate k (Returns (-1) EINTR) ++ Returns r e :: rest →
  (r < 0 → e ≠ EINTR) →
  Open_retry fuel path flags mode w
  = IODone r
      {| io_scheduler :=
           Some (if r <? 0 then set_errno e (Nat.iter k (set_errno EINTR) s)
                 else Nat.iter k (set_errno EINTR) s);
         io_calls :=
           io_calls w ++ replicate (S k) (sys_open path (Z.lor flags O_NONBLOCK) mode);
         io_replies := rest |}.
Proof.
  induction k as [|k IH]; intros fuel w s r e rest Hfuel Hs Hk He.
  - destruct fuel as [|fuel]; [lia|]. simpl in Hk.
    cbn [Open_retry]. rewrite IO_bind_run, (io_sys_run _ _ _ _ _ _ Hs Hk).
    cbn [Nat.iter nat_rect replicate].
    destruct (Z.ltb_spec r 0) as [Hr|Hr].
    + destruct (Z.leb_spec 0 r) as [|_]; [lia|].
      rewrite IO_bind_run, (io_get_errno_run _ (set_errno e s)) by done.
      cbn [errno set_errno].
      destruct (Z.eqb_spec e EINTR) as [->|_]; [by specialize (He Hr)|].
      reflexivity.
    + destruct (Z.leb_spec 0 r) as [_|]; [|lia]. reflexivity.
  - destruct fuel as [|fuel]; [lia|]. simpl in Hk.
    cbn [Open_retry]. rewrite IO_bind_run, (io_sys_run _ _ _ _ _ _ Hs Hk).
    change (-1 <? 0) with true. change (0 <=? -1) with false. cbn iota beta.
    rewrite IO_bind_run, (io_get_errno_run _ (set_errno EINTR s)) by done.
    cbn [errno set_errno]. change (EINTR =? EINTR) with true. cbn iota.
    rewrite (IH fuel _ (set_errno EINTR s) r e rest);
      [| lia | reflexivity | reflexivity | exact He].
    cbn [io_calls]. rewrite <- app_assoc.
    replace (Nat.iter k (set_errno EINTR) (set_errno EINTR s))
      with (Nat.iter (S k) (set_errno EINTR) s) by (by rewrite Nat.iter_succ_r).
    reflexivity.
Qed.

(** X10: [Open] ends the process when no scheduler is installed; it always
    passes [O_NONBLOCK]; it calls [open] again after each [EINTR]; when the
    call fails otherwise it returns -1 with that [errno] and registers
    nothing; when the call succeeds it registers the fd with [watchIO] and
    returns it, and the fd is watched. *)
Theorem Open_behaviour path flags mode w :
  (io_scheduler w = None → Open path flags mode w = IOFatality)
  ∧ Z.testbit (Z.lor flags O_NONBLOCK) 11 = true
  ∧ (∀ s k r e rest,
       io_scheduler w = Some s →
       io_replies w = replicate k (Returns (-1) EINTR) ++ Returns r e :: rest →
       (r < 0 → e ≠ EINTR) →
       (r < 0 →
        Open path flags mode w
        = IODone (-1)
            {| io_scheduler := Some (set_errno e (Nat.iter k (set_errno EINTR) s));
               io_calls :=
                 io_calls w
                 ++ replicate (S k) (sys_open path (Z.lor flags O_NONBLOCK) mode);
               io_replies := rest |})
       ∧ (0 ≤ r →
          Open path flags mode w
          = IODone r
              {| io_scheduler := Some (watchIO r (Nat.iter k (set_errno EINTR) s));
                 io_calls :=
                   io_calls w
                   ++ replicate (S k) (sys_open path (Z.lor flags O_NONBLOCK) mode)
                   ++ [io_watchIO r];
                 io_replies := rest |}
          ∧ ioIsWatched r (watchIO r (Nat.iter k (set_errno EINTR) s)) = true)).
Proof.
  split; [|split].
  - intros Hs. unfold Open. rewrite IO_bind_run. unfold io_require_scheduler.
    by rewrite Hs.
  - apply lor_2048_testbit.
  - intros s k r e rest Hs Hk He.
    assert (k < length (io_replies w))%nat as Hfuel.
    { rewrite Hk, length_app, length_replicate. cbn. lia. }
    pose proof (Open_retry_rounds path flags mode k _ w s r e rest Hfuel Hs Hk He)
      as Hloop.
    change (Open_retry (length (io_replies w)) path flags mode w)
      with (Open_loop path flags mode w) in Hloop.
    unfold Open. rewrite IO_bind_run, (io_require_scheduler_run _ _ Hs).
    rewrite IO_bind_run, Hloop. split.
    + intros Hr. destruct (Z.ltb_spec r 0); [|lia]. reflexivity.
    + intros Hr. destruct (Z.ltb_spec r 0); [lia|]. split.
      * rewrite IO_bind_run, (io_watch_run _ _ (Nat.iter k (set_errno EINTR) s)) by done.
        cbn [io_calls io_replies]. rewrite <- app_assoc. reflexivity.
      * rewrite ioIsWatched_watchIO. by rewrite bool_decide_eq_true_2.
Qed.

(** ** [Pipe2], [Socket] and [EventFD] *)

(** X11: [Socket], [EventFD] and [Pipe2] make one system call with the
    nonblocking flag added; on failure they return -1 and register nothing; on
    success they register the new fd, [Pipe2] both ends, which are watched
    afterwards; the other fds are watched as before. *)
Theorem created_descriptors_are_watched w s :
  io_scheduler w = Some s →
  (∀ domain ty protocol r e rest,
     io_replies w = Returns r e :: rest →
     Socket domain ty protocol w
     = IODone (if r <? 0 then -1 else r)
         {| io_scheduler := Some (if r <? 0 then set_errno e s else watchIO r s);
            io_calls :=
              io_calls w
              ++ sys_socket domain (Z.lor ty SOCK_NONBLOCK) protocol
                 :: (if r <? 0 then [] else [io_watchIO r]);
            io_replies := rest |})
  ∧ (∀ initval flags r e rest,
       io_replies w = Returns r e :: rest →
       EventFD initval flags w
       = IODone (if r <? 0 then -1 else r)
           {| io_scheduler := Some (if r <? 0 then set_errno e s else watchIO r s);
              io_calls :=
                io_calls w
                ++ sys_eventfd initval (Z.lor flags EFD_NONBLOCK)
                   :: (if r <? 0 then [] else [io_watchIO r]);
              io_replies := rest |})
  ∧ (∀ flags r e fd0 fd1 rest,
       io_replies w = ReturnsPipe r e fd0 fd1 :: rest →
       Pipe2 flags w
       = IODone (if r <? 0 then -1 else 0, (fd0, fd1))
           {| io_scheduler :=
                Some (if r <? 0 then set_errno e s else watchIO fd1 (watchIO fd0 s));
              io_calls :=
                io_calls w
                ++ sys_pipe2 (Z.lor flags O_NONBLOCK)
                   :: (if r <? 0 then [] else [io_watchIO fd0; io_watchIO fd1]);
              io_replies := rest |})
  ∧ (∀ d, ioIsWatched d (watchIO d s) = true)
  ∧ (∀ fd0 fd1, ioIsWatched fd0 (watchIO fd1 (watchIO fd0 s)) = true
                ∧ ioIsWatched fd1 (watchIO fd1 (watchIO fd0 s)) = true)
  ∧ (∀ d d' e, ioIsWatched d' (set_errno e s) = ioIsWatched d' s
               ∧ (d' ≠ d → ioIsWatched d' (watchIO d s) = ioIsWatched d' s)).
Proof.
  intros Hs. split; [|split; [|split; [|split; [|split]]]].
  - intros domain ty protocol r e rest Hk. unfold Socket.
    rewrite IO_bind_run, (io_require_scheduler_run _ _ Hs).
    rewrite IO_bind_run, (io_sys_run _ _ _ _ _ _ Hs Hk).
    destruct (r <? 0); [reflexivity|].
    rewrite IO_bind_run, (io_watch_run _ _ s) by done.
    cbn [io_calls io_replies]. rewrite <- app_assoc. reflexivity.
  - intros initval flags r e rest Hk. unfold EventFD.
    rewrite IO_bind_run, (io_require_scheduler_run _ _ Hs).
    rewrite IO_bind_run, (io_sys_run _ _ _ _ _ _ Hs Hk).
    destruct (r <? 0); [reflexivity|].
    rewrite IO_bind_run, (io_watch_run _ _ s) by done.
    cbn [io_calls io_replies]. rewrite <- app_assoc. reflexivity.
  - intros flags r e fd0 fd1 rest Hk. unfold Pipe2.
    rewrite IO_bind_run, (io_require_scheduler_run _ _ Hs).
    rewrite IO_bind_run, (io_sys_pipe2_run _ _ _ _ _ _ _ _ Hs Hk).
    destruct (r <? 0); [reflexivity|]. cbn [fst snd].
    rewrite IO_bind_run, (io_watch_run _ _ s) by done.
    rewrite IO_bind_run, (io_watch_run _ _ (watchIO fd0 s)) by done.
    cbn [io_calls io_replies]. rewrite <- !app_assoc. reflexivity.
  - intros d. rewrite ioIsWatched_watchIO. by rewrite bool_decide_eq_true_2.
  - intros fd0 fd1. rewrite !ioIsWatched_watchIO.
    rewrite (bool_decide_eq_true_2 (fd0 = fd0)), (bool_decide_eq_true_2 (fd1 = fd1))
      by done.
    split; [apply orb_true_r | done].
  - intros d d' e. split; [done|]. intros Hne. rewrite ioIsWatched_watchIO.
    by rewrite bool_decide_eq_false_2.
Qed.

(** ** [Read], [Write] and [Accept4] *)

Lemma round_replies_length rounds :
  (length rounds ≤ length (concat (round_replies <$> rounds)))%nat.
Proof.
  induction rounds as [|r rounds IH]; cbn; [done|].
  rewrite length_app. destruct r; cbn; lia.
Qed.

(** The rounds that are followed by another. *)
Lemma io_retry_rounds c d ev timeout rounds : ∀ fuel w s tail,
  Forall woken_normally rounds →
  io_scheduler w = Some s →
  io_replies w = concat (round_replies <$> rounds) ++ tail →
  (length rounds ≤ fuel)%nat →
  io_retry fuel c d ev timeout w
  = io_retry (fuel - length rounds) c d ev timeout
      {| io_scheduler := Some (foldl after_round s rounds);
         io_calls := io_calls w ++ concat (round_calls c d ev timeout <$> rounds);
         io_replies := tail |}.
Proof.
  induction rounds as [|r rounds IH]; intros fuel w s tail Hok Hs Hk Hfuel.
  - cbn in *. rewrite Nat.sub_0_r, app_nil_r. destruct w; cbn in *. by subst.
  - apply Forall_cons in Hok as [Hr Hok].
    destruct fuel as [|fuel]; [cbn in Hfuel; lia|].
    cbn [length] in Hfuel. cbn [fmap list_fmap concat foldl] in *.
    replace (S fuel - S (length rounds))%nat with (fuel - length rounds)%nat by lia.
    destruct r as [|st s1]; cbn [round_replies round_calls after_round app] in *.
    + cbn [io_retry]. rewrite IO_bind_run, (io_sys_run _ _ _ _ _ _ Hs Hk).
      change (-1 <? 0) with true. change (0 <=? -1) with false. cbn iota beta.
      rewrite IO_bind_run, (io_get_errno_run _ (set_errno EINTR s)) by done.
      cbn [errno set_errno]. change (EINTR =? EWOULDBLOCK) with false.
      change (EINTR =? EINTR) with true. cbn iota.
      rewrite (IH fuel _ (set_errno EINTR s) tail Hok);
        [| reflexivity | reflexivity | lia].
      cbn [io_calls]. by rewrite <- app_assoc.
    + cbn [io_retry]. rewrite IO_bind_run, (io_sys_run _ _ _ _ _ _ Hs Hk).
      change (-1 <? 0) with true. change (0 <=? -1) with false. cbn iota beta.
      rewrite IO_bind_run, (io_get_errno_run _ (set_errno EWOULDBLOCK s)) by done.
      cbn [errno set_errno]. change (EWOULDBLOCK =? EWOULDBLOCK) with true. cbn iota.
      rewrite IO_bind_run.
      rewrite (io_await_run _ _ _ _ (set_errno EWOULDBLOCK s) st s1
                 (concat (round_replies <$> rounds) ++ tail));
        [| reflexivity | reflexivity | cbn in Hr; lia].
      unfold awaitIOEvent_resume. cbn in Hr.
      destruct (Z.ltb_spec st 0) as [|_]; [lia|]. cbn [fst snd].
      change (0 <? 0) with false. cbn iota.
      rewrite (IH fuel _ s1 tail Hok); [| reflexivity | reflexivity | lia].
      cbn [io_calls]. by rewrite <- !app_assoc.
Qed.

(** The round that ends the loop with the call's own result. *)
Lemma io_retry_ends fuel c d ev timeout w s n e rest :
  io_scheduler w = Some s →
  io_replies w = Returns n e :: rest →
  (n < 0 → e ≠ EINTR ∧ e ≠ EWOULDBLOCK) →
  io_retry (S fuel) c d ev timeout w
  = IODone n {| io_scheduler := Some (if n <? 0 then set_errno e s else s);
                io_calls := io_calls w ++ [c]; io_replies := rest |}.
Proof.
  intros Hs Hk He. cbn [io_retry].
  rewrite IO_bind_run, (io_sys_run _ _ _ _ _ _ Hs Hk).
  destruct (Z.ltb_spec n 0) as [Hn|Hn].
  - destruct (Z.leb_spec 0 n) as [|_]; [lia|]. destruct (He Hn) as [He1 He2].
    rewrite IO_bind_run, (io_get_errno_run _ (set_errno e s)) by done.
    cbn [errno set_errno].
    destruct (Z.eqb_spec e EWOULDBLOCK); [done|].
    destruct (Z.eqb_spec e EINTR); [done|]. reflexivity.
  - destruct (Z.leb_spec 0 n) as [_|]; [|lia]. reflexivity.
Qed.

(** The round that ends the loop because the wait failed. *)
Lemma io_retry_wait_fails fuel c d ev timeout w s n st s1 rest :
  io_scheduler w = Some s →
  io_replies w = Returns n EWOULDBLOCK :: Wakes st s1 :: rest →
  n < 0 → st < 0 →
  io_retry (S fuel) c d ev timeout w
  = IODone n {| io_scheduler := Some (set_errno (int_neg st) s1);
                io_calls := io_calls w ++ [c; io_awaitIOEvent d ev timeout];
                io_replies := rest |}.
Proof.
  intros Hs Hk Hn Hst. cbn [io_retry].
  rewrite IO_bind_run, (io_sys_run _ _ _ _ _ _ Hs Hk).
  destruct (Z.ltb_spec n 0) as [_|]; [|lia].
  destruct (Z.leb_spec 0 n) as [|_]; [lia|].
  rewrite IO_bind_run, (io_get_errno_run _ (set_errno EWOULDBLOCK s)) by done.
  cbn [errno set_errno]. change (EWOULDBLOCK =? EWOULDBLOCK) with true. cbn iota.
  rewrite IO_bind_run.
  rewrite (io_await_run _ _ _ _ (set_errno EWOULDBLOCK s) st s1 rest);
    [| reflexivity | reflexivity | lia].
  unfold awaitIOEvent_resume. destruct (Z.ltb_spec st 0) as [_|]; [|lia].
  cbn [fst snd]. change (-1 <? 0) with true. cbn iota.
  cbn [io_calls]. by rewrite <- app_assoc.
Qed.

Lemma io_guarded_unwatched c d ev timeout w s :
  io_scheduler w = Some s → ioIsWatched d s = false →
  io_guarded c d ev timeout w
  = IODone (-1) {| io_scheduler := Some (set_errno EBADF s);
                   io_calls := io_calls w; io_replies := io_replies w |}.
Proof.
  intros Hs Hw. unfold io_guarded.
  rewrite IO_bind_run, (io_require_scheduler_run _ _ Hs).
  rewrite IO_bind_run, (io_ioIsWatched_run _ _ _ Hs), Hw. cbn [negb].
  by rewrite IO_bind_run, (io_put_errno_run _ _ _ Hs).
Qed.

Lemma io_guarded_ends c d ev timeout w s rounds n e rest :
  io_scheduler w = Some s → ioIsWatched d s = true →
  Forall woken_normally rounds →
  io_replies w = concat (round_replies <$> rounds) ++ Returns n e :: rest →
  (n < 0 → e ≠ EINTR ∧ e ≠ EWOULDBLOCK) →
  io_guarded c d ev timeout w
  = IODone (if n <? 0 then -1 else n)
      {| io_scheduler :=
           Some (if n <? 0 then set_errno e (foldl after_round s rounds)
                 else foldl after_round s rounds);
         io_calls :=
           io_calls w ++ concat (round_calls c d ev timeout <$> rounds) ++ [c];
         io_replies := rest |}.
Proof.
  intros Hs Hw Hok Hk He. unfold io_guarded.
  rewrite IO_bind_run, (io_require_scheduler_run _ _ Hs).
  rewrite IO_bind_run, (io_ioIsWatched_run _ _ _ Hs), Hw. cbn [negb].
  rewrite IO_bind_run. unfold io_loop.
  pose proof (round_replies_length rounds) as Hlen.
  rewrite (io_retry_rounds c d ev timeout rounds _ w s _ Hok Hs Hk)
    by (rewrite Hk, length_app; cbn; lia).
  assert (∃ fuel, (length (io_replies w) - length rounds)%nat = S fuel) as [fuel ->].
  { exists (length (io_replies w) - length rounds - 1)%nat.
    rewrite Hk, length_app. cbn. lia. }
  rewrite (io_retry_ends fuel c d ev timeout _ (foldl after_round s rounds) n e rest);
    [| reflexivity | reflexivity | exact He].
  cbn [io_calls]. rewrite <- app_assoc. by destruct (n <? 0).
Qed.

Lemma io_guarded_wait_fails c d ev timeout w s rounds n st s1 rest :
  io_scheduler w = Some s → ioIsWatched d s = true →
  Forall woken_normally rounds →
  io_replies w
  = concat (round_replies <$> rounds)
    ++ Returns n EWOULDBLOCK :: Wakes st s1 :: rest →
  n < 0 → st < 0 →
  io_guarded c d ev timeout w
  = IODone (-1)
      {| io_scheduler := Some (set_errno (int_neg st) s1);
         io_calls :=
           io_calls w ++ concat (round_calls c d ev timeout <$> rounds)
           ++ [c; io_awaitIOEvent d ev timeout];
         io_replies := rest |}.
Proof.
  intros Hs Hw Hok Hk Hn Hst. unfold io_guarded.
  rewrite IO_bind_run, (io_require_scheduler_run _ _ Hs).
  rewrite IO_bind_run, (io_ioIsWatched_run _ _ _ Hs), Hw. cbn [negb].
  rewrite IO_bind_run. unfold io_loop.
  pose proof (round_replies_length rounds) as Hlen.
  rewrite (io_retry_rounds c d ev timeout rounds _ w s _ Hok Hs Hk)
    by (rewrite Hk, length_app; cbn; lia).
  assert (∃ fuel, (length (io_replies w) - length rounds)%nat = S fuel) as [fuel ->].
  { exists (length (io_replies w) - length rounds - 1)%nat.
    rewrite Hk, length_app. cbn. lia. }
  rewrite (io_retry_wait_fails fuel c d ev timeout _ (foldl after_round s rounds)
             n st s1 rest); [| reflexivity | reflexivity | exact Hn | exact Hst].
  cbn [io_calls]. rewrite <- app_assoc.
  destruct (Z.ltb_spec n 0) as [_|]; [|lia]. reflexivity.
Qed.

(** X12: [Read] on an fd that is not watched returns -1 with [errno] [EBADF]
    and calls nothing. On a watched fd it calls [read] again after each
    [EINTR], and after each [EWOULDBLOCK] once the wait for readability with
    the given timeout has succeeded; it returns what [read] returned if that
    is not negative, -1 with the [errno] of [read] on any other failure, and
    -1 with [errno] set to the negated resumption status if the wait
    fails. *)
Theorem Read_behaviour d buf buflen timeout w s :
  io_scheduler w = Some s →
  (ioIsWatched d s = false →
   Read d buf buflen timeout w
   = IODone (-1) {| io_scheduler := Some (set_errno EBADF s);
                    io_calls := io_calls w; io_replies := io_replies w |})
  ∧ (ioIsWatched d s = true →
     ∀ rounds, Forall woken_normally rounds →
       (∀ n e rest,
          io_replies w = concat (round_replies <$> rounds) ++ Returns n e :: rest →
          (n < 0 → e ≠ EINTR ∧ e ≠ EWOULDBLOCK) →
          Read d buf buflen timeout w
          = IODone (if n <? 0 then -1 else n)
              {| io_scheduler :=
                   Some (if n <? 0 then set_errno e (foldl after_round s rounds)
                         else foldl after_round s rounds);
                 io_calls :=
                   io_calls w
                   ++ concat (round_calls (sys_read d buf buflen) d Readability timeout
                                <$> rounds)
                   ++ [sys_read d buf buflen];
                 io_replies := rest |})
       ∧ (∀ n st s1 rest,
            io_replies w
            = concat (round_replies <$> rounds)
              ++ Returns n EWOULDBLOCK :: Wakes st s1 :: rest →
            n < 0 → st < 0 →
            Read d buf buflen timeout w
            = IODone (-1)
                {| io_scheduler := Some (set_errno (int_neg st) s1);
                   io_calls :=
                     io_calls w
                     ++ concat (round_calls (sys_read d buf buflen) d Readability timeout
                                  <$> rounds)
                     ++ [sys_read d buf buflen; io_awaitIOEvent d Readability timeout];
                   io_replies := rest |})).
Proof.
  intros Hs. split.
  - intros Hw. by apply io_guarded_unwatched.
  - intros Hw rounds Hok. split.
    + intros n e rest Hk He. by apply io_guarded_ends.
    + intros n st s1 rest Hk Hn Hst.
      exact (io_guarded_wait_fails _ _ _ _ w s rounds n st s1 rest Hs Hw Hok Hk Hn Hst).
Qed.

(** X13: [Write] on an fd that is not watched returns -1 with [errno] [EBADF]
    and calls nothing. On a watched fd it calls [write] again after each
    [EINTR], and after each [EWOULDBLOCK] once the wait for writability with
    the given timeout has succeeded; it returns what [write] returned if that
    is not negative, -1 with the [errno] of [write] on any other failure, and
    -1 with [errno] set to the negated resumption status if the wait
    fails. *)
Theorem Write_behaviour d buf buflen timeout w s :
  io_scheduler w = Some s →
  (ioIsWatched d s = false →
   Write d buf buflen timeout w
   = IODone (-1) {| io_scheduler := Some (set_errno EBADF s);
                    io_calls := io_calls w; io_replies := io_replies w |})
  ∧ (ioIsWatched d s = true →
     ∀ rounds, Forall woken_normally rounds →
       (∀ n e rest,
          io_replies w = concat (round_replies <$> rounds) ++ Returns n e :: rest →
          (n < 0 → e ≠ EINTR ∧ e ≠ EWOULDBLOCK) →
          Write d buf buflen timeout w
          = IODone (if n <? 0 then -1 else n)
              {| io_scheduler :=
                   Some (if n <? 0 then set_errno e (foldl after_round s rounds)
                         else foldl after_round s rounds);
                 io_calls :=
                   io_calls w
                   ++ concat (round_calls (sys_write d buf buflen) d Writability timeout
                                <$> rounds)
                   ++ [sys_write d buf buflen];
                 io_replies := rest |})
       ∧ (∀ n st s1 rest,
            io_replies w
            = concat (round_replies <$> rounds)
              ++ Returns n EWOULDBLOCK :: Wakes st s1 :: rest →
            n < 0 → st < 0 →
            Write d buf buflen timeout w
            = IODone (-1)
                {| io_scheduler := Some (set_errno (int_neg st) s1);
                   io_calls :=
                     io_calls w
                     ++ concat (round_calls (sys_write d buf buflen) d Writability timeout
                                  <$> rounds)
                     ++ [sys_write d buf buflen; io_awaitIOEvent d Writability timeout];
                   io_replies := rest |})).
Proof.
  intros Hs. split.
  - intros Hw. by apply io_guarded_unwatched.
  - intros Hw rounds Hok. split.
    + intros n e rest Hk He. by apply io_guarded_ends.
    + intros n st s1 rest Hk Hn Hst.
      exact (io_guarded_wait_fails _ _ _ _ w s rounds n st s1 rest Hs Hw Hok Hk Hn Hst).
Qed.

(** X14: [Accept4] on an fd that is not watched returns -1 with [errno]
    [EBADF] and calls nothing. On a watched fd it calls [accept4], with the
    flags as given, again after each [EINTR], and after each [EWOULDBLOCK]
    once the wait for readability with the given timeout has succeeded; it
    returns the accepted fd, -1 with the [errno] of [accept4] on any other
    failure, and -1 with [errno] set to the negated resumption status if the
    wait fails. *)
Theorem Accept4_behaviour d addr addrlen flags timeout w s :
  io_scheduler w = Some s →
  (ioIsWatched d s = false →
   Accept4 d addr addrlen flags timeout w
   = IODone (-1) {| io_scheduler := Some (set_errno EBADF s);
                    io_calls := io_calls w; io_replies := io_replies w |})
  ∧ (ioIsWatched d s = true →
     ∀ rounds, Forall woken_normally rounds →
       (∀ n e rest,
          io_replies w = concat (round_replies <$> rounds) ++ Returns n e :: rest →
          (n < 0 → e ≠ EINTR ∧ e ≠ EWOULDBLOCK) →
          Accept4 d addr addrlen flags timeout w
          = IODone (if n <? 0 then -1 else n)
              {| io_scheduler :=
                   Some (if n <? 0 then set_errno e (foldl after_round s rounds)
                         else foldl after_round s rounds);
                 io_calls :=
                   io_calls w
                   ++ concat (round_calls (sys_accept4 d addr addrlen flags)
                                d Readability timeout <$> rounds)
                   ++ [sys_accept4 d addr addrlen flags];
                 io_replies := rest |})
       ∧ (∀ n st s1 rest,
            io_replies w
            = concat (round_replies <$> rounds)
              ++ Returns n EWOULDBLOCK :: Wakes st s1 :: rest →
            n < 0 → st < 0 →
            Accept4 d addr addrlen flags timeout w
            = IODone (-1)
                {| io_scheduler := Some (set_errno (int_neg st) s1);
                   io_calls :=
                     io_calls w
                     ++ concat (round_calls (sys_accept4 d addr addrlen flags)
                                  d Readability timeout <$> rounds)
                     ++ [sys_accept4 d addr addrlen flags;
                         io_awaitIOEvent d Readability timeout];
                   io_replies := rest |})).
Proof.
  intros Hs. split.
  - intros Hw. by apply io_guarded_unwatched.
  - intros Hw rounds Hok. split.
    + intros n e rest Hk He. by apply io_guarded_ends.
    + intros n st s1 rest Hk Hn Hst.
      exact (io_guarded_wait_fails _ _ _ _ w s rounds n st s1 rest Hs Hw Hok Hk Hn Hst).
Qed.

Lemma round_calls_no_watch c d ev timeout rounds x :
  c ≠ io_watchIO x →
  io_watchIO x ∉ concat (round_calls c d ev timeout <$> rounds).
Proof.
  intros Hc. induction rounds as [|r rounds IH]; cbn; [apply not_elem_of_nil|].
  rewrite elem_of_app. intros [Hin|Hin]; [|done].
  destruct r; cbn in Hin; set_solver.
Qed.

(** X15: [Accept4] never calls [watchIO]: the accepted fd is returned
    unregistered, so unless it was watched before, [Read] and [Write] on it
    return -1 with [errno] [EBADF] without a system call. *)
Theorem Accept4_does_not_watch d addr addrlen flags timeout w s rounds n e rest :
  io_scheduler w = Some s → ioIsWatched d s = true →
  Forall woken_normally rounds →
  io_replies w = concat (round_replies <$> rounds) ++ Returns n e :: rest →
  0 ≤ n →
  ∃ w',
    Accept4 d addr addrlen flags timeout w = IODone n w'
    ∧ io_scheduler w' = Some (foldl after_round s rounds)
    ∧ io_replies w' = rest
    ∧ (∀ x, io_watchIO x ∈ io_calls w' → io_watchIO x ∈ io_calls w)
    ∧ (ioIsWatched n (foldl after_round s rounds) = false →
       ∀ buf buflen timeout',
         Read n buf buflen timeout' w'
         = IODone (-1)
             {| io_scheduler := Some (set_errno EBADF (foldl after_round s rounds));
                io_calls := io_calls w'; io_replies := rest |}
         ∧ Write n buf buflen timeout' w'
           = IODone (-1)
               {| io_scheduler := Some (set_errno EBADF (foldl after_round s rounds));
                  io_calls := io_calls w'; io_replies := rest |}).
Proof.
  intros Hs Hw Hok Hk Hn.
  pose proof (io_guarded_ends (sys_accept4 d addr addrlen flags) d Readability timeout
                w s rounds n e rest Hs Hw Hok Hk ltac:(lia)) as Hacc.
  destruct (Z.ltb_spec n 0) as [|_]; [lia|].
  eexists. split; [exact Hacc|]. cbn [io_scheduler io_calls io_replies].
  split; [done|]. split; [done|]. split.
  - intros x. rewrite !elem_of_app, list_elem_of_singleton.
    intros [?|[Hin|?]]; [done| |done].
    exfalso. revert Hin. by apply round_calls_no_watch.
  - intros Hnw buf buflen timeout'. split.
    + unfold Read. by rewrite (io_guarded_unwatched _ _ _ _ _ (foldl after_round s rounds)).
    + unfold Write. by rewrite (io_guarded_unwatched _ _ _ _ _ (foldl after_round s rounds)).
Qed.

(** ** [Close] twice *)

(** X16: [Close] on a watched fd leaves the fd unwatched whether [close]
    succeeded or not, so a second [Close] returns -1 with [errno] [EBADF]
    without calling [close] again. *)
Theorem Close_twice d w s k r e o rest :
  TheScheduler w = Some s → ioIsWatched d s = true →
  kernel w = replicate k (Sys (-1) EINTR 0) ++ Sys r e o :: rest →
  (r < 0 → e ≠ EINTR) →
  ∃ w1 s1,
    Close d w = Done (if r <? 0 then -1 else 0) w1
    ∧ TheScheduler w1 = Some s1
    ∧ ioIsWatched d s1 = false
    ∧ kernel w1 = rest
    ∧ Close d w1
      = Done (-1) {| TheScheduler := Some (set_errno EBADF s1);
                     trace := trace w1; kernel := rest |}.
Proof.
  intros Hs Hw Hk He.
  destruct (Close_retry_rounds d k (length (kernel w)) w s r e o rest)
    as (e0 & _ & Hloop); try done.
  { rewrite Hk, length_app, length_replicate. cbn. lia. }
  assert (∀ s0, ioIsWatched d (unwatchIO d s0) = false) as Hgone.
  { intros s0. unfold unwatchIO, IOPoll_removeEventAwaiters. rewrite unwatchIO_fold.
    unfold ioIsWatched, IOPoll_isWatched. cbn. apply bool_decide_eq_false. set_solver. }
  assert (Close d w
          = Done (if r <? 0 then -1 else 0)
              {| TheScheduler := Some (unwatchIO d (set_errno e0 s));
                 trace := trace w ++ replicate (S k) (sys_close d) ++ [call_unwatchIO d];
                 kernel := rest |}) as Hclose.
  { unfold Close. rewrite M_bind_run, (require_scheduler_run _ _ Hs).
    rewrite M_bind_run, (call_ioIsWatched_run _ _ _ Hs), Hw. cbn [negb].
    rewrite M_bind_run. unfold Close_loop. rewrite Hloop.
    destruct (r <? 0);
      rewrite M_bind_run, (unwatch_run _ _ (set_errno e0 s)) by done;
      cbn [trace kernel]; by rewrite <- app_assoc. }
  eexists _, _. split; [exact Hclose|]. cbn [TheScheduler kernel trace].
  split; [reflexivity|]. split; [apply Hgone|]. split; [reflexivity|].
  unfold Close. rewrite M_bind_run, (require_scheduler_run _ (unwatchIO d (set_errno e0 s)))
    by done.
  rewrite M_bind_run, (call_ioIsWatched_run _ _ (unwatchIO d (set_errno e0 s))) by done.
  rewrite Hgone. cbn [negb].
  by rewrite M_bind_run, (put_errno_run _ _ (unwatchIO d (set_errno e0 s))).
Qed.

(** ** [Connect], the other ways out *)

(** X20: [Connect], the other ways out: on an fd that is not watched it
    returns -1 with [errno] [EBADF] and calls nothing; if [connect] fails with
    an [errno] other than [EINTR] and [EINPROGRESS] it returns -1 at once;
    after [EINTR] it does not call [connect] again but waits for writability
    as after [EINPROGRESS]; if the wait fails it returns -1 with [errno] set
    to the negated resumption status; and if [getsockopt] fails it returns -1
    with the [errno] of [getsockopt]. *)
Theorem Connect_failures d addr addrlen timeout w s :
  TheScheduler w = Some s →
  (ioIsWatched d s = false →
   Connect d addr addrlen timeout w
   = Done (-1) {| TheScheduler := Some (set_errno EBADF s);
                  trace := trace w; kernel := kernel w |})
  ∧ (ioIsWatched d s = true →
     (∀ r e o rest,
        kernel w = Sys r e o :: rest → r < 0 → e ≠ EINTR → e ≠ EINPROGRESS →
        Connect d addr addrlen timeout w
        = Done (-1) {| TheScheduler := Some (set_errno e s);
                       trace := trace w ++ [sys_connect d addr addrlen];
                       kernel := rest |})
     ∧ (∀ r e o st s1 rest,
          kernel w = Sys r e o :: Resumed st s1 :: rest →
          r < 0 → e = EINTR ∨ e = EINPROGRESS → st < 0 →
          Connect d addr addrlen timeout w
          = Done (-1) {| TheScheduler := Some (set_errno (int_neg st) s1);
                         trace := trace w ++ [sys_connect d addr addrlen;
                                              call_awaitIOEvent d Writability timeout];
                         kernel := rest |})
     ∧ (∀ r e o st s1 g e2 optval rest,
          kernel w = Sys r e o :: Resumed st s1 :: Sys g e2 optval :: rest →
          r < 0 → e = EINTR ∨ e = EINPROGRESS → 0 < st →
          Connect d addr addrlen timeout w
          = Done (if (g <? 0) || negb (optval =? 0) then -1 else 0)
              {| TheScheduler :=
                   Some (if g <? 0 then set_errno e2 s1
                         else if optval =? 0 then s1 else set_errno optval s1);
                 trace := trace w ++ [sys_connect d addr addrlen;
                                      call_awaitIOEvent d Writability timeout;
                                      sys_getsockopt_SO_ERROR d];
                 kernel := rest |})).
Proof.
  intros Hs. split; [|intros Hw; split; [|split]].
  - intros Hw. unfold Connect.
    rewrite M_bind_run, (require_scheduler_run _ _ Hs).
    rewrite M_bind_run, (call_ioIsWatched_run _ _ _ Hs), Hw. cbn [negb].
    by rewrite M_bind_run, (put_errno_run _ _ _ Hs).
  - intros r e o rest Hk Hr He1 He2. unfold Connect.
    rewrite M_bind_run, (require_scheduler_run _ _ Hs).
    rewrite M_bind_run, (call_ioIsWatched_run _ _ _ Hs), Hw. cbn [negb].
    rewrite M_bind_run, (syscall_run _ _ _ _ _ _ _ Hs Hk).
    destruct (Z.ltb_spec r 0) as [_|]; [|lia].
    rewrite M_bind_run, (get_errno_run _ (set_errno e s)) by done.
    cbn [errno set_errno].
    destruct (Z.eqb_spec e EINTR); [done|].
    destruct (Z.eqb_spec e EINPROGRESS); [done|]. reflexivity.
  - intros r e o st s1 rest Hk Hr He Hst. unfold Connect.
    rewrite M_bind_run, (require_scheduler_run _ _ Hs).
    rewrite M_bind_run, (call_ioIsWatched_run _ _ _ Hs), Hw. cbn [negb].
    rewrite M_bind_run, (syscall_run _ _ _ _ _ _ _ Hs Hk).
    destruct (Z.ltb_spec r 0) as [_|]; [|lia].
    rewrite M_bind_run, (get_errno_run _ (set_errno e s)) by done.
    cbn [errno set_errno].
    assert (negb (e =? EINTR) && negb (e =? EINPROGRESS) = false) as ->.
    { destruct He as [-> | ->]; reflexivity. }
    rewrite M_bind_run.
    rewrite (await_run _ _ _ _ (set_errno e s) st s1 rest) by (done || lia).
    unfold awaitIOEvent_resume.
    destruct (Z.ltb_spec st 0) as [_|]; [|lia]. cbn [fst snd].
    change (-1 <? 0) with true. cbn iota.
    rewrite M_ret_run. cbn [trace kernel]. by rewrite <- app_assoc.
  - intros r e o st s1 g e2 optval rest Hk Hr He Hst. unfold Connect.
    rewrite M_bind_run, (require_scheduler_run _ _ Hs).
    rewrite M_bind_run, (call_ioIsWatched_run _ _ _ Hs), Hw. cbn [negb].
    rewrite M_bind_run, (syscall_run _ _ _ _ _ _ _ Hs Hk).
    destruct (Z.ltb_spec r 0) as [_|]; [|lia].
    rewrite M_bind_run, (get_errno_run _ (set_errno e s)) by done.
    cbn [errno set_errno].
    assert (negb (e =? EINTR) && negb (e =? EINPROGRESS) = false) as ->.
    { destruct He as [-> | ->]; reflexivity. }
    rewrite M_bind_run.
    rewrite (await_run _ _ _ _ (set_errno e s) st s1 (Sys g e2 optval :: rest))
      by (done || lia).
    unfold awaitIOEvent_resume.
    destruct (Z.ltb_spec st 0) as [|_]; [lia|]. cbn [fst snd].
    change (0 <? 0) with false. cbn iota.
    rewrite M_bind_run.
    rewrite (syscall_run _ _ s1 g e2 optval rest) by done.
    cbn [trace kernel].
    destruct (g <? 0); cbn [orb].
    + rewrite M_ret_run. do 2 rewrite <- app_assoc. reflexivity.
    + destruct (Z.eqb_spec optval 0) as [->|Hopt]; cbn [negb].
      * rewrite M_ret_run. do 2 rewrite <- app_assoc. reflexivity.
      * rewrite M_bind_run, (put_errno_run _ _ s1) by done.
        rewrite M_ret_run. cbn [trace kernel].
        do 2 rewrite <- app_assoc. reflexivity.
Qed.

Lemma Connect_failures_witness :
  Connect 5 0 16 1000
    {| TheScheduler := Some (watchIO 5 (Scheduler_new 0 0)); trace := [];
       kernel := [Sys (-1) EINTR 0;
                  Resumed (- ETIME) (watchIO 5 (Scheduler_new 0 0))] |}
  = Done (-1)
      {| TheScheduler := Some (set_errno ETIME (watchIO 5 (Scheduler_new 0 0)));
         trace := [sys_connect 5 0 16; call_awaitIOEvent 5 Writability 1000];
         kernel := [] |}.
Proof.
  destruct (Connect_failures 5 0 16 1000
              {| TheScheduler := Some (watchIO 5 (Scheduler_new 0 0)); trace := [];
                 kernel := [Sys (-1) EINTR 0;
                            Resumed (- ETIME) (watchIO 5 (Scheduler_new 0 0))] |}
              (watchIO 5 (Scheduler_new 0 0)) eq_refl) as [_ Hwatched].
  destruct (Hwatched eq_refl) as (_ & Hwait & _).
  apply (Hwait (-1) EINTR 0 (- ETIME) (watchIO 5 (Scheduler_new 0 0)) []);
    [reflexivity | lia | by left | unfold ETIME; lia].
Defined.

(** * The properties on the scenarios *)

Lemma exit_run_reachable : reachable 128 (state_after 128 exit_run).
Proof. apply state_after_reachable. vm_compute. by eexists. Qed.

Lemma sleep_run_reachable : reachable 128 (state_after 128 sleep_run).
Proof. apply state_after_reachable. vm_compute. by eexists. Qed.

Lemma recycle_run_reachable : reachable 128 (state_after 128 recycle_run).
Proof. apply state_after_reachable. vm_compute. by eexists. Qed.

Lemma three_fibers_run_reachable : reachable 128 (state_after 128 three_fibers_run).
Proof. apply state_after_reachable. vm_compute. by eexists. Qed.

Lemma reachable_fibers_linked_once_witness :
  NoDup (queued (state_after 128 ping_pong_run)
         ++ waiting (state_after 128 ping_pong_run)).
Proof.
  destruct (reachable_fibers_linked_once 128 (state_after 128 ping_pong_run))
    as (Hlinked & _).
  - exact ping_pong_run_reachable.
  - exact Hlinked.
Defined.

Lemma reachable_fiberCount_witness :
  fiberCount_ (state_after 128 ping_pong_run)
  = Z.of_nat (size (fibers (state_after 128 ping_pong_run))).
Proof.
  destruct (reachable_fiberCount 128 (state_after 128 ping_pong_run)) as (Hcount & _).
  - exact ping_pong_run_reachable.
  - exact Hcount.
Defined.

Lemma run_returns_with_no_fibers_witness :
  fibers (set_inRun false (run_reap (state_after 128 exit_run))) = ∅.
Proof.
  destruct (run_returns_with_no_fibers 128 (EIdle []) (state_after 128 exit_run)
              (set_inRun false (run_reap (state_after 128 exit_run))))
    as (Hempty & _).
  - exact exit_run_reachable.
  - vm_compute. reflexivity.
  - exact Hempty.
Defined.

Lemma ready_queue_is_fifo_witness :
  (∃ extra,
     readyFiberQueue_ (state_after 128 three_fibers_run) ++ extra
     = 196480
       :: readyFiberQueue_
            (land (yieldCurrentFiber (state_after 128 three_fibers_run))).1)
  ∧ 196480 ∈ [196480]
  ∧ 196480 ∈ [196480; 262016].
Proof.
  destruct (ready_queue_is_fifo 128 (state_after 128 three_fibers_run)
              three_fibers_run_reachable) as (Htail & Horder & Hlater).
  split; [|split].
  - destruct (Htail EYield
                (land (yieldCurrentFiber (state_after 128 three_fibers_run))).1
                (land (yieldCurrentFiber (state_after 128 three_fibers_run))).2
                ltac:(vm_compute; reflexivity)) as [extra Hq].
    exists extra. vm_compute in Hq |- *. exact Hq.
  - destruct (run_events 128 [EKill; EKill] (state_after 128 three_fibers_run))
      as [[s' ts]|] eqn:Hrun; [|vm_compute in Hrun; discriminate].
    pose proof Hrun as Hts. vm_compute in Hts. injection Hts as _ Hts.
    apply (Horder [] 196480 [] 262016 [] [EKill; EKill] s' ts [196480] []
             ltac:(vm_compute; reflexivity) Hrun).
    + rewrite <- Hts. reflexivity.
    + intros Hin. apply list_elem_of_singleton in Hin. discriminate.
  - destruct (run_events 128 [EYield; EYield; EYield]
                (state_after 128 three_fibers_run))
      as [[s' ts]|] eqn:Hrun; [|vm_compute in Hrun; discriminate].
    pose proof Hrun as Hts. vm_compute in Hts. injection Hts as _ Hts.
    apply (Hlater 196480 130944 [EYield; EYield; EYield] s' ts
             [196480; 262016] []).
    + vm_compute. apply list_elem_of_here.
    + vm_compute. intros Hin. apply elem_of_cons in Hin as [Hin|Hin]; [discriminate|].
      apply list_elem_of_singleton in Hin. discriminate.
    + exact Hrun.
    + rewrite <- Hts. reflexivity.
    + intros Hin. apply elem_of_cons in Hin as [Hin|Hin]; [discriminate|].
      apply list_elem_of_singleton in Hin. discriminate.
Defined.

Lemma poll_wakes_awaiter_witness :
  ∃ fb, fibers (run_poll [(5, Readability)] (state_after 128 read_timeout_run))
          !! 130944 = Some fb
        ∧ fd fb = -1 ∧ status fb = 1 ∧ context fb = Some InAwait.
Proof.
  destruct (poll_wakes_awaiter 128 [(5, Readability)]
              (state_after 128 read_timeout_run)
              {| aw_fd := 5; aw_event := Readability; aw_fiber := 130944 |})
    as (_ & _ & _ & Hrecord & _).
  - exact read_timeout_run_wf.
  - vm_compute. reflexivity.
  - vm_compute. reflexivity.
  - vm_compute. apply list_elem_of_here.
  - apply list_elem_of_here.
  - exact Hrecord.
Defined.

Lemma timer_expiry_wakes_sleeper_witness :
  130944 ∈ readyFiberQueue_ (run_timer (state_after 128 sleep_run)).
Proof.
  destruct (timer_expiry_wakes_sleeper 128 (state_after 128 sleep_run) 130944
              {| coroutine := Some 1%nat; context := Some InSleep;
                 status := 1; fd := -1 |})
    as (_ & Hready & _).
  - exact (reachable_wf 128 _ sleep_run_reachable).
  - vm_compute. reflexivity.
  - vm_compute. reflexivity.
  - vm_compute. apply not_elem_of_nil.
  - vm_compute. reflexivity.
  - vm_compute. apply list_elem_of_here.
  - exact Hready.
Defined.

Lemma recycled_fiber_is_bootstrapped_witness :
  ∃ s1 fb,
    callCoroutine 128 (Some 3%nat) 0 (state_after 128 recycle_run) = Ok s1
    ∧ fiberCount_ s1 = fiberCount_ (state_after 128 recycle_run)
    ∧ fibers s1 !! 130944 = Some fb
    ∧ coroutine fb = Some 3%nat ∧ context fb = None ∧ status fb = 0.
Proof.
  destruct (recycled_fiber_is_bootstrapped 128 (Some 3%nat) 0
              (state_after 128 recycle_run) 130944 [])
    as (s1 & fb & Hcall & Hcount & _ & _ & Hfb & Hc & Hctx & Hst & _).
  - exact recycle_run_reachable.
  - vm_compute. reflexivity.
  - exists s1, fb. repeat split; assumption.
Defined.

Lemma unwatchIO_spares_other_fds_witness :
  runningFiber_ (unwatchIO 7 (state_after 128 close_while_waiting_run))
  = runningFiber_ (state_after 128 close_while_waiting_run)
  ∧ {| aw_fd := 5; aw_event := Readability; aw_fiber := 130944 |}
    ∈ awaiters (ioPoll_ (unwatchIO 7 (state_after 128 close_while_waiting_run))).
Proof.
  destruct (unwatchIO_spares_other_fds 7 (state_after 128 close_while_waiting_run))
    as (Hr & _ & Hother & _).
  - exact close_while_waiting_run_wf.
  - split; [exact Hr|].
    destruct (Hother {| aw_fd := 5; aw_event := Readability; aw_fiber := 130944 |})
      as (Hin & _).
    + vm_compute. apply list_elem_of_here.
    + cbn. lia.
    + exact Hin.
Defined.

Lemma unwatchIO_leaves_fd_field_witness :
  ∃ fb, fibers (unwatchIO 5 (state_after 128 close_while_waiting_run)) !! 130944
        = Some fb
        ∧ fd fb = 5 ∧ 0 ≤ fd fb ∧ status fb = - EBADF.
Proof.
  destruct (unwatchIO_leaves_fd_field 5 (state_after 128 close_while_waiting_run)
              {| aw_fd := 5; aw_event := Readability; aw_fiber := 130944 |})
    as (_ & _ & Hrecord).
  - exact close_while_waiting_run_wf.
  - vm_compute. apply list_elem_of_here.
  - reflexivity.
  - exact Hrecord.
Defined.

Lemma entered_fiber_is_alive_witness :
  runningFiber_ (land (yieldCurrentFiber (state_after 128 ping_pong_run))).1
  = Some 196480.
Proof.
  destruct (entered_fiber_is_alive 128 EYield (state_after 128 ping_pong_run)
              (land (yieldCurrentFiber (state_after 128 ping_pong_run))).1
              (land (yieldCurrentFiber (state_after 128 ping_pong_run))).2
              196480)
    as (_ & _ & Hr & _).
  - exact ping_pong_run_reachable.
  - vm_compute. reflexivity.
  - vm_compute. reflexivity.
  - exact Hr.
Defined.

Lemma Open_behaviour_witness :
  Open 1 0 0
    {| io_scheduler := Some (Scheduler_new 0 0); io_calls := [];
       io_replies := [Returns (-1) EINTR; Returns 3 0] |}
  = IODone 3
      {| io_scheduler := Some (watchIO 3 (set_errno EINTR (Scheduler_new 0 0)));
         io_calls := [sys_open 1 (Z.lor 0 O_NONBLOCK) 0;
                      sys_open 1 (Z.lor 0 O_NONBLOCK) 0; io_watchIO 3];
         io_replies := [] |}.
Proof.
  destruct (Open_behaviour 1 0 0
              {| io_scheduler := Some (Scheduler_new 0 0); io_calls := [];
                 io_replies := [Returns (-1) EINTR; Returns 3 0] |})
    as (_ & _ & Hrounds).
  destruct (Hrounds (Scheduler_new 0 0) 1%nat 3 0 []) as [_ Hok];
    [reflexivity | reflexivity | lia |].
  destruct Hok as [Hopen _]; [lia|]. exact Hopen.
Defined.

Lemma created_descriptors_are_watched_witness :
  Pipe2 0
    {| io_scheduler := Some (Scheduler_new 0 0); io_calls := [];
       io_replies := [ReturnsPipe 0 0 3 4] |}
  = IODone (0, (3, 4))
      {| io_scheduler := Some (watchIO 4 (watchIO 3 (Scheduler_new 0 0)));
         io_calls := [sys_pipe2 (Z.lor 0 O_NONBLOCK); io_watchIO 3; io_watchIO 4];
         io_replies := [] |}
  ∧ ioIsWatched 3 (watchIO 4 (watchIO 3 (Scheduler_new 0 0))) = true.
Proof.
  destruct (created_descriptors_are_watched
              {| io_scheduler := Some (Scheduler_new 0 0); io_calls := [];
                 io_replies := [ReturnsPipe 0 0 3 4] |} (Scheduler_new 0 0))
    as (_ & _ & Hpipe & _ & Hboth & _); [reflexivity|].
  split.
  - exact (Hpipe 0 0 0 3 4 [] eq_refl).
  - exact (proj1 (Hboth 3 4)).
Defined.

Lemma Read_behaviour_witness :
  Read 5 0 16 20
    {| io_scheduler := Some (watchIO 5 (Scheduler_new 0 0)); io_calls := [];
       io_replies := [Returns (-1) EWOULDBLOCK;
                      Wakes (- ETIME) (watchIO 5 (Scheduler_new 0 0))] |}
  = IODone (-1)
      {| io_scheduler := Some (set_errno ETIME (watchIO 5 (Scheduler_new 0 0)));
         io_calls := [sys_read 5 0 16; io_awaitIOEvent 5 Readability 20];
         io_replies := [] |}.
Proof.
  destruct (Read_behaviour 5 0 16 20
              {| io_scheduler := Some (watchIO 5 (Scheduler_new 0 0)); io_calls := [];
                 io_replies := [Returns (-1) EWOULDBLOCK;
                                Wakes (- ETIME) (watchIO 5 (Scheduler_new 0 0))] |}
              (watchIO 5 (Scheduler_new 0 0)))
    as (_ & Hwatched); [reflexivity|].
  destruct (Hwatched eq_refl [] (Forall_nil_2 _)) as (_ & Hfails).
  exact (Hfails (-1) (- ETIME) (watchIO 5 (Scheduler_new 0 0)) [] eq_refl
           ltac:(lia) ltac:(unfold ETIME; lia)).
Defined.

Lemma Write_behaviour_witness :
  Write 5 0 16 20
    {| io_scheduler := Some (watchIO 5 (Scheduler_new 0 0)); io_calls := [];
       io_replies := [Returns (-1) EWOULDBLOCK;
                      Wakes 1 (watchIO 5 (Scheduler_new 0 0));
                      Returns 16 0] |}
  = IODone 16
      {| io_scheduler := Some (watchIO 5 (Scheduler_new 0 0));
         io_calls := [sys_write 5 0 16; io_awaitIOEvent 5 Writability 20;
                      sys_write 5 0 16];
         io_replies := [] |}.
Proof.
  destruct (Write_behaviour 5 0 16 20
              {| io_scheduler := Some (watchIO 5 (Scheduler_new 0 0)); io_calls := [];
                 io_replies := [Returns (-1) EWOULDBLOCK;
                                Wakes 1 (watchIO 5 (Scheduler_new 0 0));
                                Returns 16 0] |}
              (watchIO 5 (Scheduler_new 0 0)))
    as (_ & Hwatched); [reflexivity|].
  destruct (Hwatched eq_refl [Blocked 1 (watchIO 5 (Scheduler_new 0 0))])
    as (Hends & _).
  - apply Forall_cons. split; [cbn; lia | apply Forall_nil_2].
  - exact (Hends 16 0 [] eq_refl ltac:(lia)).
Defined.

Lemma Accept4_behaviour_witness :
  Accept4 5 0 0 0 20
    {| io_scheduler := Some (watchIO 5 (Scheduler_new 0 0)); io_calls := [];
       io_replies := [Returns (-1) EINTR; Returns 6 0] |}
  = IODone 6
      {| io_scheduler := Some (set_errno EINTR (watchIO 5 (Scheduler_new 0 0)));
         io_calls := [sys_accept4 5 0 0 0; sys_accept4 5 0 0 0];
         io_replies := [] |}.
Proof.
  destruct (Accept4_behaviour 5 0 0 0 20
              {| io_scheduler := Some (watchIO 5 (Scheduler_new 0 0)); io_calls := [];
                 io_replies := [Returns (-1) EINTR; Returns 6 0] |}
              (watchIO 5 (Scheduler_new 0 0)))
    as (_ & Hwatched); [reflexivity|].
  destruct (Hwatched eq_refl [Interrupted]) as (Hends & _).
  - apply Forall_cons. split; [exact I | apply Forall_nil_2].
  - exact (Hends 6 0 [] eq_refl ltac:(lia)).
Defined.

Lemma Accept4_does_not_watch_witness :
  ∃ w',
    Accept4 5 0 0 0 20
      {| io_scheduler := Some (watchIO 5 (Scheduler_new 0 0)); io_calls := [];
         io_replies := [Returns 6 0] |}
    = IODone 6 w'
    ∧ Read 6 0 16 20 w'
      = IODone (-1)
          {| io_scheduler := Some (set_errno EBADF (watchIO 5 (Scheduler_new 0 0)));
             io_calls := io_calls w'; io_replies := [] |}.
Proof.
  destruct (Accept4_does_not_watch 5 0 0 0 20
              {| io_scheduler := Some (watchIO 5 (Scheduler_new 0 0)); io_calls := [];
                 io_replies := [Returns 6 0] |}
              (watchIO 5 (Scheduler_new 0 0)) [] 6 0 [])
    as (w' & Hacc & _ & _ & _ & Hread).
  - reflexivity.
  - reflexivity.
  - apply Forall_nil_2.
  - reflexivity.
  - lia.
  - exists w'. split; [exact Hacc|].
    exact (proj1 (Hread eq_refl 0 16 20)).
Defined.

Lemma Close_twice_witness :
  ∃ w1 s1,
    Close 5 {| TheScheduler := Some (watchIO 5 (Scheduler_new 0 0)); trace := [];
               kernel := [Sys 0 0 0] |}
    = Done 0 w1
    ∧ TheScheduler w1 = Some s1
    ∧ Close 5 w1
      = Done (-1) {| TheScheduler := Some (set_errno EBADF s1);
                     trace := trace w1; kernel := [] |}.
Proof.
  destruct (Close_twice 5
              {| TheScheduler := Some (watchIO 5 (Scheduler_new 0 0)); trace := [];
                 kernel := [Sys 0 0 0] |}
              (watchIO 5 (Scheduler_new 0 0)) 0%nat 0 0 0 [])
    as (w1 & s1 & Hclose & Hs1 & _ & _ & Hagain).
  - reflexivity.
  - reflexivity.
  - reflexivity.
  - lia.
  - exists w1, s1. split; [exact Hclose|]. split; [exact Hs1 | exact Hagain].
Defined.
